(** * pcloud_sync: a shallow embedding of scripts/pcloud/pcloud_sync.py

    The script is a thin WebDAV client: a path codec, a directory lister, a
    metadata probe, two transfer primitives with bounded retry, a size-based
    change-detection policy and two recursive tree walkers.

    Modelling conventions.
    - A Python [str] is a [string]: the sequence of bytes of its UTF-8
      encoding. [quote] works byte by byte on that encoding, and the
      delimiters the script looks for (['/'], ['<'], ['%'], the XML tags) are
      ASCII, so searching for them in the bytes or in the code points is the
      same thing. The class [\d] and [int] see the code points: the
      decimal digits are those of the Unicode Character Database 14.0, the
      one of Python 3.11.
    - The network is a state machine owned by the [Session]: a request and the
      current state give a reply (a response or a transport exception) and the
      next state. The local disk written by the download side is part of the
      same state; the local tree read by the upload side is a snapshot, each
      file of which tells at which attempts of its upload it can be opened.
    - Every function that talks to the outside returns, next to its value, the
      list of events it caused: the requests sent together with their replies,
      the [time.sleep] calls, the lines printed and the local writes. *)

From Stdlib Require Import String Ascii List NArith ZArith Lia Bool Arith.
From Stdlib Require Import DecimalString.
From Stdlib Require DecimalPos DecimalN.
Import ListNotations.
Local Open Scope list_scope.
Local Open Scope string_scope.

(** ** Strings *)

Module Str.

(** [s.startswith(p)] *)
Definition startswith (s p : string) : bool := String.prefix p s.

(** [c in s] for a one-character [c] *)
Fixpoint mem (c : ascii) (s : string) : bool :=
  match s with
  | EmptyString => false
  | String d r => Ascii.eqb c d || mem c r
  end.

(** [sub in s]: substring test *)
Fixpoint contains (s sub : string) : bool :=
  String.prefix sub s ||
  match s with
  | EmptyString => false
  | String _ r => contains r sub
  end.

(** The text that follows the prefix [p], when [s] starts with [p]. *)
Fixpoint strip_prefix (p s : string) : option string :=
  match p, s with
  | EmptyString, _ => Some s
  | String a p', String b s' => if Ascii.eqb a b then strip_prefix p' s' else None
  | String _ _, EmptyString => None
  end.

(** The longest prefix whose characters satisfy [f], and the rest. *)
Fixpoint span (f : ascii -> bool) (s : string) : string * string :=
  match s with
  | EmptyString => (EmptyString, EmptyString)
  | String c r =>
      if f c then let '(a, b) := span f r in (String c a, b)
      else (EmptyString, s)
  end.

(** [s.split(c)] for a one-character separator: never empty, and
    [split "" = [""]]. *)
Fixpoint split (c : ascii) (s : string) : list string :=
  match s with
  | EmptyString => [EmptyString]
  | String d r =>
      if Ascii.eqb d c then EmptyString :: split c r
      else match split c r with
           | [] => [String d EmptyString]
           | w :: ws => String d w :: ws
           end
  end.

(** [sep.join(l)] *)
Fixpoint join (sep : string) (l : list string) : string :=
  match l with
  | [] => EmptyString
  | [w] => w
  | w :: ws => w ++ sep ++ join sep ws
  end.

(** [s.split(sep)] for a separator of any positive length: the pieces between
    the non-overlapping occurrences of [sep], found from the left. [skip]
    is the number of characters of a found separator still to pass over. *)
Fixpoint split_str_aux (sep : string) (skip : nat) (s : string) : list string :=
  match s with
  | EmptyString => [EmptyString]
  | String d r =>
      match skip with
      | S k => split_str_aux sep k r
      | O =>
          if String.prefix sep s then
            EmptyString :: split_str_aux sep (String.length sep - 1) r
          else match split_str_aux sep 0 r with
               | [] => [String d EmptyString]
               | w :: ws => String d w :: ws
               end
      end
  end.

Definition is_digit (c : ascii) : bool :=
  let n := N_of_ascii c in (48 <=? n)%N && (n <=? 57)%N.

Definition is_upper (c : ascii) : bool :=
  let n := N_of_ascii c in (65 <=? n)%N && (n <=? 90)%N.

Definition is_lower (c : ascii) : bool :=
  let n := N_of_ascii c in (97 <=? n)%N && (n <=? 122)%N.

(** [str(n)] for a non-negative integer *)
Definition of_N (n : N) : string := NilEmpty.string_of_uint (N.to_uint n).

(** The number a run of ASCII digits writes: what [int] reads from it. *)
Fixpoint int_of_digits (acc : N) (ds : string) : N :=
  match ds with
  | EmptyString => acc
  | String c r => int_of_digits (10 * acc + (N_of_ascii c - 48))%N r
  end.

(** [s.rstrip(c)]: drop the trailing run of [c]. *)
Fixpoint rstrip (c : ascii) (s : string) : string :=
  match s with
  | EmptyString => EmptyString
  | String d r =>
      match rstrip c r with
      | EmptyString => if Ascii.eqb d c then EmptyString else String d EmptyString
      | r' => String d r'
      end
  end.

(** [s.endswith(c)] for a one-character [c] *)
Fixpoint endswith (s : string) (c : ascii) : bool :=
  match s with
  | EmptyString => false
  | String d EmptyString => Ascii.eqb d c
  | String _ r => endswith r c
  end.

End Str.

(** ** urllib.parse: [quote] and [unquote] *)

Module Urllib.

(** The bytes [quote] never encodes: letters, digits and [_.-~]. *)
Definition always_safe (c : ascii) : bool :=
  Str.is_upper c || Str.is_lower c || Str.is_digit c || Str.mem c "_.-~".

Definition hex_digit (n : N) : ascii :=
  if (n <? 10)%N then ascii_of_N (48 + n) else ascii_of_N (55 + n).

(** ['%{:02X}'.format(byte)] *)
Definition percent (c : ascii) : string :=
  let n := N_of_ascii c in
  String "%" (String (hex_digit (n / 16)) (String (hex_digit (n mod 16)) EmptyString)).

Definition quote_byte (safe : string) (c : ascii) : string :=
  if always_safe c || Str.mem c safe then String c EmptyString else percent c.

(** [quote(s, safe=safe)] *)
Fixpoint quote (s : string) (safe : string) : string :=
  match s with
  | EmptyString => EmptyString
  | String c r => quote_byte safe c ++ quote r safe
  end.

Definition hex_value (c : ascii) : option N :=
  let n := N_of_ascii c in
  if Str.is_digit c then Some (n - 48)%N
  else if (65 <=? n)%N && (n <=? 70)%N then Some (n - 55)%N
  else if (97 <=? n)%N && (n <=? 102)%N then Some (n - 87)%N
  else None.

(** [unquote(s)]: a [%] followed by two hexadecimal digits becomes the byte
    they denote, any other [%] stays. *)
Fixpoint unquote (s : string) : string :=
  match s with
  | EmptyString => EmptyString
  | String c r =>
      if Ascii.eqb c "%" then
        match r with
        | String a (String b r') =>
            match hex_value a, hex_value b with
            | Some x, Some y => String (ascii_of_N (16 * x + y)) (unquote r')
            | _, _ => String c (unquote r)
            end
        | _ => String c (unquote r)
        end
      else String c (unquote r)
  end.

End Urllib.

(** ** The path codec *)

(** [get_webdav_url(base_url, path)] *)
Definition get_webdav_url (base_url path : string) : string :=
  let path := if Str.startswith path "/" then path else "/" ++ path in
  let encoded_path := Urllib.quote path "/" in
  base_url ++ encoded_path.

(** ** The outside world: requests, replies, events *)

Inductive method := PROPFIND | GET | PUT | MKCOL.

(** A call of [session.request(method, url, headers={'Depth': d}, data=f,
    timeout=t)], [session.get] or [session.put]. *)
Record request := Request {
  rq_method : method;
  rq_url : string;
  rq_depth : option string;
  rq_data : option string;
  rq_timeout : option N
}.

(** The four calls of the script:
    [session.request('PROPFIND', url, headers={'Depth': depth}, timeout=60)],
    [session.get(url, timeout=120)], [session.put(url, data=f, timeout=120)]
    and [session.request('MKCOL', url)]. *)
Definition propfind (depth url : string) : request :=
  Request PROPFIND url (Some depth) None (Some 60%N).

Definition get (url : string) : request :=
  Request GET url None None (Some 120%N).

Definition put (url data : string) : request :=
  Request PUT url None (Some data) (Some 120%N).

Definition mkcol (url : string) : request :=
  Request MKCOL url None None None.

(** What the script reads of a response: [status_code],
    [headers.get('content-length')] and the body ([text], [content]). *)
Record response := Response {
  status_code : N;
  content_length : option string;
  text : string
}.

(** A call either returns a response or raises. *)
Inductive reply :=
| Answer (r : response)
| Raises.

(** A [pathlib.Path] under the local root, as its parts. *)
Definition Path := list string.

Definition parent (p : Path) : Path := removelast p.

(** The writes of the download side: [p.mkdir(parents=True, exist_ok=True)]
    and [open(p, 'wb')] followed by [f.write(content)]. *)
Inductive disk_op :=
| Mkdir (p : Path)
| WriteFile (p : Path) (content : string).

(** The session performs the requests; [W] is the state of everything
    outside the process. *)
Record Session (W : Type) := {
  send : request -> W -> reply * W
}.
Arguments send {W}.

(** Why an attempt failed: a status the script does not accept, or an
    exception caught by its [except] clause. *)
Inductive cause :=
| Status (code : N)
| Exception.

(** The lines the script prints, one constructor per [print] statement, with
    the values interpolated in it. *)
Inductive message :=
| Found_directory (dir_name : string)
| Found_file (filename : string)
| Error_listing (remote_path : string) (c : cause)
| Retrying (attempt max_retries : nat)
| Failed_to_list (remote_path : string) (max_retries : nat)
| Size_MB (file_size : string)
| Error_downloading (remote_file : string) (c : cause)
| Failed_to_download (remote_file : string) (max_retries : nat)
| Error_uploading (name : string) (c : cause)
| Failed_to_upload (name : string) (max_retries : nat)
| Downloading (filename : string)
| Entering_directory (dirname : string)
| Uploading (name reason : string)
| Would_upload (name reason : string)
| Would_enter_directory (name : string).

Inductive event :=
| Sent (rq : request) (rp : reply)
| Slept (milliseconds : N)
| Printed (m : message)
| Wrote (op : disk_op) (ok : bool).

(** ** The effect monad: state of the world, and the events caused *)

Definition M (W A : Type) : Type := W -> A * W * list event.

Definition ret {W A} (a : A) : M W A := fun s => (a, s, []).

Definition bind {W A B} (c : M W A) (k : A -> M W B) : M W B :=
  fun s =>
    let '(a, s1, t1) := c s in
    let '(b, s2, t2) := k a s1 in
    (b, s2, (t1 ++ t2)%list).

Declare Scope io_scope.
Delimit Scope io_scope with io.
Notation "x <- c ;; k" := (bind c (fun x => k))
  (at level 61, c at next level, right associativity) : io_scope.
Notation "' pat <- c ;; k" := (bind c (fun x => match x with pat => k end))
  (at level 61, pat pattern, c at next level, right associativity) : io_scope.
Notation "c ;; k" := (bind c (fun _ => k))
  (at level 61, right associativity) : io_scope.
Local Open Scope io_scope.

Definition value {W A} (r : A * W * list event) : A := fst (fst r).
Definition state {W A} (r : A * W * list event) : W := snd (fst r).
Definition events {W A} (r : A * W * list event) : list event := snd r.

Section Effects.
Context {W : Type}.

Definition request_ (session : Session W) (rq : request) : M W reply :=
  fun s => let '(rp, s') := send session rq s in (rp, s', [Sent rq rp]).

(** [time.sleep(seconds)], in milliseconds *)
Definition sleep (milliseconds : N) : M W unit :=
  fun s => (tt, s, [Slept milliseconds]).

Definition print (m : message) : M W unit :=
  fun s => (tt, s, [Printed m]).

Definition when (b : bool) (c : M W unit) : M W unit :=
  if b then c else ret tt.

(** [for attempt in range(n)] started at [attempt], with a body that either
    returns from the function ([Some]) or goes on to the next round
    ([None]); [orelse] is the code after the loop. *)
Fixpoint for_range {A} (n attempt : nat) (body : nat -> M W (option A))
    (orelse : M W A) : M W A :=
  match n with
  | O => orelse
  | S n' =>
      r <- body attempt ;;
      match r with
      | Some a => ret a
      | None => for_range n' (S attempt) body orelse
      end
  end.

Section ForEach.
Context {A B : Type} (body : A -> B -> M W B).

(** [for x in l], the variables the loop updates being threaded as [acc]. *)
Fixpoint for_each (l : list A) (acc : B) : M W B :=
  match l with
  | [] => ret acc
  | x :: r => acc' <- body x acc ;; for_each r acc'
  end.

End ForEach.

End Effects.

(** ** Code points *)

Module Utf8.

(** The payload of a continuation byte [10xxxxxx]. *)
Definition continuation (c : ascii) : option N :=
  let n := N_of_ascii c in
  if (128 <=? n)%N && (n <? 192)%N then Some (n - 128)%N else None.

(** [k] continuation bytes at the head of [s], added to [acc]: the value
    reached, the bytes read and what follows them. *)
Fixpoint continuations (k : nat) (acc : N) (s : string)
  : option (N * string * string) :=
  match k with
  | O => Some (acc, EmptyString, s)
  | S k' =>
      match s with
      | String b r =>
          match continuation b with
          | Some x =>
              match continuations k' (64 * acc + x)%N r with
              | Some (cp, h, t) => Some (cp, String b h, t)
              | None => None
              end
          | None => None
          end
      | EmptyString => None
      end
  end.

(** What a first byte announces: the number of continuation bytes, its own
    payload, and the least code point written with that many bytes. *)
Definition lead (c : ascii) : option (nat * N * N) :=
  let n := N_of_ascii c in
  if (n <? 128)%N then Some (0%nat, n, 0%N)
  else if (n <? 192)%N then None
  else if (n <? 224)%N then Some (1%nat, (n - 192)%N, 128%N)
  else if (n <? 240)%N then Some (2%nat, (n - 224)%N, 2048%N)
  else if (n <? 248)%N then Some (3%nat, (n - 240)%N, 65536%N)
  else None.

(** The code points a [str] is encoded from: below 0x110000, surrogates
    apart. *)
Definition scalar (cp : N) : bool :=
  (cp <? 55296)%N || ((57344 <=? cp)%N && (cp <? 1114112)%N).

(** The character at the head of [s]: its code point, its bytes and what
    follows; [None] at the end of [s] and where the bytes are not the UTF-8
    encoding of a character. *)
Definition decode (s : string) : option (N * string * string) :=
  match s with
  | EmptyString => None
  | String a r =>
      match lead a with
      | Some (k, v, least) =>
          match continuations k v r with
          | Some (cp, h, t) =>
              if (least <=? cp)%N && scalar cp then Some (cp, String a h, t)
              else None
          | None => None
          end
      | None => None
      end
  end.

(** [[ord(c) for c in s]]; a character is never longer than [fuel] bytes
    when [fuel] is the length of [s]. *)
Fixpoint code_points_fuel (fuel : nat) (s : string) : option (list N) :=
  match s with
  | EmptyString => Some []
  | _ =>
      match fuel with
      | O => None
      | S fuel' =>
          match decode s with
          | Some (cp, _, t) => option_map (cons cp) (code_points_fuel fuel' t)
          | None => None
          end
      end
  end.

Definition code_points (s : string) : option (list N) :=
  code_points_fuel (String.length s) s.

End Utf8.

Module Unicode.

(** The digits zero of the Unicode Character Database 14.0: the decimal
    digits (general category [Nd]) come in runs of ten, from zero to nine. *)
Definition decimal_zeros : list N :=
  [48; 1632; 1776; 1984; 2406; 2534; 2662; 2790;
   2918; 3046; 3174; 3302; 3430; 3558; 3664; 3792;
   3872; 4160; 4240; 6112; 6160; 6470; 6608; 6784;
   6800; 6992; 7088; 7232; 7248; 42528; 43216; 43264;
   43472; 43504; 43600; 44016; 65296; 66720; 68912; 69734;
   69872; 69942; 70096; 70384; 70736; 70864; 71248; 71360;
   71472; 71904; 72016; 72784; 73040; 73120; 92768; 92864;
   93008; 120782; 120792; 120802; 120812; 120822; 123200; 123632;
   125264; 130032]%N.

(** [unicodedata.decimal(chr(cp))], when [chr(cp)] is a decimal digit: what
    [\d] matches and [int] reads. *)
Definition decimal (cp : N) : option N :=
  option_map (fun zero => (cp - zero)%N)
    (find (fun zero => (zero <=? cp)%N && (cp <? zero + 10)%N) decimal_zeros).

(** The blanks of [str.isspace] beyond ASCII. *)
Definition spaces : list N :=
  [133; 160; 5760; 8192; 8193; 8194; 8195; 8196; 8197; 8198; 8199; 8200; 8201;
   8202; 8232; 8233; 8239; 8287; 12288]%N.

End Unicode.

(** ** The two regular expressions and [int] *)

Module Re.

(** [\d] at the head of [s]: the value of the decimal digit found there, its
    bytes and what follows. *)
Definition decimal_at (s : string) : option (N * string * string) :=
  match Utf8.decode s with
  | Some (cp, h, t) =>
      match Unicode.decimal cp with
      | Some d => Some (d, h, t)
      | None => None
      end
  | None => None
  end.

Fixpoint decimals_fuel (fuel : nat) (s : string) : string * string :=
  match fuel with
  | O => (EmptyString, s)
  | S fuel' =>
      match decimal_at s with
      | Some (_, h, t) => let '(g, r) := decimals_fuel fuel' t in (h ++ g, r)
      | None => (EmptyString, s)
      end
  end.

(** [\d*] at the head of [s]: the longest run of decimal digits, and the
    rest. *)
Definition decimals (s : string) : string * string :=
  decimals_fuel (String.length s) s.

(** [re.search(open + '(' + cls + '+)' + close, s)], group 1 of the leftmost
    match; [run] gives the longest prefix made of characters of the class
    [cls], and the rest. [close] starts with a character outside the class,
    so a match at a position takes the whole run that follows [open]. *)
Definition match_here (open : string) (run : string -> string * string)
    (close s : string) : option string :=
  match Str.strip_prefix open s with
  | Some r =>
      let '(g, r') := run r in
      match g with
      | EmptyString => None
      | _ => if String.prefix close r' then Some g else None
      end
  | None => None
  end.

Fixpoint search (open : string) (run : string -> string * string)
    (close s : string) : option string :=
  match match_here open run close s with
  | Some g => Some g
  | None =>
      match s with
      | EmptyString => None
      | String _ r => search open run close r
      end
  end.

Definition not_lt (c : ascii) : bool := negb (Ascii.eqb c "<").

(** [r'<D:href>([^<]+)</D:href>'] *)
Definition href (block : string) : option string :=
  search "<D:href>" (Str.span not_lt) "</D:href>" block.

(** [r'<lp1:getcontentlength>(\d+)</lp1:getcontentlength>'] *)
Definition getcontentlength (content : string) : option string :=
  search "<lp1:getcontentlength>" decimals "</lp1:getcontentlength>" content.

(** [r'<lp1:getlastmodified>([^<]+)</lp1:getlastmodified>'] *)
Definition getlastmodified (content : string) : option string :=
  search "<lp1:getlastmodified>" (Str.span not_lt) "</lp1:getlastmodified>"
         content.

End Re.

Module PyInt.

Fixpoint of_decimals_fuel (fuel : nat) (acc : N) (ds : string) : N :=
  match fuel with
  | O => acc
  | S fuel' =>
      match Re.decimal_at ds with
      | Some (d, _, t) => of_decimals_fuel fuel' (10 * acc + d)%N t
      | None => acc
      end
  end.

(** [int(ds)] for a non-empty run of decimal digits. The limit on the number
    of digits ([sys.set_int_max_str_digits], 4300 unless set otherwise) is
    left out. *)
Definition of_decimals (ds : string) : N :=
  of_decimals_fuel (String.length ds) 0 ds.

(** The blanks [int] skips around a literal: [\t\n\v\f\r] and the space, and
    the blanks beyond ASCII; the separators 0x1C to 0x1F are not among
    them. *)
Definition is_space (cp : N) : bool :=
  ((9 <=? cp)%N && (cp <=? 13)%N) || (cp =? 32)%N
  || existsb (N.eqb cp) Unicode.spaces.

Fixpoint lstrip (l : list N) : list N :=
  match l with
  | cp :: r => if is_space cp then lstrip r else l
  | [] => []
  end.

(** The digits of a literal, read into [acc]: decimal digits, a single
    underscore between two of them, then blanks up to the end.
    [after_digit] tells whether the character before was a digit. *)
Fixpoint digits (acc : N) (after_digit : bool) (l : list N) : option N :=
  match l with
  | [] => if after_digit then Some acc else None
  | cp :: r =>
      match Unicode.decimal cp with
      | Some d => digits (10 * acc + d)%N true r
      | None =>
          if (cp =? 95)%N then
            if after_digit then digits acc false r else None
          else if after_digit && forallb is_space l then Some acc
          else None
      end
  end.

(** [int(s)]: [None] for [ValueError]. A character beyond ASCII counts as
    the blank or the digit it is; the limit on the number of digits is left
    out here too. *)
Definition int (s : string) : option Z :=
  match Utf8.code_points s with
  | Some l =>
      match lstrip l with
      | cp :: r =>
          if (cp =? 43)%N then option_map Z.of_N (digits 0 false r)
          else if (cp =? 45)%N then
            option_map (fun n => (- Z.of_N n)%Z) (digits 0 false r)
          else option_map Z.of_N (digits 0 false (cp :: r))
      | [] => None
      end
  | None => None
  end.

(** [n / 1024] raises [OverflowError] when the quotient, rounded to the
    nearest float, is beyond the largest one: from [2^1034 - 2^980] on. *)
Definition overflows (n : Z) : bool :=
  (2 ^ 1034 - 2 ^ 980 <=? Z.abs n)%Z.

(** Does [int(file_size) / 1024 / 1024] return (rather than raise
    [ValueError] or [OverflowError])? The figure printed from it is not
    modelled further. *)
Definition in_megabytes (file_size : string) : bool :=
  match int file_size with
  | Some n => negb (overflows n)
  | None => false
  end.

End PyInt.

(** ** Local files and remote metadata *)

(** A file of the local tree: [name] is [item.name], the size reported by
    [stat()] is the length of [content], and [opens k] tells whether
    [open(local_file, 'rb')] goes through at the attempt [k] of its upload
    (it raises otherwise). The tree is the one the walk finds: [stat()] on
    one of its files goes through. *)
Record local_file := LocalFileOpening {
  name : string;
  content : string;
  opens : nat -> bool
}.

(** A file that can be opened whenever it is asked for. *)
Definition LocalFile (name content : string) : local_file :=
  LocalFileOpening name content (fun _ => true).

Definition st_size (f : local_file) : N := N.of_nat (String.length (content f)).

(** What [local_path.iterdir()] yields: regular files, directories, and
    entries that are neither ([is_file()] and [is_dir()] both false). *)
#[local] Unset Elimination Schemes.
Inductive item :=
| File (f : local_file)
| Directory (dir_name : string) (entries : list item)
| Other (other_name : string).
#[local] Set Elimination Schemes.

(** [{'size': size, 'modified': modified}] *)
Record remote_info := RemoteInfo {
  size : option N;
  modified : option string
}.

(** [str(x)] for an integer or [None] *)
Definition str_size (x : option N) : string :=
  match x with
  | Some n => Str.of_N n
  | None => "None"
  end.

(** [remote_info['size'] != local_size]: [None] differs from every integer. *)
Definition size_differs (remote : option N) (local_size : N) : bool :=
  match remote with
  | Some n => negb (n =? local_size)%N
  | None => true
  end.

(** ** The directory lister *)

Section Client.
Context {W : Type}.
(** The local disk the download side writes to: whether the operation went
    through ([true]) or raised, and the state after it. *)
Variable disk : disk_op -> W -> bool * W.

Definition disk_do (op : disk_op) : M W bool :=
  fun s => let '(ok, s') := disk op s in (ok, s', [Wrote op ok]).

(** The common end of a failed attempt of the lister and of the transfers:
    [if attempt < max_retries - 1: print(Retrying...); time.sleep(2)] *)
Definition retry_in_2_seconds (attempt max_retries : nat) : M W unit :=
  when (attempt <? max_retries - 1)%nat
    (print (Retrying (attempt + 2) max_retries) ;; sleep 2000).

(** One round of the loop over the response blocks. *)
Definition list_block (remote_path block : string)
    (acc : list string * list string) : M W (list string * list string) :=
  let '(files, directories) := acc in
  match Re.href block with
  | None => ret acc
  | Some href =>
      let decoded_href := Urllib.unquote href in
      if String.eqb decoded_href remote_path
         || String.eqb decoded_href (remote_path ++ "/") then ret acc
      else
        let is_collection := Str.contains block "<D:collection/>" in
        if is_collection then
          let dir_name := last (Str.split "/" (Str.rstrip "/" decoded_href)) "" in
          match dir_name with
          | EmptyString => ret acc
          | _ => print (Found_directory dir_name) ;;
                 ret (files, (directories ++ [dir_name])%list)
          end
        else
          let filename := last (Str.split "/" decoded_href) "" in
          match filename with
          | EmptyString => ret acc
          | _ =>
              if negb (Str.endswith filename "/") then
                print (Found_file filename) ;;
                ret ((files ++ [filename])%list, directories)
              else ret acc
          end
  end.

Definition list_attempt (session : Session W) (url remote_path : string)
    (max_retries attempt : nat) : M W (option (list string * list string)) :=
  rp <- request_ session (propfind "1" url) ;;
  match rp with
  | Answer response =>
      if (status_code response =? 207)%N then
        let content := text response in
        let response_blocks := tl (Str.split_str_aux "<D:response" 0 content) in
        r <- for_each (list_block remote_path) response_blocks ([], []) ;;
        ret (Some r)
      else
        print (Error_listing remote_path (Status (status_code response))) ;;
        retry_in_2_seconds attempt max_retries ;;
        ret None
  | Raises =>
      print (Error_listing remote_path Exception) ;;
      retry_in_2_seconds attempt max_retries ;;
      ret None
  end.

(** [list_webdav_directory(session, base_url, remote_path, max_retries)] *)
Definition list_webdav_directory (session : Session W)
    (base_url remote_path : string) (max_retries : nat)
  : M W (list string * list string) :=
  let url := get_webdav_url base_url remote_path in
  for_range max_retries 0 (list_attempt session url remote_path max_retries)
    (print (Failed_to_list remote_path max_retries) ;; ret ([], [])).

(** ** The transfer primitives *)

Definition download_failed (remote_file : string) (c : cause)
    (max_retries attempt : nat) : M W (option bool) :=
  print (Error_downloading remote_file c) ;;
  retry_in_2_seconds attempt max_retries ;;
  ret None.

(** [with open(local_file, 'wb') as f: f.write(response.content)], then
    [return True]; an exception goes to the [except] clause. *)
Definition write_content (remote_file : string) (local_file : Path)
    (content : string) (max_retries attempt : nat) : M W (option bool) :=
  written <- disk_do (WriteFile local_file content) ;;
  if written then ret (Some true)
  else download_failed remote_file Exception max_retries attempt.

Definition download_attempt (session : Session W) (url remote_file : string)
    (local_file : Path) (max_retries attempt : nat) : M W (option bool) :=
  rp <- request_ session (get url) ;;
  match rp with
  | Answer response =>
      if (status_code response =? 200)%N then
        made <- disk_do (Mkdir (parent local_file)) ;;
        if made then
          let write :=
            write_content remote_file local_file (text response)
              max_retries attempt in
          match content_length response with
          | None | Some EmptyString => write
          | Some file_size =>
              if PyInt.in_megabytes file_size then
                print (Size_MB file_size) ;; write
              else download_failed remote_file Exception max_retries attempt
          end
        else download_failed remote_file Exception max_retries attempt
      else
        download_failed remote_file (Status (status_code response))
          max_retries attempt
  | Raises => download_failed remote_file Exception max_retries attempt
  end.

(** [download_webdav_file(session, base_url, remote_file, local_file,
    max_retries)] *)
Definition download_webdav_file (session : Session W)
    (base_url remote_file : string) (local_file : Path) (max_retries : nat)
  : M W bool :=
  let url := get_webdav_url base_url remote_file in
  for_range max_retries 0
    (download_attempt session url remote_file local_file max_retries)
    (print (Failed_to_download remote_file max_retries) ;; ret false).

Definition upload_failed (name : string) (c : cause)
    (max_retries attempt : nat) : M W (option bool) :=
  print (Error_uploading name c) ;;
  retry_in_2_seconds attempt max_retries ;;
  ret None.

(** One round of the loop of [upload_webdav_file]: [open(local_file, 'rb')]
    is inside the [try], so a file that cannot be opened fails the attempt
    before anything is sent. *)
Definition upload_attempt (session : Session W) (url : string)
    (local_file : local_file) (max_retries attempt : nat) : M W (option bool) :=
  if opens local_file attempt then
    rp <- request_ session (put url (content local_file)) ;;
    match rp with
    | Answer response =>
        let c := status_code response in
        if (c =? 200)%N || (c =? 201)%N || (c =? 204)%N then ret (Some true)
        else upload_failed (name local_file) (Status c) max_retries attempt
    | Raises => upload_failed (name local_file) Exception max_retries attempt
    end
  else upload_failed (name local_file) Exception max_retries attempt.

(** The first step of [upload_webdav_file]: a [MKCOL] on the parent of
    [remote_file] when that parent is not the empty string; whatever comes
    back, exception included, is ignored. *)
Definition create_remote_directory (session : Session W)
    (base_url remote_file : string) : M W unit :=
  let remote_dir := Str.join "/" (removelast (Str.split "/" remote_file)) in
  match remote_dir with
  | EmptyString => ret tt
  | _ =>
      let dir_url := get_webdav_url base_url remote_dir in
      _ <- request_ session (mkcol dir_url) ;; ret tt
  end.

(** [upload_webdav_file(session, base_url, local_file, remote_file,
    max_retries)] *)
Definition upload_webdav_file (session : Session W) (base_url : string)
    (local_file : local_file) (remote_file : string) (max_retries : nat)
  : M W bool :=
  let url := get_webdav_url base_url remote_file in
  create_remote_directory session base_url remote_file ;;
  for_range max_retries 0 (upload_attempt session url local_file max_retries)
    (print (Failed_to_upload (name local_file) max_retries) ;; ret false).

(** ** The metadata probe and the change-detection policy *)

Definition info_attempt (session : Session W) (url : string)
    (max_retries attempt : nat) : M W (option (option remote_info)) :=
  rp <- request_ session (propfind "0" url) ;;
  match rp with
  | Answer response =>
      if (status_code response =? 207)%N then
        let content := text response in
        let size_match := Re.getcontentlength content in
        let modified_match := Re.getlastmodified content in
        let size := option_map PyInt.of_decimals size_match in
        let modified := modified_match in
        ret (Some (Some (RemoteInfo size modified)))
      else if (status_code response =? 404)%N then ret (Some None)
      else when (attempt <? max_retries - 1)%nat (sleep 1000) ;; ret None
  | Raises => when (attempt <? max_retries - 1)%nat (sleep 1000) ;; ret None
  end.

(** [get_remote_file_info(session, base_url, remote_file, max_retries)] *)
Definition get_remote_file_info (session : Session W)
    (base_url remote_file : string) (max_retries : nat)
  : M W (option remote_info) :=
  let url := get_webdav_url base_url remote_file in
  for_range max_retries 0 (info_attempt session url max_retries) (ret None).

(** [should_upload_file(session, base_url, local_file, remote_file)] *)
Definition should_upload_file (session : Session W) (base_url : string)
    (local_file : local_file) (remote_file : string) : M W (bool * string) :=
  remote_info <- get_remote_file_info session base_url remote_file 3 ;;
  match remote_info with
  | None => ret (true, "new file")
  | Some remote_info =>
      let local_size := st_size local_file in
      if size_differs (size remote_info) local_size then
        ret (true, "size changed (" ++ str_size (size remote_info) ++ " -> "
                   ++ Str.of_N local_size ++ ")")
      else ret (false, "unchanged")
  end.

(** ** The tree walkers *)

(** The body of the loop over [files] in the download walker. *)
Definition download_one (session : Session W) (base_url remote_path : string)
    (local_path : Path) (filename : string) (counts : N * N) : M W (N * N) :=
  let '(success_count, total_files) := counts in
  print (Downloading filename) ;;
  let remote_file := remote_path ++ "/" ++ filename in
  let local_file := (local_path ++ [filename])%list in
  ok <- download_webdav_file session base_url remote_file local_file 3 ;;
  sleep 500 ;;
  ret (if ok then (success_count + 1)%N else success_count, (total_files + 1)%N).

(** The body of the loop over [directories] in the download walker, [recurse]
    being the recursive call; [None] is an exception on its way out. *)
Definition download_subdirectory
    (recurse : string -> Path -> M W (option (N * N)))
    (remote_path : string) (local_path : Path) (dirname : string)
    (acc : option (N * N)) : M W (option (N * N)) :=
  match acc with
  | None => ret None
  | Some (success_count, total_files) =>
      print (Entering_directory dirname) ;;
      let sub_remote_path := remote_path ++ "/" ++ dirname in
      let sub_local_path := (local_path ++ [dirname])%list in
      sub <- recurse sub_remote_path sub_local_path ;;
      match sub with
      | None => ret None
      | Some (sub_success, sub_total) =>
          ret (Some ((success_count + sub_success)%N,
                     (total_files + sub_total)%N))
      end
  end.

(** [download_directory_recursive(session, base_url, remote_path,
    local_path)]. [depth] is the number of nested calls the interpreter
    still allows; the result is [None] when an exception leaves the
    function: the recursion limit, or [local_path.mkdir], which no [try]
    protects. *)
Fixpoint download_directory_recursive (depth : nat) (session : Session W)
    (base_url remote_path : string) (local_path : Path)
  : M W (option (N * N)) :=
  match depth with
  | O => ret None
  | S depth' =>
      '(files, directories) <-
          list_webdav_directory session base_url remote_path 3 ;;
      made <- disk_do (Mkdir local_path) ;;
      if made then
        counts <- for_each (download_one session base_url remote_path local_path)
                           files (0%N, 0%N) ;;
        for_each
          (download_subdirectory
             (download_directory_recursive depth' session base_url)
             remote_path local_path)
          directories (Some counts)
      else ret None
  end.

(** The body of the loop over [local_path.iterdir()] in the upload walker. *)
Fixpoint upload_entry (session : Session W) (base_url : string) (item : item)
    (remote_path : string) (execute : bool) (counts : N * N * N)
  : M W (N * N * N) :=
  let '(success_count, total_files, skipped_count) := counts in
  match item with
  | File f =>
      let total_files := (total_files + 1)%N in
      let remote_file := remote_path ++ "/" ++ name f in
      '(should_upload, reason) <- should_upload_file session base_url f remote_file ;;
      if should_upload then
        if execute then
          print (Uploading (name f) reason) ;;
          ok <- upload_webdav_file session base_url f remote_file 3 ;;
          ret (if ok then (success_count + 1)%N else success_count,
               total_files, skipped_count)
        else
          print (Would_upload (name f) reason) ;;
          ret ((success_count + 1)%N, total_files, skipped_count)
      else ret (success_count, total_files, (skipped_count + 1)%N)
  | Directory dir_name entries =>
      let sub_remote_path := remote_path ++ "/" ++ dir_name in
      '(sub_success, sub_total, sub_skipped) <-
          for_each
            (fun it c => upload_entry session base_url it sub_remote_path execute c)
            entries (0%N, 0%N, 0%N) ;;
      when (0 <? sub_success)%N
        (print (if execute then Entering_directory dir_name
                else Would_enter_directory dir_name)) ;;
      ret ((success_count + sub_success)%N, (total_files + sub_total)%N,
           (skipped_count + sub_skipped)%N)
  | Other _ => ret counts
  end.

(** [upload_directory_recursive(session, base_url, local_path, remote_path,
    execute)], [local_path] being given by its entries. *)
Definition upload_directory_recursive (session : Session W) (base_url : string)
    (local_path : list item) (remote_path : string) (execute : bool)
  : M W (N * N * N) :=
  for_each (fun it c => upload_entry session base_url it remote_path execute c)
           local_path (0%N, 0%N, 0%N).

End Client.

(** ** Reading the events of a run *)

(** The requests sent, in order. *)
Fixpoint requests (tr : list event) : list request :=
  match tr with
  | [] => []
  | Sent rq _ :: r => rq :: requests r
  | _ :: r => requests r
  end.

(** The pauses taken, in order. *)
Fixpoint sleeps (tr : list event) : list N :=
  match tr with
  | [] => []
  | Slept ms :: r => ms :: sleeps r
  | _ :: r => sleeps r
  end.

(** The lines printed, in order. *)
Fixpoint printed (tr : list event) : list message :=
  match tr with
  | [] => []
  | Printed m :: r => m :: printed r
  | _ :: r => printed r
  end.

Definition is_write (rq : request) : bool :=
  match rq_method rq with
  | PUT | MKCOL => true
  | _ => false
  end.

Definition is_put (rq : request) : bool :=
  match rq_method rq with
  | PUT => true
  | _ => false
  end.

(** The status codes [upload_webdav_file] takes for a success. *)
Definition stored (rp : reply) : bool :=
  match rp with
  | Answer r =>
      let c := status_code r in (c =? 200)%N || (c =? 201)%N || (c =? 204)%N
  | Raises => false
  end.

(** The number of files the server took: [PUT] requests answered with one
    of the accepted codes. *)
Fixpoint transferred (tr : list event) : N :=
  match tr with
  | [] => 0
  | Sent rq rp :: r =>
      ((if is_put rq && stored rp then 1 else 0) + transferred r)%N
  | _ :: r => transferred r
  end.

(** The number of uploads given up: one [Failed to upload] line each. *)
Fixpoint failed_uploads (tr : list event) : N :=
  match tr with
  | [] => 0
  | Printed (Failed_to_upload _ _) :: r => (1 + failed_uploads r)%N
  | _ :: r => failed_uploads r
  end.

(** The attempts that failed: one [Error listing], [Error downloading] or
    [Error uploading] line each. *)
Fixpoint failed_attempts (tr : list event) : nat :=
  match tr with
  | [] => 0
  | Printed (Error_listing _ _) :: r
  | Printed (Error_downloading _ _) :: r
  | Printed (Error_uploading _ _) :: r => S (failed_attempts r)
  | _ :: r => failed_attempts r
  end.

(** The attempts, among the [n] from [attempt] on, at which [f] opens. *)
Definition opened (f : local_file) (attempt n : nat) : nat :=
  length (filter (opens f) (seq attempt n)).

(** The replies the session gives to [n] sends of [rq] in a row from [s]. *)
Fixpoint replies {W} (session : Session W) (rq : request) (n : nat) (s : W)
  : list reply :=
  match n with
  | O => []
  | S n' => let '(rp, s') := send session rq s in rp :: replies session rq n' s'
  end.

Definition has_status (code : N) (rp : reply) : bool :=
  match rp with
  | Answer r => (status_code r =? code)%N
  | Raises => false
  end.

(** The replies the probe retries on: neither multi-status nor not-found. *)
Definition transient (rp : reply) : bool :=
  negb (has_status 207 rp) && negb (has_status 404 rp).

(** [x] occurs in [s]. *)
Definition occurs_in (x s : string) : Prop :=
  exists a b, s = a ++ x ++ b.

(** The record the probe builds from a multi-status body. *)
Definition info_of (content : string) : remote_info :=
  RemoteInfo (option_map PyInt.of_decimals (Re.getcontentlength content))
             (Re.getlastmodified content).

(** What the probe returns, read off the replies the server would give to its
    attempts: the first reply that is not transient decides. *)
Definition probe_result (rps : list reply) : option remote_info :=
  match find (fun rp => negb (transient rp)) rps with
  | Some (Answer r) =>
      if (status_code r =? 207)%N then Some (info_of (text r)) else None
  | _ => None
  end.

(** The state of the world after [n] sends of [rq] in a row from [s]. *)
Fixpoint after {W} (session : Session W) (rq : request) (n : nat) (s : W) : W :=
  match n with
  | O => s
  | S n' => after session rq n' (snd (send session rq s))
  end.

(** The attempts the probe makes: up to the first decisive reply, included. *)
Fixpoint until_decisive (rps : list reply) : list reply :=
  match rps with
  | [] => []
  | rp :: r => if transient rp then rp :: until_decisive r else [rp]
  end.

(** Attempts separated by a fixed pause: what a retry loop without output
    leaves in the events. *)
Fixpoint backoff_trace (rq : request) (pause : N) (rps : list reply) : list event :=
  match rps with
  | [] => []
  | [rp] => [Sent rq rp]
  | rp :: r => Sent rq rp :: Slept pause :: backoff_trace rq pause r
  end.

(** No separator occurs in [s]. *)
Fixpoint no_slash (s : string) : bool :=
  match s with
  | EmptyString => true
  | String c r => negb (Ascii.eqb c "/") && no_slash r
  end.

(** The three counters of the upload walker. *)
Definition success_of (c : N * N * N) : N := fst (fst c).
Definition total_of (c : N * N * N) : N := snd (fst c).
Definition skipped_of (c : N * N * N) : N := snd c.

(** Induction on a local tree: a directory is reached with the property
    known for each of its entries. *)
Section ItemInduction.
Variable P : item -> Prop.
Hypothesis P_file : forall f, P (File f).
Hypothesis P_directory :
  forall dir_name entries, Forall P entries -> P (Directory dir_name entries).
Hypothesis P_other : forall other_name, P (Other other_name).

Fixpoint item_induction (it : item) : P it :=
  match it with
  | File f => P_file f
  | Directory dir_name entries =>
      P_directory dir_name entries
        ((fix all (l : list item) : Forall P l :=
            match l with
            | [] => Forall_nil P
            | x :: r => Forall_cons x (item_induction x) (all r)
            end) entries)
  | Other other_name => P_other other_name
  end.
End ItemInduction.

(** The parent of a remote file, as [upload_webdav_file] computes it. *)
Definition remote_dir_of (remote_file : string) : string :=
  Str.join "/" (removelast (Str.split "/" remote_file)).

(** The URL of the collection an upload of [remote_file] asks to create, if
    it asks for one. *)
Definition collection_url (base_url remote_file : string) : list string :=
  match remote_dir_of remote_file with
  | EmptyString => []
  | remote_dir => [get_webdav_url base_url remote_dir]
  end.

(** The URLs the upload walker probes for an entry met under [remote_path],
    in the order of the walk, and the URLs of the collections its uploads
    would ask to create. *)
Fixpoint file_urls (base_url : string) (it : item) (remote_path : string)
  : list string :=
  match it with
  | File f => [get_webdav_url base_url (remote_path ++ "/" ++ name f)]
  | Directory dir_name entries =>
      flat_map (fun x => file_urls base_url x (remote_path ++ "/" ++ dir_name))
               entries
  | Other _ => []
  end.

Fixpoint collection_urls (base_url : string) (it : item) (remote_path : string)
  : list string :=
  match it with
  | File f => collection_url base_url (remote_path ++ "/" ++ name f)
  | Directory dir_name entries =>
      flat_map (fun x => collection_urls base_url x (remote_path ++ "/" ++ dir_name))
               entries
  | Other _ => []
  end.

Definition tree_file_urls (base_url : string) (local_path : list item)
    (remote_path : string) : list string :=
  flat_map (fun x => file_urls base_url x remote_path) local_path.

Definition tree_collection_urls (base_url : string) (local_path : list item)
    (remote_path : string) : list string :=
  flat_map (fun x => collection_urls base_url x remote_path) local_path.

(** What a probe of [url] would be answered in state [s]. *)
Definition probe_reply {W} (session : Session W) (s : W) (url : string) : reply :=
  fst (send session (propfind "0" url) s).

(** Probes leave the remote state as it is. *)
Definition probes_read_only {W} (session : Session W) : Prop :=
  forall rq s, rq_method rq = PROPFIND -> snd (send session rq s) = s.

(** A [PUT] or [MKCOL] on one URL does not change what a probe of another URL
    is answered. *)
Definition writes_are_local {W} (session : Session W) : Prop :=
  forall rq s url,
    is_write rq = true -> rq_url rq <> url ->
    probe_reply session (snd (send session rq s)) url = probe_reply session s url.

(** Every character of [s] satisfies [f]. *)
Fixpoint all_chars (f : ascii -> bool) (s : string) : bool :=
  match s with
  | EmptyString => true
  | String c r => f c && all_chars f r
  end.

(** Every character of [s] is a decimal digit, of any script. *)
Fixpoint all_decimals_fuel (fuel : nat) (s : string) : bool :=
  match s with
  | EmptyString => true
  | _ =>
      match fuel with
      | O => false
      | S fuel' =>
          match Re.decimal_at s with
          | Some (_, _, t) => all_decimals_fuel fuel' t
          | None => false
          end
      end
  end.

Definition all_decimals (s : string) : bool :=
  all_decimals_fuel (String.length s) s.

(** The body holds a content-length element the probe can read: the opening
    tag, one decimal digit or more, the closing tag. *)
Definition has_content_length (content : string) : Prop :=
  exists before digits rest,
    digits <> EmptyString
    /\ all_decimals digits = true
    /\ content = before ++ "<lp1:getcontentlength>" ++ digits
                 ++ "</lp1:getcontentlength>" ++ rest.

(** The accounting of one round of the upload loop, and of the whole loop:
    every file counted in the total is counted as a success, as skipped, or
    has left a [Failed to upload] line; in execute mode the successes are the
    files the server took; a dry run gives up nothing and writes nothing. *)
Definition accounted {W} (execute : bool) (before : N * N * N)
    (run : N * N * N * W * list event) : Prop :=
  (total_of (value run) + success_of before + skipped_of before
   = total_of before + success_of (value run) + skipped_of (value run)
     + failed_uploads (events run))%N
  /\ (success_of before <= success_of (value run))%N
  /\ (skipped_of before <= skipped_of (value run))%N
  /\ (execute = true ->
      success_of (value run)
      = (success_of before + transferred (events run))%N)
  /\ (execute = false ->
      failed_uploads (events run) = 0%N
      /\ filter is_write (requests (events run)) = []).

(** What links the dry run of a part of the tree, started in [s] with the
    counters [c1], to its execute run, started in [s2] with [c2]: the dry run
    leaves the state as it is, the execute run changes the answers to the
    probes of its own URLs only, and the counters move together, an upload
    given up in the execute run being a success of the dry run. *)
Definition simulates {W} (session : Session W)
    (urls collections : list string) (s s2 : W) (c1 c2 : N * N * N)
    (dry exec : N * N * N * W * list event) : Prop :=
  state dry = s
  /\ (forall u, ~ In u urls -> ~ In u collections ->
        probe_reply session (state exec) u = probe_reply session s2 u)
  /\ (success_of (value dry) + success_of c2
      = success_of c1 + success_of (value exec) + failed_uploads (events exec))%N
  /\ (total_of (value dry) + total_of c2 = total_of c1 + total_of (value exec))%N
  /\ (skipped_of (value dry) + skipped_of c2
      = skipped_of c1 + skipped_of (value exec))%N.

(** The condition under which the two runs are compared: the URLs still to
    probe are pairwise distinct, none is a collection to create, and the two
    states answer their probes alike. *)
Definition walk_agrees {W} (session : Session W)
    (urls collections : list string) (s s2 : W) : Prop :=
  NoDup urls
  /\ (forall u, In u urls -> ~ In u collections)
  /\ (forall u, In u urls -> probe_reply session s2 u = probe_reply session s u).

(** ** Sessions used in the examples *)

(** A server that gives the same reply to everything. *)
Definition constant (rp : reply) : Session unit :=
  {| send := fun _ s => (rp, s) |}.

(** A server that plays a script: the replies to give, in order; once the
    script is over, the transport raises. *)
Definition scripted : Session (list reply) :=
  {| send := fun _ s => match s with
                        | [] => (Raises, [])
                        | rp :: r => (rp, r)
                        end |}.

Definition status (code : N) : reply := Answer (Response code None "").

Definition multistatus (body : string) : reply := Answer (Response 207 None body).

(** A server that rejects every [PUT] and knows no file. *)
Definition refusing : Session unit :=
  {| send := fun rq s =>
       match rq_method rq with
       | PUT => (status 500, s)
       | _ => (status 404, s)
       end |}.

(** A small WebDAV server: the files with their content and the collections,
    both by path. *)
Record store := Store {
  files : list (string * string);
  collections : list string
}.

Definition file_at (st : store) (p : string) : option string :=
  option_map snd (find (fun e => String.eqb (fst e) p) (files st)).

Definition collection_at (st : store) (p : string) : bool :=
  existsb (String.eqb p) (collections st).

Definition file_entry (p content : string) : string :=
  "<D:response><D:href>" ++ p ++ "</D:href><D:propstat><D:prop>"
  ++ "<lp1:getcontentlength>" ++ Str.of_N (N.of_nat (String.length content))
  ++ "</lp1:getcontentlength>"
  ++ "<lp1:getlastmodified>Thu, 01 Jan 1970 00:00:00 GMT</lp1:getlastmodified>"
  ++ "</D:prop></D:propstat></D:response>".

Definition collection_entry (p : string) : string :=
  "<D:response><D:href>" ++ p ++ "/</D:href><D:propstat><D:prop>"
  ++ "<lp1:resourcetype><D:collection/></lp1:resourcetype>"
  ++ "</D:prop></D:propstat></D:response>".

Definition children (st : store) (p : string) : string :=
  String.concat ""
    (map (fun e => file_entry (fst e) (snd e))
         (filter (fun e => String.eqb (remote_dir_of (fst e)) p) (files st))
     ++ map collection_entry
         (filter (fun c => String.eqb (remote_dir_of c) p) (collections st)))%list.

Definition put_file (st : store) (p data : string) : store :=
  Store ((p, data) :: filter (fun e => negb (String.eqb (fst e) p)) (files st))
        (collections st).

Definition propfind_answer (st : store) (rq : request) (p : string) : reply :=
  match file_at st p with
  | Some content => multistatus (file_entry p content)
  | None =>
      if collection_at st p then
        if match rq_depth rq with
           | Some depth => String.eqb depth "1"
           | None => false
           end
        then multistatus (collection_entry p ++ children st p)
        else multistatus (collection_entry p)
      else status 404
  end.

Definition dav_answer (st : store) (rq : request) (p : string) : reply * store :=
  match rq_method rq with
  | PROPFIND => (propfind_answer st rq p, st)
  | GET =>
      match file_at st p with
      | Some content =>
          (Answer (Response 200
                     (Some (Str.of_N (N.of_nat (String.length content))))
                     content), st)
      | None => (status 404, st)
      end
  | PUT =>
      if collection_at st p then (status 405, st)
      else if negb (collection_at st (remote_dir_of p)) then (status 409, st)
      else
        match rq_data rq with
        | Some data =>
            (status (match file_at st p with Some _ => 204 | None => 201 end),
             put_file st p data)
        | None => (status 400, st)
        end
  | MKCOL =>
      if collection_at st p then (status 405, st)
      else match file_at st p with
           | Some _ => (status 405, st)
           | None =>
               if collection_at st (remote_dir_of p)
               then (status 201, Store (files st) (p :: collections st))
               else (status 409, st)
           end
  end.

Definition dav (base_url : string) : Session store :=
  {| send := fun rq st =>
       match Str.strip_prefix base_url (rq_url rq) with
       | Some p => dav_answer st rq p
       | None => (status 400, st)
       end |}.

(** The remote tree of the examples: [a.json] of 10 bytes and [sub/b.bin] of
    20 bytes under [/thetawave/data], nothing under [/thetawave/media]. *)
Definition remote_tree : store :=
  Store [("/thetawave/data/a.json", "0123456789");
         ("/thetawave/data/sub/b.bin", "0123456789abcdefghij")]
        ["/thetawave"; "/thetawave/data"; "/thetawave/data/sub";
         "/thetawave/media"].

(** A local tree: [a.json] has grown, [sub/b.bin] has the remote size with
    another content, [sub/c.txt] and [new/d.txt] are not on the server. *)
Definition local_tree : list item :=
  [File (LocalFile "a.json" "0123456789xx");
   Other "socket";
   Directory "sub" [File (LocalFile "b.bin" "ABCDEFGHIJ0123456789");
                    File (LocalFile "c.txt" "c")];
   Directory "new" [File (LocalFile "d.txt" "d")]].

(** A disk on which every operation goes through. *)
Definition good_disk {W} (op : disk_op) (s : W) : bool * W := (true, s).

(** ** Further readings of the data *)

(** The bytes [quote(s, safe='/')] replaces by an escape. *)
Definition escaped (c : ascii) : bool :=
  negb (Urllib.always_safe c || Str.mem c "/").

(** How many bytes of [s] are replaced. *)
Fixpoint count_escaped (s : string) : nat :=
  match s with
  | EmptyString => 0
  | String c r => (if escaped c then 1 else 0) + count_escaped r
  end.

(** The character [c] does not occur in [s]. *)
Fixpoint lacks (c : ascii) (s : string) : bool :=
  match s with
  | EmptyString => true
  | String d r => negb (Ascii.eqb d c) && lacks c r
  end.

(** The files written to the local disk, with what was written, in order. *)
Fixpoint written (tr : list event) : list (Path * string) :=
  match tr with
  | [] => []
  | Wrote (WriteFile p content) true :: r => (p, content) :: written r
  | _ :: r => written r
  end.

(** The disk operations tried, in order. *)
Fixpoint disk_ops (tr : list event) : list disk_op :=
  match tr with
  | [] => []
  | Wrote op _ :: r => op :: disk_ops r
  | _ :: r => disk_ops r
  end.

(** The number of [Downloading] lines. *)
Fixpoint downloads_announced (tr : list event) : N :=
  match tr with
  | [] => 0
  | Printed (Downloading _) :: r => (1 + downloads_announced r)%N
  | _ :: r => downloads_announced r
  end.

(** The number of regular files of a local tree. *)
Fixpoint count_files (it : item) : N :=
  match it with
  | File _ => 1
  | Directory _ entries =>
      fold_right (fun x n => (count_files x + n)%N) 0%N entries
  | Other _ => 0
  end.

Definition tree_count_files (local_path : list item) : N :=
  fold_right (fun x n => (count_files x + n)%N) 0%N local_path.

(** The [PUT] requests that mirror an entry met under [remote_path]: each
    regular file, with its content, at its own URL. *)
Fixpoint file_puts (base_url : string) (it : item) (remote_path : string)
  : list request :=
  match it with
  | File f =>
      [put (get_webdav_url base_url (remote_path ++ "/" ++ name f)) (content f)]
  | Directory dir_name entries =>
      flat_map (fun x => file_puts base_url x (remote_path ++ "/" ++ dir_name))
               entries
  | Other _ => []
  end.

(** Everything the upload walker may send for a local tree: the probe and
    the [PUT] of each file, and the [MKCOL] of its parent. *)
Definition tree_requests (base_url : string) (local_path : list item)
    (remote_path : string) : list request :=
  (map (propfind "0") (tree_file_urls base_url local_path remote_path)
   ++ flat_map (fun x => file_puts base_url x remote_path) local_path
   ++ map mkcol (tree_collection_urls base_url local_path remote_path))%list.

(** A disk operation of the download of [local_file]: the creation of its
    parent directory, or a write of the file itself. *)
Definition for_download_of (local_file : Path) (op : disk_op) : Prop :=
  match op with
  | Mkdir p => p = parent local_file
  | WriteFile p _ => p = local_file
  end.

(** A name of one level: not empty, and without separator. *)
Definition one_level (w : string) : Prop :=
  w <> EmptyString /\ no_slash w = true.

(** What the upload walker may send for one entry met under [remote_path]. *)
Definition entry_requests (base_url : string) (it : item) (remote_path : string)
  : list request :=
  (map (propfind "0") (file_urls base_url it remote_path)
   ++ file_puts base_url it remote_path
   ++ map mkcol (collection_urls base_url it remote_path))%list.

(** ** The commands *)

(** The lines printed by the session opener and by the commands, one
    constructor per [print] statement; [Usage] is [print(__doc__)]. *)
Inductive line :=
| Set_credentials
| Failed_to_connect (status_code : N)
| Error_connecting
| Downloading_tree (remote_path : string) (local_path : Path)
| Downloaded (success_count total_files : N) (remote_dir : string)
| No_files_found (remote_path : string)
| Download_completed
| Dry_run_mode
| Add_execute
| Blank
| Assets_not_found
| Skipping (local_dir : string)
| Checking (local_path : Path) (remote_path : string)
| Would_check (local_path : Path) (remote_path : string)
| Uploaded_from (success_count : N) (local_dir : string)
| Would_upload_from (success_count : N) (local_dir : string)
| No_changes_in (local_dir : string)
| Upload_completed (total_success : N)
| All_up_to_date
| Dry_run_summary
| Files_would_be_uploaded (total_success : N)
| Files_would_be_skipped (total_skipped : N)
| To_actually_upload
| Sync_upload_execute
| No_files_need_uploading
| Testing_connection
| Files_in (remote_path : string) (files : list string)
| Directories_in (remote_path : string) (dirs : list string)
| Usage
| Unknown_command (command : string).

(** What a command leaves behind: the events of the functions it calls, its
    own lines, and [assets_dir.mkdir(exist_ok=True)]. *)
Inductive output :=
| Inner (e : event)
| Line (l : line)
| Made (p : Path) (ok : bool).

(** How a call ends: it returns, [sys.exit(code)] is on its way out, or an
    exception nobody catches is. *)
Inductive outcome (A : Type) :=
| Returned (a : A)
| Exited (code : N)
| Raised.
Arguments Returned {A}.
Arguments Exited {A}.
Arguments Raised {A}.

(** The status the process ends with. *)
Definition exit_status {A} (o : outcome A) : N :=
  match o with
  | Returned _ => 0
  | Exited code => code
  | Raised => 1
  end.

Definition C (W A : Type) : Type := W -> outcome A * W * list output.

Definition cret {W A} (a : A) : C W A := fun s => (Returned a, s, []).

Definition cbind {W A B} (c : C W A) (k : A -> C W B) : C W B :=
  fun s =>
    match c s with
    | (Returned a, s1, t1) =>
        let '(b, s2, t2) := k a s1 in (b, s2, (t1 ++ t2)%list)
    | (Exited code, s1, t1) => (Exited code, s1, t1)
    | (Raised, s1, t1) => (Raised, s1, t1)
    end.

Declare Scope cmd_scope.
Delimit Scope cmd_scope with cmd.
Notation "x <- c ;; k" := (cbind c (fun x => k))
  (at level 61, c at next level, right associativity) : cmd_scope.
Notation "' pat <- c ;; k" := (cbind c (fun x => match x with pat => k end))
  (at level 61, pat pattern, c at next level, right associativity) : cmd_scope.
Notation "c ;; k" := (cbind c (fun _ => k))
  (at level 61, right associativity) : cmd_scope.

Definition outcome_of {W A} (r : outcome A * W * list output) : outcome A :=
  fst (fst r).
Definition final {W A} (r : outcome A * W * list output) : W := snd (fst r).
Definition outputs {W A} (r : outcome A * W * list output) : list output :=
  snd r.

(** The events of the functions called. *)
Fixpoint inner (out : list output) : list event :=
  match out with
  | [] => []
  | Inner e :: r => e :: inner r
  | _ :: r => inner r
  end.

(** The lines of the commands themselves. *)
Fixpoint lines (out : list output) : list line :=
  match out with
  | [] => []
  | Line l :: r => l :: lines r
  | _ :: r => lines r
  end.

(** What the process finds around it: the environment variables, the network
    as an authenticated session sees it, the local disk, the directory the
    script is installed under, what is at [assets] below it when an upload
    starts, and the depth of calls left for the download walker. *)
Record Host (W : Type) := {
  getenv : string -> option string;
  connect : string -> string -> Session W;
  host_disk : disk_op -> W -> bool * W;
  mkdir_exist_ok : Path -> W -> bool * W;
  project_root : Path;
  assets : option item;
  recursion_limit : nat
}.
Arguments getenv {W}.
Arguments connect {W}.
Arguments host_disk {W}.
Arguments mkdir_exist_ok {W}.
Arguments project_root {W}.
Arguments assets {W}.
Arguments recursion_limit {W}.

Definition item_name (it : item) : string :=
  match it with
  | File f => name f
  | Directory dir_name _ => dir_name
  | Other other_name => other_name
  end.

(** [(assets_dir / local_dir)], when it exists. *)
Definition child (assets_dir : item) (local_dir : string) : option item :=
  match assets_dir with
  | Directory _ entries =>
      find (fun it => String.eqb (item_name it) local_dir) entries
  | _ => None
  end.

Section Commands.
Context {W : Type}.
Local Open Scope cmd_scope.

Definition lift {A} (m : M W A) : C W A :=
  fun s => let '(a, s', t) := m s in (Returned a, s', map Inner t).

Definition say (l : line) : C W unit := fun s => (Returned tt, s, [Line l]).

Definition sys_exit {A} (code : N) : C W A := fun s => (Exited code, s, []).

Definition raise {A} : C W A := fun s => (Raised, s, []).

Definition say_when (b : bool) (l : line) : C W unit :=
  if b then say l else cret tt.

Section CForEach.
Context {A B : Type} (body : A -> B -> C W B).

Fixpoint cfor_each (l : list A) (acc : B) : C W B :=
  match l with
  | [] => cret acc
  | x :: r => acc' <- body x acc ;; cfor_each r acc'
  end.

End CForEach.

(** [get_webdav_session()]. [sys.exit] inside the [try] is not caught by
    [except Exception]. *)
Definition get_webdav_session (h : Host W) : C W (Session W * string) :=
  match getenv h "PCLOUD_USERNAME", getenv h "PCLOUD_PASSWORD" with
  | Some (String a u), Some (String b p) =>
      let username := String a u in
      let password := String b p in
      let base_url := "https://webdav.pcloud.com" in
      let session := connect h username password in
      rp <- lift (request_ session
                    (Request PROPFIND base_url (Some "0") None None)) ;;
      match rp with
      | Answer response =>
          let code := status_code response in
          if (code =? 200)%N || (code =? 207)%N then cret (session, base_url)
          else say (Failed_to_connect code) ;; sys_exit 1
      | Raises => say Error_connecting ;; sys_exit 1
      end
  | _, _ => say Set_credentials ;; sys_exit 1
  end.

(** The body of the loop of [download_from_pcloud]. *)
Definition download_tree (h : Host W) (session : Session W) (base_url : string)
    (assets_dir : Path) (remote_dir : string) (_ : unit) : C W unit :=
  let remote_path := "/thetawave/" ++ remote_dir in
  let local_path := (assets_dir ++ [remote_dir])%list in
  say (Downloading_tree remote_path local_path) ;;
  r <- lift (download_directory_recursive (host_disk h) (recursion_limit h)
               session base_url remote_path local_path) ;;
  match r with
  | None => raise
  | Some (success_count, total_files) =>
      if (0 <? total_files)%N then
        say (Downloaded success_count total_files remote_dir)
      else say (No_files_found remote_path)
  end.

(** [download_from_pcloud()] *)
Definition download_from_pcloud (h : Host W) : C W unit :=
  '(session, base_url) <- get_webdav_session h ;;
  let assets_dir := (project_root h ++ ["assets"])%list in
  made <- (fun s => let '(ok, s') := mkdir_exist_ok h assets_dir s in
                    (Returned ok, s', [Made assets_dir ok])) ;;
  if made then
    cfor_each (download_tree h session base_url assets_dir) ["data"; "media"] tt ;;
    say Download_completed
  else raise.

(** The body of the loop of [upload_to_pcloud]; the accumulator is
    [(total_files, total_success, total_skipped)]. [iterdir()] on what is not
    a directory raises. *)
Definition upload_tree (h : Host W) (session : Session W) (base_url : string)
    (assets_dir : item) (execute : bool) (local_dir : string)
    (totals : N * N * N) : C W (N * N * N) :=
  let '(total_files, total_success, total_skipped) := totals in
  let local_path := (project_root h ++ ["assets"; local_dir])%list in
  let remote_path := "/thetawave/" ++ local_dir in
  match child assets_dir local_dir with
  | None => say (Skipping local_dir) ;; cret totals
  | Some it =>
      say (if execute then Checking local_path remote_path
           else Would_check local_path remote_path) ;;
      match it with
      | Directory _ entries =>
          '(success_count, file_count, skipped_count) <-
              lift (upload_directory_recursive session base_url entries
                      remote_path execute) ;;
          (if execute then
             say_when (0 <? success_count)%N
               (Uploaded_from success_count local_dir)
           else if (0 <? success_count)%N then
             say (Would_upload_from success_count local_dir)
           else say (No_changes_in local_dir)) ;;
          cret ((total_files + file_count)%N, (total_success + success_count)%N,
                (total_skipped + skipped_count)%N)
      | _ => raise
      end
  end.

(** [upload_to_pcloud(execute)] *)
Definition upload_to_pcloud (h : Host W) (execute : bool) : C W unit :=
  (if execute then cret tt
   else say Dry_run_mode ;; say Add_execute ;; say Blank) ;;
  '(session, base_url) <- get_webdav_session h ;;
  match assets h with
  | None => say Assets_not_found
  | Some assets_dir =>
      '(total_files, total_success, total_skipped) <-
          cfor_each (upload_tree h session base_url assets_dir execute)
                    ["data"; "media"] (0%N, 0%N, 0%N) ;;
      if execute then
        if (0 <? total_success)%N then say (Upload_completed total_success)
        else say All_up_to_date
      else
        say Dry_run_summary ;;
        say_when (0 <? total_success)%N (Files_would_be_uploaded total_success) ;;
        say_when (0 <? total_skipped)%N (Files_would_be_skipped total_skipped) ;;
        if (0 <? total_success)%N then
          say To_actually_upload ;; say Sync_upload_execute
        else say No_files_need_uploading
  end.

(** One of the three listings of [test_pcloud_connection]. *)
Definition test_listing (session : Session W) (base_url : string)
    (remote_path : string) (_ : unit) : C W unit :=
  '(files, dirs) <- lift (list_webdav_directory session base_url remote_path 3) ;;
  say (Files_in remote_path files) ;;
  say (Directories_in remote_path dirs).

(** [test_pcloud_connection()] *)
Definition test_pcloud_connection (h : Host W) : C W unit :=
  '(session, base_url) <- get_webdav_session h ;;
  say Testing_connection ;;
  cfor_each (test_listing session base_url)
            ["/thetawave"; "/thetawave/data"; "/thetawave/media"] tt.

(** [main()], [argv] being [sys.argv]. *)
Definition main (h : Host W) (argv : list string) : C W unit :=
  match argv with
  | [] | [_] => say Usage ;; sys_exit 1
  | _ :: command :: rest =>
      if String.eqb command "download" then download_from_pcloud h
      else if String.eqb command "upload" then
        let execute := match rest with
                       | a :: _ => String.eqb a "--execute"
                       | [] => false
                       end in
        upload_to_pcloud h execute
      else if String.eqb command "test" then test_pcloud_connection h
      else say (Unknown_command command) ;; say Usage ;; sys_exit 1
  end.

End Commands.

(** A host of the examples: both credentials set, the small WebDAV server on
    the network, a disk on which everything goes through. *)
Definition example_host (local : option item) : Host store :=
  {| getenv := fun v => if String.eqb v "PCLOUD_USERNAME" then Some "me@example.org"
                        else if String.eqb v "PCLOUD_PASSWORD" then Some "secret"
                        else None;
     connect := fun _ _ => dav "https://webdav.pcloud.com";
     host_disk := good_disk;
     mkdir_exist_ok := fun _ s => (true, s);
     project_root := ["project"];
     assets := local;
     recursion_limit := 10 |}.

(** A host without password. *)
Definition anonymous_host : Host store :=
  {| getenv := fun v => if String.eqb v "PCLOUD_USERNAME" then Some "me@example.org"
                        else None;
     connect := fun _ _ => dav "https://webdav.pcloud.com";
     host_disk := good_disk;
     mkdir_exist_ok := fun _ s => (true, s);
     project_root := ["project"];
     assets := None;
     recursion_limit := 10 |}.

(** The remote tree of the examples, the root of the server included. *)
Definition remote_root : store :=
  Store (files remote_tree) ("" :: collections remote_tree).

(** The local [assets] of the examples: [data] holds the local tree, there is
    no [media]. *)
Definition local_assets : item :=
  Directory "assets" [Directory "data" local_tree].

(** An environment variable that is not set, or set to the empty string. *)
Definition unset (v : option string) : bool :=
  match v with
  | Some (String _ _) => false
  | _ => true
  end.

(** The statuses the connectivity check accepts. *)
Definition connected (rp : reply) : bool :=
  has_status 200 rp || has_status 207 rp.

(** [argv] asks for a real upload: [upload] followed by [--execute]. *)
Definition asks_execute (argv : list string) : bool :=
  match argv with
  | _ :: command :: flag :: _ =>
      String.eqb command "upload" && String.eqb flag "--execute"
  | _ => false
  end.

(** [argv] names one of the three commands. *)
Definition known_command (argv : list string) : bool :=
  match argv with
  | _ :: command :: _ =>
      String.eqb command "download" || String.eqb command "upload"
      || String.eqb command "test"
  | _ => false
  end.

(** A command that sends no [PUT] and no [MKCOL], from any state. *)
Definition read_only {W A} (c : C W A) : Prop :=
  forall s, filter is_write (requests (inner (outputs (c s)))) = [].

(** The number of regular files, at any depth, of the directory [local_dir]
    of [assets], when there is one. *)
Definition files_under (assets_dir : option item) (local_dir : string) : N :=
  match assets_dir with
  | Some d =>
      match child d local_dir with
      | Some (Directory _ entries) => tree_count_files entries
      | _ => 0
      end
  | None => 0
  end.

(** The uploads a dry run announces in its summary. *)
Fixpoint announced_uploads (ls : list line) : N :=
  match ls with
  | [] => 0
  | Files_would_be_uploaded n :: r => (n + announced_uploads r)%N
  | _ :: r => announced_uploads r
  end.

(** The unchanged files a dry run announces in its summary. *)
Fixpoint announced_skips (ls : list line) : N :=
  match ls with
  | [] => 0
  | Files_would_be_skipped n :: r => (n + announced_skips r)%N
  | _ :: r => announced_skips r
  end.

(** The files the [Downloaded a/b files] lines report as downloaded. *)
Fixpoint reported_downloaded (ls : list line) : N :=
  match ls with
  | [] => 0
  | Downloaded success_count _ _ :: r => (success_count + reported_downloaded r)%N
  | _ :: r => reported_downloaded r
  end.

(** The number of files written to the local disk during a command. *)
Definition files_written (out : list output) : N :=
  N.of_nat (length (written (inner out))).

(** What the download of the tree [remote_dir] leaves behind when it
    returns, [ev] being the events of the walk: the announcement, the events,
    and the report -- the files written out of the files announced, or
    [No files found] when none was announced. *)
Definition tree_report (remote_dir : string) (ev : list event) : line :=
  if (0 <? downloads_announced ev)%N then
    Downloaded (N.of_nat (length (written ev))) (downloads_announced ev) remote_dir
  else No_files_found ("/thetawave/" ++ remote_dir).

Definition tree_output (assets_dir : Path) (remote_dir : string)
    (ev : list event) : list output :=
  (Line (Downloading_tree ("/thetawave/" ++ remote_dir)
                          (assets_dir ++ [remote_dir]))
   :: map Inner ev ++ [Line (tree_report remote_dir ev)])%list.

(** * Properties *)
Example get_webdav_url_ex1 :
  get_webdav_url "https://webdav.pcloud.com" "thetawave/my data/a&b.json"
  = "https://webdav.pcloud.com/thetawave/my%20data/a%26b.json".
Proof. reflexivity. Qed.

Example get_webdav_url_ex2 :
  get_webdav_url "https://webdav.pcloud.com" "/thetawave/media"
  = "https://webdav.pcloud.com/thetawave/media".
Proof. reflexivity. Qed.

Example unquote_ex : Urllib.unquote "/a%20b/%zz%4" = "/a b/%zz%4".
Proof. reflexivity. Qed.

Example split_ex : Str.split "/" "/a//b" = [""; "a"; ""; "b"].
Proof. reflexivity. Qed.

Example split_str_ex :
  Str.split_str_aux "<D:r" 0 "x<D:r1<D:r<D:r2" = ["x"; "1"; ""; "2"].
Proof. reflexivity. Qed.

Example rstrip_ex : Str.rstrip "/" "/a/b//" = "/a/b".
Proof. reflexivity. Qed.

Example of_N_ex : Str.of_N 0 = "0" /\ Str.of_N 1205 = "1205".
Proof. split; reflexivity. Qed.

(** [int] on a few literals: blanks around, one sign, single underscores
    between digits, digits of any script; the separators 0x1C to 0x1F are no
    blanks for it. *)
Example int_ex :
  map PyInt.int
      [" 42 "; "-7"; "+1_000"; "007";
       String "217"%char (String "163"%char "1");
       String "194"%char (String "160"%char "5");
       ""; "1__0"; "_1"; "1_"; "+ 1"; "0x10"; "1 2";
       String "028"%char "1"]
  = [Some 42%Z; Some (-7)%Z; Some 1000%Z; Some 7%Z; Some 31%Z; Some 5%Z;
     None; None; None; None; None; None; None; None].
Proof. vm_compute. reflexivity. Qed.

(** The size line of a download is printed for a size [int] reads and the
    division by 1024 does not overflow on. *)
Example in_megabytes_ex :
  PyInt.in_megabytes "5242880" = true
  /\ PyInt.in_megabytes "12 kB" = false
  /\ PyInt.overflows (2 ^ 1034 - 2 ^ 980 - 1) = false
  /\ PyInt.overflows (2 ^ 1034 - 2 ^ 980) = true.
Proof. vm_compute. auto. Qed.

(** ** Events *)

Lemma requests_app (a b : list event) :
  requests (a ++ b) = (requests a ++ requests b)%list.
Proof.
  induction a as [|e a IH]; simpl; [reflexivity|].
  destruct e; simpl; rewrite IH; reflexivity.
Qed.

Lemma sleeps_app (a b : list event) :
  sleeps (a ++ b) = (sleeps a ++ sleeps b)%list.
Proof.
  induction a as [|e a IH]; simpl; [reflexivity|].
  destruct e; simpl; rewrite IH; reflexivity.
Qed.

Lemma printed_app (a b : list event) :
  printed (a ++ b) = (printed a ++ printed b)%list.
Proof.
  induction a as [|e a IH]; simpl; [reflexivity|].
  destruct e; simpl; rewrite IH; reflexivity.
Qed.

Lemma transferred_app (a b : list event) :
  transferred (a ++ b) = (transferred a + transferred b)%N.
Proof.
  induction a as [|e a IH]; [reflexivity|].
  destruct e; cbn [transferred app]; rewrite ?IH; lia.
Qed.

Lemma failed_uploads_app (a b : list event) :
  failed_uploads (a ++ b) = (failed_uploads a + failed_uploads b)%N.
Proof.
  induction a as [|e a IH]; [reflexivity|].
  destruct e as [| |m|]; try destruct m; cbn [failed_uploads app];
    rewrite ?IH; lia.
Qed.

(** ** The monad *)

Section MonadFacts.
Context {W : Type}.

Lemma bind_run {A B} (c : M W A) (k : A -> M W B) (s : W) :
  bind c k s =
  (value (k (value (c s)) (state (c s))),
   state (k (value (c s)) (state (c s))),
   (events (c s) ++ events (k (value (c s)) (state (c s))))%list).
Proof.
  unfold bind, value, state, events.
  destruct (c s) as [[a s1] t1]; simpl.
  destruct (k a s1) as [[b s2] t2]; reflexivity.
Qed.

Lemma value_bind {A B} (c : M W A) (k : A -> M W B) (s : W) :
  value (bind c k s) = value (k (value (c s)) (state (c s))).
Proof. rewrite bind_run; reflexivity. Qed.

Lemma state_bind {A B} (c : M W A) (k : A -> M W B) (s : W) :
  state (bind c k s) = state (k (value (c s)) (state (c s))).
Proof. rewrite bind_run; reflexivity. Qed.

Lemma events_bind {A B} (c : M W A) (k : A -> M W B) (s : W) :
  events (bind c k s) =
  (events (c s) ++ events (k (value (c s)) (state (c s))))%list.
Proof. rewrite bind_run; reflexivity. Qed.

Lemma run_eta {A} (r : A * W * list event) :
  r = (value r, state r, events r).
Proof. destruct r as [[a s] t]; reflexivity. Qed.

End MonadFacts.

(** ** The metadata probe *)

Section Probe.
Context {W : Type} (session : Session W).

Lemma info_attempt_transient url max_retries attempt s :
    transient (fst (send session (propfind "0" url) s)) = true ->
    info_attempt session url max_retries attempt s =
    (None, snd (send session (propfind "0" url) s),
     Sent (propfind "0" url) (fst (send session (propfind "0" url) s))
       :: (if (attempt <? max_retries - 1)%nat then [Slept 1000] else [])).
Proof.
    unfold info_attempt, bind, request_, propfind, transient, has_status, when.
    destruct (send session _ s) as [rp s']; simpl.
    destruct rp as [r|]; simpl.
    - destruct (status_code r =? 207)%N; simpl; [discriminate|].
      destruct (status_code r =? 404)%N; simpl; [discriminate|].
      intros _. destruct (attempt <? max_retries - 1)%nat; reflexivity.
    - intros _. destruct (attempt <? max_retries - 1)%nat; reflexivity.
Qed.

Lemma info_attempt_decisive url max_retries attempt s :
    transient (fst (send session (propfind "0" url) s)) = false ->
    info_attempt session url max_retries attempt s =
    (Some (probe_result [fst (send session (propfind "0" url) s)]),
     snd (send session (propfind "0" url) s),
     [Sent (propfind "0" url) (fst (send session (propfind "0" url) s))]).
Proof.
    unfold info_attempt, bind, request_, propfind, probe_result, transient,
      has_status, info_of.
    destruct (send session _ s) as [rp s']; simpl.
    destruct rp as [r|]; simpl; [|discriminate].
    destruct (status_code r =? 207)%N eqn:E207; simpl;
      [intros _; rewrite ?E207; reflexivity|].
    destruct (status_code r =? 404)%N eqn:E404; simpl; [|discriminate].
    intros _; rewrite ?E207; reflexivity.
Qed.

Lemma probe_loop_value url max_retries n attempt s :
    value (for_range n attempt (info_attempt session url max_retries) (ret None) s)
    = probe_result (replies session (propfind "0" url) n s).
Proof.
    revert attempt s. induction n as [|n IH]; intros attempt s; [reflexivity|].
    cbn [for_range replies]. rewrite value_bind.
    destruct (transient (fst (send session (propfind "0" url) s))) eqn:T.
    - rewrite (info_attempt_transient _ _ _ _ T). cbn [value state fst snd].
      rewrite IH. destruct (send session _ s) as [rp s']. cbn [fst snd] in *.
      unfold probe_result. cbn [find]. rewrite T. reflexivity.
    - rewrite (info_attempt_decisive _ _ _ _ T). cbn [value state fst snd].
      destruct (send session _ s) as [rp s']. cbn [fst snd] in *.
      unfold probe_result. cbn [find]. rewrite T. reflexivity.
Qed.

  (** The probe returns what the first decisive reply says, and absent when
      there is none among the [max_retries] replies. *)
Lemma get_remote_file_info_value base_url remote_file max_retries s :
    value (get_remote_file_info session base_url remote_file max_retries s)
    = probe_result
        (replies session (propfind "0" (get_webdav_url base_url remote_file))
                 max_retries s).
Proof. unfold get_remote_file_info. apply probe_loop_value. Qed.

Lemma probe_loop_events url max_retries n attempt s :
  (attempt + n = max_retries)%nat ->
  events (for_range n attempt (info_attempt session url max_retries) (ret None) s)
  = backoff_trace (propfind "0" url) 1000
      (until_decisive (replies session (propfind "0" url) n s)).
Proof.
  revert attempt s. induction n as [|n IH]; intros attempt s Hn; [reflexivity|].
  cbn [for_range replies]. rewrite events_bind.
  destruct (transient (fst (send session (propfind "0" url) s))) eqn:T.
  - rewrite (info_attempt_transient _ _ _ _ T). cbn [value state events fst snd].
    rewrite IH by lia.
    destruct (send session _ s) as [rp s']. cbn [fst snd] in *.
    cbn [until_decisive]. rewrite T.
    destruct n as [|n].
    + replace (attempt <? max_retries - 1)%nat with false
        by (symmetry; apply Nat.ltb_ge; lia).
      reflexivity.
    + replace (attempt <? max_retries - 1)%nat with true
        by (symmetry; apply Nat.ltb_lt; lia).
      cbn [replies]. destruct (send session _ s') as [rp' s''].
      cbn [until_decisive]. destruct (transient rp'); reflexivity.
  - rewrite (info_attempt_decisive _ _ _ _ T). cbn [value state events fst snd].
    destruct (send session _ s) as [rp s']. cbn [fst snd] in *.
    cbn [until_decisive]. rewrite T. reflexivity.
Qed.

(** The events of the probe: its attempts, one second apart. *)
Lemma get_remote_file_info_events base_url remote_file max_retries s :
  events (get_remote_file_info session base_url remote_file max_retries s)
  = backoff_trace (propfind "0" (get_webdav_url base_url remote_file)) 1000
      (until_decisive
         (replies session (propfind "0" (get_webdav_url base_url remote_file))
                  max_retries s)).
Proof. unfold get_remote_file_info. apply probe_loop_events. lia. Qed.

(** The policy adds nothing to the run of the probe but its verdict. *)
Lemma should_upload_file_run base_url f remote_file s :
  should_upload_file session base_url f remote_file s =
  (match value (get_remote_file_info session base_url remote_file 3 s) with
   | None => (true, "new file")
   | Some info =>
       if size_differs (size info) (st_size f) then
         (true, "size changed (" ++ str_size (size info) ++ " -> "
                ++ Str.of_N (st_size f) ++ ")")
       else (false, "unchanged")
   end,
   state (get_remote_file_info session base_url remote_file 3 s),
   events (get_remote_file_info session base_url remote_file 3 s)).
Proof.
  unfold should_upload_file. rewrite bind_run.
  destruct (value (get_remote_file_info session base_url remote_file 3 s))
    as [info|]; [|unfold ret; cbn; rewrite app_nil_r; reflexivity].
  destruct (size_differs (size info) (st_size f));
    unfold ret; cbn; rewrite app_nil_r; reflexivity.
Qed.

End Probe.

(** ** The regular expressions *)

Lemma append_assoc (a b c : string) : (a ++ b) ++ c = a ++ b ++ c.
Proof. induction a as [|x a IH]; simpl; [reflexivity|now rewrite IH]. Qed.

Lemma strip_prefix_spec (p s r : string) :
  Str.strip_prefix p s = Some r <-> s = p ++ r.
Proof.
  revert s. induction p as [|c p IH]; intros s; cbn.
  - split; [now intros [= ->]|now intros ->].
  - destruct s as [|d s]; [split; discriminate|].
    destruct (Ascii.eqb_spec c d) as [->|Hne].
    + rewrite IH. split; [now intros ->|now intros [= ->]].
    + split; [discriminate|intros [= H _]; congruence].
Qed.

Lemma prefix_spec (p s : string) :
  String.prefix p s = true <-> exists r, s = p ++ r.
Proof.
  revert s. induction p as [|c p IH]; intros s.
  - split; [intros _; now exists s|intros _; destruct s; reflexivity].
  - destruct s as [|d s]; cbn [String.prefix append];
      [split; [discriminate|intros [r [=]]]|].
    destruct (ascii_dec c d) as [->|Hne].
    + rewrite IH. split; intros [r H]; exists r; [now rewrite H|now injection H].
    + split; [discriminate|intros [r [= H _]]; congruence].
Qed.

Lemma span_spec (f : ascii -> bool) (s g r : string) :
  Str.span f s = (g, r) ->
  s = g ++ r /\ all_chars f g = true
  /\ match r with String c _ => f c = false | EmptyString => True end.
Proof.
  revert g r. induction s as [|c s IH]; intros g r; cbn.
  - intros [= <- <-]. auto.
  - destruct (f c) eqn:Fc.
    + destruct (Str.span f s) as [a b]. intros [= <- <-].
      destruct (IH a b eq_refl) as [H1 [H2 H3]]. cbn. rewrite Fc, H2, <- H1. auto.
    + intros [= <- <-]. cbn. auto.
Qed.

Lemma span_run (f : ascii -> bool) (g : string) (c : ascii) (r : string) :
  all_chars f g = true -> f c = false ->
  Str.span f (g ++ String c r) = (g, String c r).
Proof.
  intros Hg Hc. induction g as [|d g IH]; cbn.
  - now rewrite Hc.
  - cbn in Hg. apply andb_true_iff in Hg. destruct Hg as [Hd Hg].
    rewrite Hd, (IH Hg). reflexivity.
Qed.

(** *** Decimal digits *)

Lemma continuations_split (k : nat) :
  forall acc s cp h t,
    Utf8.continuations k acc s = Some (cp, h, t) ->
    s = h ++ t
    /\ forall r, Utf8.continuations k acc (h ++ r) = Some (cp, h, r).
Proof.
  induction k as [|k IH]; intros acc s cp h t; cbn [Utf8.continuations].
  - intros [= <- <- <-]. split; reflexivity.
  - destruct s as [|b s]; [discriminate|].
    destruct (Utf8.continuation b) as [x|] eqn:Eb; [|discriminate].
    destruct (Utf8.continuations k (64 * acc + x) s) as [[[cp' h'] t']|] eqn:E;
      [|discriminate].
    intros [= <- <- <-]. destruct (IH _ _ _ _ _ E) as [-> Hr].
    split; [reflexivity|]. intros r. cbn [append Utf8.continuations].
    now rewrite Eb, Hr.
Qed.

Lemma decode_split (s : string) (cp : N) (h t : string) :
  Utf8.decode s = Some (cp, h, t) ->
  s = h ++ t /\ h <> EmptyString
  /\ forall r, Utf8.decode (h ++ r) = Some (cp, h, r).
Proof.
  unfold Utf8.decode. destruct s as [|a s]; [discriminate|].
  destruct (Utf8.lead a) as [[[k v] least]|] eqn:El; [|discriminate].
  destruct (Utf8.continuations k v s) as [[[cp' h'] t']|] eqn:E; [|discriminate].
  destruct (_ && _) eqn:Ec; [|discriminate].
  intros [= <- <- <-]. destruct (continuations_split _ _ _ _ _ _ E) as [-> Hr].
  split; [reflexivity|]. split; [discriminate|].
  intros r. cbn [append]. now rewrite El, Hr, Ec.
Qed.

Lemma decimal_at_split (s : string) (d : N) (h t : string) :
  Re.decimal_at s = Some (d, h, t) ->
  s = h ++ t /\ h <> EmptyString
  /\ forall r, Re.decimal_at (h ++ r) = Some (d, h, r).
Proof.
  unfold Re.decimal_at.
  destruct (Utf8.decode s) as [[[cp h'] t']|] eqn:E; [|discriminate].
  destruct (Unicode.decimal cp) as [d'|] eqn:Ed; [|discriminate].
  intros [= <- <- <-]. destruct (decode_split _ _ _ _ E) as [H1 [H2 H3]].
  split; [exact H1|]. split; [exact H2|]. intros r. now rewrite H3, Ed.
Qed.

Lemma string_length_append (a b : string) :
  String.length (a ++ b) = (String.length a + String.length b)%nat.
Proof. induction a as [|c a IH]; cbn; [reflexivity|now rewrite IH]. Qed.

Lemma all_decimals_fuel_more (n : nat) :
  forall m s, all_decimals_fuel n s = true -> (n <= m)%nat ->
              all_decimals_fuel m s = true.
Proof.
  induction n as [|n IH]; intros m s H Hle.
  - destruct s; [destruct m; reflexivity|discriminate].
  - destruct s as [|c s]; [destruct m; reflexivity|].
    destruct m as [|m]; [lia|]. cbn [all_decimals_fuel] in *.
    destruct (Re.decimal_at (String c s)) as [[[d h] t]|]; [|discriminate].
    apply IH; [exact H|lia].
Qed.

Lemma all_decimals_step (d : N) (h t : string) :
  Re.decimal_at (h ++ t) = Some (d, h, t) -> h <> EmptyString ->
  all_decimals t = true -> all_decimals (h ++ t) = true.
Proof.
  intros E Hh Ht. unfold all_decimals in *. rewrite string_length_append.
  destruct h as [|c h]; [contradiction|]. cbn [String.length plus append] in *.
  cbn [all_decimals_fuel]. rewrite E.
  apply (all_decimals_fuel_more _ _ _ Ht). lia.
Qed.

Lemma decimals_fuel_spec (fuel : nat) :
  forall s g r, Re.decimals_fuel fuel s = (g, r) ->
                s = g ++ r /\ all_decimals g = true.
Proof.
  induction fuel as [|fuel IH]; intros s g r; cbn [Re.decimals_fuel].
  - intros [= <- <-]. split; reflexivity.
  - destruct (Re.decimal_at s) as [[[d h] t]|] eqn:E.
    + destruct (Re.decimals_fuel fuel t) as [g' r'] eqn:Eg. intros [= <- <-].
      destruct (IH _ _ _ Eg) as [-> Hg].
      destruct (decimal_at_split _ _ _ _ E) as [-> [Hh Hr]].
      split; [now rewrite append_assoc|].
      apply (all_decimals_step d); [apply Hr|exact Hh|exact Hg].
    + intros [= <- <-]. split; reflexivity.
Qed.

Lemma decimals_spec (s g r : string) :
  Re.decimals s = (g, r) -> s = g ++ r /\ all_decimals g = true.
Proof. apply decimals_fuel_spec. Qed.

Lemma decimals_fuel_run (c : ascii) (r : string) (n : nat) :
  Re.decimal_at (String c r) = None ->
  forall g fuel,
    all_decimals_fuel n g = true -> (String.length g <= fuel)%nat ->
    Re.decimals_fuel fuel (g ++ String c r) = (g, String c r).
Proof.
  intros Hc. induction n as [|n IH]; intros g fuel Hg Hf.
  - destruct g; [|discriminate]. cbn [append].
    destruct fuel; cbn [Re.decimals_fuel]; [reflexivity|now rewrite Hc].
  - destruct g as [|x g].
    + cbn [append]. destruct fuel; cbn [Re.decimals_fuel];
        [reflexivity|now rewrite Hc].
    + cbn [all_decimals_fuel] in Hg.
      destruct (Re.decimal_at (String x g)) as [[[d h] t]|] eqn:E;
        [|discriminate].
      destruct (decimal_at_split _ _ _ _ E) as [Hs [Hh Hr]].
      rewrite Hs in Hf |- *. rewrite string_length_append in Hf.
      destruct h as [|y h]; [contradiction|]. cbn [String.length plus] in Hf.
      destruct fuel as [|fuel]; [lia|].
      rewrite append_assoc. cbn [Re.decimals_fuel]. rewrite Hr.
      rewrite (IH t fuel Hg) by lia. reflexivity.
Qed.

Lemma decimals_run (g : string) (c : ascii) (r : string) :
  all_decimals g = true -> Re.decimal_at (String c r) = None ->
  Re.decimals (g ++ String c r) = (g, String c r).
Proof.
  intros Hg Hc. unfold Re.decimals.
  apply (decimals_fuel_run c r (String.length g) Hc); [exact Hg|].
  rewrite string_length_append. lia.
Qed.

Lemma no_decimal_at_lt (r : string) : Re.decimal_at (String "<" r) = None.
Proof. reflexivity. Qed.

Section Search.
Variables (open : string) (run : string -> string * string)
  (good : string -> bool) (c0 : ascii) (close' : string).
Hypothesis run_spec :
  forall s g r, run s = (g, r) -> s = g ++ r /\ good g = true.
Hypothesis run_run :
  forall g r, good g = true -> run (g ++ String c0 r) = (g, String c0 r).

Lemma match_here_sound (s g : string) :
  Re.match_here open run (String c0 close') s = Some g ->
  exists rest,
    g <> EmptyString /\ good g = true
    /\ s = open ++ g ++ String c0 close' ++ rest.
Proof.
  unfold Re.match_here. intros E.
  destruct (Str.strip_prefix open s) as [r|] eqn:Es; [|discriminate].
  destruct (run r) as [a b] eqn:Esp.
  destruct a as [|x a]; [discriminate|].
  destruct (String.prefix (String c0 close') b) eqn:Ep; [|discriminate].
  injection E as <-. apply strip_prefix_spec in Es.
  apply run_spec in Esp. destruct Esp as [H1 H2].
  apply prefix_spec in Ep. destruct Ep as [rest Hb].
  exists rest. split; [discriminate|split; [exact H2|]].
  subst s r b. reflexivity.
Qed.

(** What [search] finds is an occurrence of the pattern. *)
Lemma search_sound (s g : string) :
  Re.search open run (String c0 close') s = Some g ->
  exists before rest,
    g <> EmptyString /\ good g = true
    /\ s = before ++ open ++ g ++ String c0 close' ++ rest.
Proof.
  induction s as [|c s IH]; cbn [Re.search];
    destruct (Re.match_here open run (String c0 close') _) as [g'|] eqn:E;
    try discriminate.
  - intros [= ->]. destruct (match_here_sound _ _ E) as [rest H].
    now exists "", rest.
  - intros [= ->]. destruct (match_here_sound _ _ E) as [rest H].
    now exists "", rest.
  - intros H. destruct (IH H) as [before [rest [H1 [H2 H3]]]].
    exists (String c before), rest. split; [exact H1|split; [exact H2|]].
    cbn [append]. now rewrite H3.
Qed.

(** Where the pattern occurs, [search] finds something. *)
Lemma search_complete (before g rest : string) :
  g <> EmptyString -> good g = true ->
  Re.search open run (String c0 close')
    (before ++ open ++ g ++ String c0 close' ++ rest) <> None.
Proof.
  intros Hg Hall.
  assert (Here : Re.match_here open run (String c0 close')
                   (open ++ g ++ String c0 close' ++ rest) = Some g).
  { unfold Re.match_here.
    rewrite (proj2 (strip_prefix_spec open _ (g ++ String c0 close' ++ rest))
               eq_refl).
    cbn [append].
    rewrite (run_run g (close' ++ rest) Hall).
    destruct g as [|x g]; [contradiction|].
    replace (String c0 (close' ++ rest)) with (String c0 close' ++ rest)
      by reflexivity.
    now rewrite (proj2 (prefix_spec (String c0 close') (String c0 close' ++ rest))
                   (ex_intro _ rest eq_refl)). }
  set (found := open ++ g ++ String c0 close' ++ rest) in *.
  induction before as [|c before IH].
  - cbn [append]. destruct found; cbn [Re.search]; rewrite Here; congruence.
  - cbn [append Re.search].
    destruct (Re.match_here open run (String c0 close') (String c _));
      [congruence|exact IH].
Qed.

End Search.

(** The probe reads no size exactly when the body holds no content-length
    element made of decimal digits. *)
Lemma getcontentlength_none_iff (content : string) :
  Re.getcontentlength content = None <-> ~ has_content_length content.
Proof.
  unfold Re.getcontentlength, has_content_length. split.
  - intros H [before [digits [rest [H1 [H2 H3]]]]]. subst content.
    revert H.
    apply (search_complete _ Re.decimals all_decimals "<" _
             (fun g r Hg => decimals_run g "<" r Hg (no_decimal_at_lt r)));
      assumption.
  - intros H.
    destruct (Re.search _ _ _ content) as [g|] eqn:E; [|reflexivity].
    exfalso. apply H.
    apply (search_sound _ Re.decimals all_decimals "<" _ decimals_spec) in E.
    destruct E as [before [rest [H1 [H2 H3]]]]. now exists before, g, rest.
Qed.

(** ** The change-detection policy *)

Lemma occurs_in_intro (a x b : string) : occurs_in x (a ++ x ++ b).
Proof. exists a, b. reflexivity. Qed.

(** C2. When the metadata probe yields absent, [should_upload_file] decides to
    upload, with reason "new file". *)
Theorem should_upload_new_file {W} (session : Session W)
    (base_url : string) (f : local_file) (remote_file : string) (s : W) :
  value (get_remote_file_info session base_url remote_file 3 s) = None ->
  value (should_upload_file session base_url f remote_file s) = (true, "new file").
Proof.
  intros H. rewrite should_upload_file_run. cbn [value fst]. rewrite H. reflexivity.
Qed.

Lemma should_upload_new_file_witness :
  value (get_remote_file_info (constant (status 404)) "https://webdav.pcloud.com"
           "/thetawave/media/x.png" 3 tt) = None
  /\ value (should_upload_file (constant (status 404)) "https://webdav.pcloud.com"
              (LocalFile "x.png" "PNG") "/thetawave/media/x.png" tt)
     = (true, "new file").
Proof.
  split; [reflexivity|].
  apply (should_upload_new_file (constant (status 404))). reflexivity.
Defined.

(** C3. When the probed remote size equals the local size, [should_upload_file]
    decides not to upload, with reason "unchanged"; the whole run depends on
    the local file through its size only, so no content, hash or date is
    looked at. *)
Theorem should_upload_unchanged {W} (session : Session W)
    (base_url : string) (f : local_file) (remote_file : string) (s : W)
    (info : remote_info) :
  value (get_remote_file_info session base_url remote_file 3 s) = Some info ->
  size info = Some (st_size f) ->
  value (should_upload_file session base_url f remote_file s) = (false, "unchanged")
  /\ forall g : local_file, st_size g = st_size f ->
       should_upload_file session base_url g remote_file s
       = should_upload_file session base_url f remote_file s.
Proof.
  intros Hinfo Hsize. split.
  - rewrite should_upload_file_run. cbn [value fst]. rewrite Hinfo, Hsize.
    cbn [size_differs]. rewrite N.eqb_refl. reflexivity.
  - intros g Hg. rewrite !should_upload_file_run, Hg. reflexivity.
Qed.

Lemma should_upload_unchanged_witness :
  let session :=
    constant (multistatus "<lp1:getcontentlength>3</lp1:getcontentlength>") in
  value (should_upload_file session "https://webdav.pcloud.com"
           (LocalFile "y.txt" "abc") "/thetawave/data/y.txt" tt)
  = (false, "unchanged")
  /\ should_upload_file session "https://webdav.pcloud.com"
       (LocalFile "y.txt" "xyz") "/thetawave/data/y.txt" tt
     = should_upload_file session "https://webdav.pcloud.com"
         (LocalFile "y.txt" "abc") "/thetawave/data/y.txt" tt.
Proof.
  intros session.
  destruct (should_upload_unchanged session "https://webdav.pcloud.com"
              (LocalFile "y.txt" "abc") "/thetawave/data/y.txt" tt
              (RemoteInfo (Some 3%N) None) eq_refl eq_refl) as [H1 H2].
  split; [exact H1|]. apply H2. reflexivity.
Defined.

(** C4. When the remote file exists with a probed size that differs from the
    local size, [should_upload_file] decides to upload, and the reason shows
    the remote size and the local size. *)
Theorem should_upload_size_changed {W} (session : Session W)
    (base_url : string) (f : local_file) (remote_file : string) (s : W)
    (info : remote_info) (remote_size : N) :
  value (get_remote_file_info session base_url remote_file 3 s) = Some info ->
  size info = Some remote_size ->
  remote_size <> st_size f ->
  exists reason,
    value (should_upload_file session base_url f remote_file s) = (true, reason)
    /\ reason = "size changed (" ++ Str.of_N remote_size ++ " -> "
                ++ Str.of_N (st_size f) ++ ")"
    /\ occurs_in (Str.of_N remote_size) reason
    /\ occurs_in (Str.of_N (st_size f)) reason.
Proof.
  intros Hinfo Hsize Hne. eexists. split; [|split; [reflexivity|split]].
  - rewrite should_upload_file_run. cbn [value fst]. rewrite Hinfo, Hsize.
    cbn [size_differs str_size].
    apply N.eqb_neq in Hne. rewrite Hne. reflexivity.
  - apply occurs_in_intro.
  - exists ("size changed (" ++ Str.of_N remote_size ++ " -> "), ")".
    rewrite !append_assoc. reflexivity.
Qed.

Lemma should_upload_size_changed_witness :
  exists reason,
    value (should_upload_file
             (constant (multistatus "<lp1:getcontentlength>120</lp1:getcontentlength>"))
             "https://webdav.pcloud.com" (LocalFile "y.txt" "abc")
             "/thetawave/data/y.txt" tt) = (true, reason)
    /\ reason = "size changed (120 -> 3)"
    /\ occurs_in "120" reason
    /\ occurs_in "3" reason.
Proof.
  apply (should_upload_size_changed
           (constant (multistatus "<lp1:getcontentlength>120</lp1:getcontentlength>"))
           "https://webdav.pcloud.com" (LocalFile "y.txt" "abc")
           "/thetawave/data/y.txt" tt (RemoteInfo (Some 120%N) None) 120%N).
  - reflexivity.
  - reflexivity.
  - discriminate.
Defined.

(** C10. When the probe gets a multi-status reply whose body holds no
    content-length the regular expression can read -- no
    [<lp1:getcontentlength>] element made of one decimal digit or more, of
    any script, since [\d] on a [str] matches them all -- it returns a record
    with no size, and [should_upload_file] decides to upload, the reason
    showing [None] as the old size: the verdict is never "unchanged". *)
Theorem should_upload_unparsed_size {W} (session : Session W)
    (base_url : string) (f : local_file) (remote_file : string) (s : W)
    (resp : response) :
  find (fun rp => negb (transient rp))
       (replies session (propfind "0" (get_webdav_url base_url remote_file)) 3 s)
  = Some (Answer resp) ->
  status_code resp = 207%N ->
  ~ has_content_length (text resp) ->
  value (get_remote_file_info session base_url remote_file 3 s)
  = Some (RemoteInfo None (Re.getlastmodified (text resp)))
  /\ value (should_upload_file session base_url f remote_file s)
     = (true, "size changed (None -> " ++ Str.of_N (st_size f) ++ ")").
Proof.
  intros Hfind Hstatus Hnone. apply getcontentlength_none_iff in Hnone.
  assert (Hv : value (get_remote_file_info session base_url remote_file 3 s)
               = Some (RemoteInfo None (Re.getlastmodified (text resp)))).
  { rewrite get_remote_file_info_value. unfold probe_result. rewrite Hfind.
    rewrite Hstatus. cbn [N.eqb Pos.eqb]. unfold info_of. rewrite Hnone.
    reflexivity. }
  split; [exact Hv|].
  rewrite should_upload_file_run. cbn [value fst]. rewrite Hv. reflexivity.
Qed.

Lemma should_upload_unparsed_size_witness :
  value (should_upload_file scripted "https://webdav.pcloud.com"
           (LocalFile "y.txt" "abc") "/thetawave/data/y.txt"
           [Raises; multistatus "<D:multistatus><D:response/></D:multistatus>"])
  = (true, "size changed (None -> 3)").
Proof.
  apply (should_upload_unparsed_size scripted "https://webdav.pcloud.com"
           (LocalFile "y.txt" "abc") "/thetawave/data/y.txt"
           [Raises; multistatus "<D:multistatus><D:response/></D:multistatus>"]
           (Response 207 None "<D:multistatus><D:response/></D:multistatus>"));
    [reflexivity|reflexivity|].
  apply getcontentlength_none_iff. reflexivity.
Defined.

(** A size written in Arabic-Indic digits is a size: [\d] matches it and
    [int] reads it, so a local file of that many bytes is unchanged. *)
Example should_upload_arabic_indic_size :
  let three := String "217"%char (String "163"%char "") in
  let body := "<lp1:getcontentlength>" ++ three ++ "</lp1:getcontentlength>" in
  Utf8.code_points three = Some [1635%N]
  /\ Re.getcontentlength body = Some three
  /\ has_content_length body
  /\ value (should_upload_file (constant (multistatus body))
              "https://webdav.pcloud.com" (LocalFile "y.txt" "abc")
              "/thetawave/data/y.txt" tt)
     = (false, "unchanged").
Proof.
  split; [reflexivity|split; [reflexivity|split; [|reflexivity]]].
  exists "", (String "217"%char (String "163"%char "")), "".
  split; [discriminate|split; reflexivity].
Qed.



(** ** Retry loops *)

Section Retry.
Context {W : Type} (session : Session W).

Lemma replies_length (rq : request) (n : nat) (s : W) :
  length (replies session rq n s) = n.
Proof.
  revert s. induction n as [|n IH]; intros s; [reflexivity|].
  cbn [replies]. destruct (send session rq s) as [rp s']. cbn [length].
  now rewrite IH.
Qed.

(** A loop whose every attempt is turned down runs to its end: [n] requests,
    then the code after the loop. *)
Lemma for_range_exhausted {A} (body : nat -> M W (option A)) (orelse : M W A)
    (rq : request) (rejected : reply -> bool) :
  (forall attempt s, rejected (fst (send session rq s)) = true ->
     value (body attempt s) = None
     /\ state (body attempt s) = snd (send session rq s)
     /\ requests (events (body attempt s)) = [rq]) ->
  forall n attempt s,
    forallb rejected (replies session rq n s) = true ->
    value (for_range n attempt body orelse s)
    = value (orelse (after session rq n s))
    /\ state (for_range n attempt body orelse s)
       = state (orelse (after session rq n s))
    /\ requests (events (for_range n attempt body orelse s))
       = (repeat rq n ++ requests (events (orelse (after session rq n s))))%list.
Proof.
  intros Hbody n. induction n as [|n IH]; intros attempt s Hall.
  - cbn. auto.
  - cbn [replies] in Hall. cbn [for_range after repeat].
    specialize (Hbody attempt s).
    destruct (send session rq s) as [rp s'] eqn:Esend. cbn [fst snd] in *.
    cbn [forallb] in Hall. apply andb_true_iff in Hall. destruct Hall as [Hrp Hall].
    destruct (Hbody Hrp) as [Hv [Hs Hr]].
    rewrite value_bind, state_bind, events_bind, Hv, Hs, requests_app, Hr.
    destruct (IH (S attempt) s' Hall) as [IHv [IHs IHr]].
    rewrite IHv, IHs, IHr. auto.
Qed.

(** Whatever the server does, a loop of [n] rounds sends at most [n]
    requests, and exactly [n] unless an attempt returned. *)
Lemma for_range_at_most {A} (body : nat -> M W (option A)) (orelse : M W A)
    (rq : request) (P : A -> Prop) :
  (forall attempt s, requests (events (body attempt s)) = [rq]) ->
  (forall s, requests (events (orelse s)) = []) ->
  (forall attempt s v, value (body attempt s) = Some v -> P v) ->
  forall n attempt s,
    exists k, (k <= n)%nat
      /\ requests (events (for_range n attempt body orelse s)) = repeat rq k
      /\ (k = n \/ P (value (for_range n attempt body orelse s))).
Proof.
  intros Hbody Horelse HP n. induction n as [|n IH]; intros attempt s.
  - exists 0%nat. cbn [for_range repeat]. rewrite Horelse. auto.
  - cbn [for_range]. rewrite value_bind, events_bind, requests_app, Hbody.
    destruct (value (body attempt s)) as [v|] eqn:Ev.
    + exists 1%nat. split; [lia|]. split; [reflexivity|].
      right. eapply HP. exact Ev.
    + destruct (IH (S attempt) (state (body attempt s))) as [k [Hk [Hr Hc]]].
      exists (S k). split; [lia|]. rewrite Hr. split; [reflexivity|].
      destruct Hc as [->|Hc]; auto.
Qed.

End Retry.

Section Primitives.
Context {W : Type} (disk : disk_op -> W -> bool * W) (session : Session W).

Lemma retry_in_2_seconds_run (attempt max_retries : nat) (s : W) :
  state (retry_in_2_seconds attempt max_retries s) = s
  /\ requests (events (retry_in_2_seconds attempt max_retries s)) = [].
Proof.
  unfold retry_in_2_seconds, when.
  destruct (attempt <? max_retries - 1)%nat; cbn; auto.
Qed.

Ltac run_body :=
  repeat first
    [ progress cbn [value state events fst snd requests app]
    | rewrite value_bind | rewrite state_bind | rewrite events_bind
    | rewrite requests_app
    | rewrite (proj1 (retry_in_2_seconds_run _ _ _))
    | rewrite (proj2 (retry_in_2_seconds_run _ _ _)) ].

Lemma request_run (rq : request) (s : W) :
  request_ session rq s
  = (fst (send session rq s), snd (send session rq s),
     [Sent rq (fst (send session rq s))]).
Proof. unfold request_. destruct (send session rq s); reflexivity. Qed.

(** *** The lister *)

Lemma list_block_requests remote_path block acc (s : W) :
  requests (events (list_block remote_path block acc s)) = [].
Proof.
  unfold list_block. destruct acc as [files directories].
  destruct (Re.href block) as [href|]; [|reflexivity].
  destruct (_ || _); [reflexivity|].
  destruct (Str.contains block "<D:collection/>").
  - destruct (last _ _); reflexivity.
  - destruct (last _ _) as [|c r]; [reflexivity|].
    destruct (negb _); reflexivity.
Qed.

Lemma list_blocks_requests remote_path blocks acc (s : W) :
  requests (events (for_each (list_block remote_path) blocks acc s)) = [].
Proof.
  revert acc s. induction blocks as [|b blocks IH]; intros acc s; [reflexivity|].
  cbn [for_each]. rewrite events_bind, requests_app, list_block_requests, IH.
  reflexivity.
Qed.

Lemma list_attempt_requests url remote_path max_retries attempt (s : W) :
  requests (events (list_attempt session url remote_path max_retries attempt s))
  = [propfind "1" url].
Proof.
  unfold list_attempt. rewrite events_bind, requests_app, request_run.
  cbn [value state events fst snd requests app].
  destruct (fst (send session _ s)) as [r|].
  - destruct (status_code r =? 207)%N.
    + rewrite events_bind, requests_app, list_blocks_requests. reflexivity.
    + run_body. reflexivity.
  - run_body. reflexivity.
Qed.

Lemma list_attempt_rejected url remote_path max_retries attempt (s : W) :
  negb (has_status 207 (fst (send session (propfind "1" url) s))) = true ->
  value (list_attempt session url remote_path max_retries attempt s) = None
  /\ state (list_attempt session url remote_path max_retries attempt s)
     = snd (send session (propfind "1" url) s)
  /\ requests (events (list_attempt session url remote_path max_retries attempt s))
     = [propfind "1" url].
Proof.
  intros H. split; [|split; [|apply list_attempt_requests]];
    unfold list_attempt; run_body; rewrite request_run; run_body;
    unfold propfind in H;
    destruct (fst (send session _ s)) as [r|]; cbn [has_status] in H;
    try (destruct (status_code r =? 207)%N; [discriminate|]);
    run_body; reflexivity.
Qed.

(** *** Download *)

Lemma download_failed_run remote_file c max_retries attempt (s : W) :
  value (download_failed remote_file c max_retries attempt s) = None
  /\ state (download_failed remote_file c max_retries attempt s) = s
  /\ requests (events (download_failed remote_file c max_retries attempt s)) = [].
Proof. unfold download_failed. run_body. auto. Qed.

Lemma disk_do_run (op : disk_op) (s : W) :
  disk_do disk op s = (fst (disk op s), snd (disk op s), [Wrote op (fst (disk op s))]).
Proof. unfold disk_do. destruct (disk op s); reflexivity. Qed.

Lemma write_content_run remote_file local_file content max_retries attempt (s : W) :
  requests (events (write_content disk remote_file local_file content
                      max_retries attempt s)) = []
  /\ (forall v, value (write_content disk remote_file local_file content
                         max_retries attempt s) = Some v -> v = true).
Proof.
  unfold write_content. run_body. rewrite disk_do_run. run_body.
  destruct (fst (disk _ s)).
  - split; [reflexivity|]. cbn. congruence.
  - destruct (download_failed_run remote_file Exception max_retries attempt
                (snd (disk (WriteFile local_file content) s))) as [Fv [_ Fr]].
    rewrite Fr, Fv. split; [reflexivity|discriminate].
Qed.

Lemma download_attempt_requests url remote_file local_file max_retries attempt (s : W) :
  requests (events (download_attempt disk session url remote_file local_file
                      max_retries attempt s)) = [get url]
  /\ (forall v, value (download_attempt disk session url remote_file local_file
                         max_retries attempt s) = Some v -> v = true).
Proof.
  unfold download_attempt. run_body. rewrite request_run. run_body.
  pose proof (fun c s =>
    proj1 (download_failed_run remote_file c max_retries attempt s)) as Fv.
  pose proof (fun c s =>
    proj2 (proj2 (download_failed_run remote_file c max_retries attempt s))) as Fr.
  pose proof (fun c s =>
    proj1 (write_content_run remote_file local_file c max_retries attempt s)) as Wr.
  pose proof (fun c s =>
    proj2 (write_content_run remote_file local_file c max_retries attempt s)) as Wv.
  destruct (fst (send session _ s)) as [r|].
  - destruct (status_code r =? 200)%N.
    + run_body. rewrite disk_do_run. run_body.
      destruct (fst (disk (Mkdir _) _)).
      * destruct (content_length r) as [[|c fs]|].
        -- rewrite Wr. split; [reflexivity|apply Wv].
        -- destruct (PyInt.in_megabytes _).
           ++ run_body. rewrite Wr. split; [reflexivity|apply Wv].
           ++ rewrite Fr, Fv. split; [reflexivity|discriminate].
        -- rewrite Wr. split; [reflexivity|apply Wv].
      * rewrite Fr, Fv. split; [reflexivity|discriminate].
    + rewrite Fr, Fv. split; [reflexivity|discriminate].
  - rewrite Fr, Fv. split; [reflexivity|discriminate].
Qed.

Lemma download_attempt_rejected url remote_file local_file max_retries attempt (s : W) :
  negb (has_status 200 (fst (send session (get url) s))) = true ->
  value (download_attempt disk session url remote_file local_file
           max_retries attempt s) = None
  /\ state (download_attempt disk session url remote_file local_file
              max_retries attempt s) = snd (send session (get url) s)
  /\ requests (events (download_attempt disk session url remote_file local_file
                         max_retries attempt s)) = [get url].
Proof.
  intros H. split; [|split; [|apply download_attempt_requests]];
    unfold download_attempt; run_body; rewrite request_run; run_body;
    unfold get in H;
    destruct (fst (send session _ s)) as [r|]; cbn [has_status] in H;
    try (destruct (status_code r =? 200)%N; [discriminate|]);
    apply download_failed_run.
Qed.

(** *** Upload *)

Lemma upload_failed_run name c max_retries attempt (s : W) :
  value (upload_failed name c max_retries attempt s) = None
  /\ state (upload_failed name c max_retries attempt s) = s
  /\ requests (events (upload_failed name c max_retries attempt s)) = [].
Proof. unfold upload_failed. run_body. auto. Qed.

Lemma upload_attempt_requests url f max_retries attempt (s : W) :
  requests (events (upload_attempt session url f max_retries attempt s))
  = (if opens f attempt then [put url (content f)] else [])
  /\ (forall v, value (upload_attempt session url f max_retries attempt s) = Some v
                -> v = true).
Proof.
  unfold upload_attempt.
  pose proof (fun c s => upload_failed_run (name f) c max_retries attempt s) as F.
  destruct (opens f attempt).
  - run_body. rewrite request_run. run_body.
    destruct (fst (send session _ s)) as [r|].
    + destruct (_ || _).
      * split; [reflexivity|]. cbn. congruence.
      * destruct (F (Status (status_code r)) (snd (send session (put url (content f)) s)))
          as [Fv [_ Fr]].
        rewrite Fv, Fr. split; [reflexivity|discriminate].
    + destruct (F Exception (snd (send session (put url (content f)) s)))
        as [Fv [_ Fr]].
      rewrite Fv, Fr. split; [reflexivity|discriminate].
  - destruct (F Exception s) as [Fv [_ Fr]].
    rewrite Fv, Fr. split; [reflexivity|discriminate].
Qed.

Lemma upload_attempt_rejected url f max_retries attempt (s : W) :
  opens f attempt = true ->
  negb (stored (fst (send session (put url (content f)) s))) = true ->
  value (upload_attempt session url f max_retries attempt s) = None
  /\ state (upload_attempt session url f max_retries attempt s)
     = snd (send session (put url (content f)) s)
  /\ requests (events (upload_attempt session url f max_retries attempt s))
     = [put url (content f)].
Proof.
  intros Ho H.
  pose proof (upload_attempt_requests url f max_retries attempt s) as [Hr _].
  rewrite Ho in Hr. split; [|split; [|exact Hr]];
    unfold upload_attempt; rewrite Ho; run_body; rewrite request_run; run_body;
    unfold put in H;
    destruct (fst (send session _ s)) as [r|]; cbn [stored] in H;
    try (destruct (_ || _); [discriminate|]);
    apply upload_failed_run.
Qed.

Lemma upload_failed_quiet name c max_retries attempt (s : W) :
  transferred (events (upload_failed name c max_retries attempt s)) = 0%N
  /\ failed_uploads (events (upload_failed name c max_retries attempt s)) = 0%N.
Proof.
  unfold upload_failed, retry_in_2_seconds, when.
  destruct (attempt <? max_retries - 1)%nat; cbn; auto.
Qed.

(** The three ways an attempt of an upload goes: the [PUT] is accepted, the
    [PUT] is turned down, the file does not open. *)
Lemma upload_attempt_cases url f max_retries attempt (s : W) :
  let rq := put url (content f) in
  let rp := fst (send session rq s) in
  (opens f attempt = true /\ stored rp = true
   /\ upload_attempt session url f max_retries attempt s
      = (Some true, snd (send session rq s), [Sent rq rp]))
  \/ (opens f attempt = true /\ stored rp = false
      /\ exists c,
           upload_attempt session url f max_retries attempt s
           = (None, snd (send session rq s),
              Sent rq rp
              :: events (upload_failed (name f) c max_retries attempt
                           (snd (send session rq s)))))
  \/ (opens f attempt = false
      /\ upload_attempt session url f max_retries attempt s
         = upload_failed (name f) Exception max_retries attempt s).
Proof.
  intros rq rp. subst rq rp. unfold upload_attempt.
  destruct (opens f attempt); [|right; right; auto].
  rewrite bind_run, request_run. cbn [value state events fst snd app].
  destruct (fst (send session _ s)) as [r|]; cbn [stored].
  - destruct (_ || _).
    + left. auto.
    + right. left. split; [reflexivity|]. split; [reflexivity|].
      exists (Status (status_code r)).
      destruct (upload_failed_run (name f) (Status (status_code r)) max_retries
                  attempt (snd (send session (put url (content f)) s)))
        as [Fv [Fs _]].
      now rewrite Fv, Fs.
  - right. left. split; [reflexivity|]. split; [reflexivity|].
    exists Exception.
    destruct (upload_failed_run (name f) Exception max_retries
                attempt (snd (send session (put url (content f)) s)))
      as [Fv [Fs _]].
    now rewrite Fv, Fs.
Qed.

Lemma upload_attempt_unopened url f max_retries attempt (s : W) :
  opens f attempt = false ->
  value (upload_attempt session url f max_retries attempt s) = None
  /\ state (upload_attempt session url f max_retries attempt s) = s
  /\ requests (events (upload_attempt session url f max_retries attempt s)) = [].
Proof.
  intros Ho. unfold upload_attempt. rewrite Ho. apply upload_failed_run.
Qed.

Lemma create_remote_directory_requests base_url remote_file (s : W) :
  filter is_put (requests (events (create_remote_directory session base_url
                                     remote_file s))) = [].
Proof.
  unfold create_remote_directory.
  destruct (Str.join _ _); [reflexivity|].
  run_body. rewrite request_run. reflexivity.
Qed.

Lemma filter_repeat_put url data n :
  filter is_put (repeat (put url data) n) = repeat (put url data) n.
Proof. induction n as [|n IH]; cbn; [reflexivity|now rewrite IH]. Qed.

End Primitives.

(** C6. When every one of the [max_retries] listing attempts (3 in the script)
    gets another status than multi-status, or an exception, the lister
    returns the pair of two empty lists: the very value it returns for a
    multi-status reply that lists nothing. *)
Theorem list_webdav_directory_exhausted {W} (session : Session W)
    (base_url remote_path : string) (max_retries : nat) (s : W) :
  let rq := propfind "1" (get_webdav_url base_url remote_path) in
  forallb (fun rp => negb (has_status 207 rp))
          (replies session rq max_retries s) = true ->
  value (list_webdav_directory session base_url remote_path max_retries s)
  = ([], [])
  /\ forall (s0 : unit),
       value (list_webdav_directory (constant (multistatus "")) base_url
                remote_path 3 s0)
       = value (list_webdav_directory session base_url remote_path max_retries s).
Proof.
  intros rq Hall.
  assert (H : value (list_webdav_directory session base_url remote_path
                       max_retries s) = ([], [])).
  { unfold list_webdav_directory.
    destruct (for_range_exhausted session
                (list_attempt session (get_webdav_url base_url remote_path)
                   remote_path max_retries)
                (print (Failed_to_list remote_path max_retries) ;; ret ([], []))
                rq (fun rp => negb (has_status 207 rp))
                (list_attempt_rejected session _ remote_path max_retries)
                max_retries 0%nat s Hall) as [Hv _].
    rewrite Hv. reflexivity. }
  split; [exact H|]. intros s0. rewrite H. reflexivity.
Qed.

Lemma list_webdav_directory_exhausted_witness :
  value (list_webdav_directory scripted "https://webdav.pcloud.com"
           "/thetawave/data" 3 [status 500; Raises; status 404; multistatus ""])
  = ([], []).
Proof.
  apply (list_webdav_directory_exhausted scripted "https://webdav.pcloud.com"
           "/thetawave/data" 3 [status 500; Raises; status 404; multistatus ""]).
  reflexivity.
Defined.

(** ** Counting the attempts *)

Lemma failed_attempts_app (a b : list event) :
  failed_attempts (a ++ b) = (failed_attempts a + failed_attempts b)%nat.
Proof.
  induction a as [|e a IH]; [reflexivity|].
  destruct e as [| |m|]; try destruct m; cbn [failed_attempts app];
    rewrite ?IH; reflexivity.
Qed.

Lemma opened_le (f : local_file) (attempt n : nat) :
  (opened f attempt n <= n)%nat.
Proof.
  unfold opened.
  pose proof (filter_length_le (opens f) (seq attempt n)) as H.
  now rewrite length_seq in H.
Qed.

Lemma opened_all (f : local_file) (n : nat) :
  forall attempt,
    (forall a, (attempt <= a < attempt + n)%nat -> opens f a = true) ->
    opened f attempt n = n.
Proof.
  unfold opened. induction n as [|n IH]; intros attempt H; [reflexivity|].
  cbn [seq filter]. rewrite (H attempt) by lia. cbn [length].
  rewrite IH; [reflexivity|]. intros a Ha. apply H. lia.
Qed.

Section Attempts.
Context {W : Type} (disk : disk_op -> W -> bool * W) (session : Session W).

(** A loop whose failed rounds leave one line each: either all [n] rounds
    failed and the code after the loop gave the result, or fewer did and a
    round returned. *)
Lemma for_range_failed {A} (body : nat -> M W (option A)) (orelse : M W A)
    (P Q : A -> Prop) :
  (forall attempt s,
     match value (body attempt s) with
     | None => failed_attempts (events (body attempt s)) = 1%nat
     | Some v => failed_attempts (events (body attempt s)) = 0%nat /\ P v
     end) ->
  (forall s, failed_attempts (events (orelse s)) = 0%nat /\ Q (value (orelse s))) ->
  forall n attempt s,
    (failed_attempts (events (for_range n attempt body orelse s)) = n
     /\ Q (value (for_range n attempt body orelse s)))
    \/ ((failed_attempts (events (for_range n attempt body orelse s)) < n)%nat
        /\ P (value (for_range n attempt body orelse s))).
Proof.
  intros Hbody Horelse n. induction n as [|n IH]; intros attempt s.
  - left. apply Horelse.
  - cbn [for_range]. rewrite value_bind, events_bind, failed_attempts_app.
    specialize (Hbody attempt s).
    destruct (value (body attempt s)) as [v|].
    + destruct Hbody as [H0 HP]. right. rewrite H0. cbn. split; [lia|exact HP].
    + rewrite Hbody.
      destruct (IH (S attempt) (state (body attempt s))) as [[-> HQ]|[Hlt HP]].
      * left. auto.
      * right. split; [lia|exact HP].
Qed.

(** A loop whose every attempt is turned down fails [n] times. *)
Lemma for_range_all_failed {A} (body : nat -> M W (option A)) (orelse : M W A)
    (rq : request) (rejected : reply -> bool) :
  (forall attempt s, rejected (fst (send session rq s)) = true ->
     value (body attempt s) = None
     /\ state (body attempt s) = snd (send session rq s)) ->
  (forall attempt s, value (body attempt s) = None ->
     failed_attempts (events (body attempt s)) = 1%nat) ->
  (forall s, failed_attempts (events (orelse s)) = 0%nat) ->
  forall n attempt s,
    forallb rejected (replies session rq n s) = true ->
    failed_attempts (events (for_range n attempt body orelse s)) = n.
Proof.
  intros Hbody Hone Horelse n. induction n as [|n IH]; intros attempt s Hall.
  - apply Horelse.
  - cbn [replies] in Hall. cbn [for_range].
    specialize (Hbody attempt s).
    destruct (send session rq s) as [rp s'] eqn:Esend. cbn [fst snd] in *.
    cbn [forallb] in Hall. apply andb_true_iff in Hall. destruct Hall as [Hrp Hall].
    destruct (Hbody Hrp) as [Hv Hs].
    rewrite events_bind, failed_attempts_app, (Hone _ _ Hv), Hv, Hs.
    now rewrite (IH (S attempt) s' Hall).
Qed.

Lemma retry_in_2_seconds_failed (attempt max_retries : nat) (s : W) :
  failed_attempts (events (retry_in_2_seconds attempt max_retries s)) = 0%nat.
Proof.
  unfold retry_in_2_seconds, when.
  destruct (attempt <? max_retries - 1)%nat; reflexivity.
Qed.

Ltac count_body :=
  repeat first
    [ progress cbn [print ret value state events fst snd failed_attempts app]
    | rewrite value_bind | rewrite events_bind | rewrite failed_attempts_app
    | rewrite retry_in_2_seconds_failed ].

Lemma download_failed_failed remote_file c max_retries attempt (s : W) :
  value (download_failed remote_file c max_retries attempt s) = None
  /\ failed_attempts (events (download_failed remote_file c max_retries attempt s))
     = 1%nat.
Proof.
  unfold download_failed. count_body. split; reflexivity.
Qed.

Lemma upload_failed_failed name c max_retries attempt (s : W) :
  value (upload_failed name c max_retries attempt s) = None
  /\ failed_attempts (events (upload_failed name c max_retries attempt s))
     = 1%nat.
Proof.
  unfold upload_failed. count_body. split; reflexivity.
Qed.

Lemma list_block_failed remote_path block acc (s : W) :
  failed_attempts (events (list_block remote_path block acc s)) = 0%nat.
Proof.
  unfold list_block. destruct acc as [files directories].
  destruct (Re.href block) as [href|]; [|reflexivity].
  destruct (_ || _); [reflexivity|].
  destruct (Str.contains block "<D:collection/>").
  - destruct (last _ _); reflexivity.
  - destruct (last _ _) as [|c r]; [reflexivity|].
    destruct (negb _); reflexivity.
Qed.

Lemma list_blocks_failed remote_path blocks acc (s : W) :
  failed_attempts (events (for_each (list_block remote_path) blocks acc s))
  = 0%nat.
Proof.
  revert acc s. induction blocks as [|b blocks IH]; intros acc s; [reflexivity|].
  cbn [for_each].
  rewrite events_bind, failed_attempts_app, list_block_failed, IH. reflexivity.
Qed.

Lemma list_attempt_failed url remote_path max_retries attempt (s : W) :
  match value (list_attempt session url remote_path max_retries attempt s) with
  | None =>
      failed_attempts
        (events (list_attempt session url remote_path max_retries attempt s))
      = 1%nat
  | Some _ =>
      failed_attempts
        (events (list_attempt session url remote_path max_retries attempt s))
      = 0%nat /\ True
  end.
Proof.
  unfold list_attempt. count_body. rewrite request_run. count_body.
  destruct (fst (send session _ s)) as [r|].
  - destruct (status_code r =? 207)%N.
    + count_body. rewrite list_blocks_failed. auto.
    + count_body. reflexivity.
  - count_body. reflexivity.
Qed.

Lemma write_content_failed remote_file local_file content max_retries attempt
    (s : W) :
  match value (write_content disk remote_file local_file content max_retries
                 attempt s) with
  | None =>
      failed_attempts (events (write_content disk remote_file local_file content
                                 max_retries attempt s)) = 1%nat
  | Some v =>
      failed_attempts (events (write_content disk remote_file local_file content
                                 max_retries attempt s)) = 0%nat /\ v = true
  end.
Proof.
  unfold write_content. count_body. rewrite disk_do_run. count_body.
  destruct (fst (disk _ s)).
  - cbn. auto.
  - destruct (download_failed_failed remote_file Exception max_retries attempt
                (snd (disk (WriteFile local_file content) s))) as [-> ->].
    reflexivity.
Qed.

Lemma download_attempt_failed url remote_file local_file max_retries attempt
    (s : W) :
  match value (download_attempt disk session url remote_file local_file
                 max_retries attempt s) with
  | None =>
      failed_attempts (events (download_attempt disk session url remote_file
                                 local_file max_retries attempt s)) = 1%nat
  | Some v =>
      failed_attempts (events (download_attempt disk session url remote_file
                                 local_file max_retries attempt s)) = 0%nat
      /\ v = true
  end.
Proof.
  unfold download_attempt. count_body. rewrite request_run. count_body.
  pose proof (fun c s => download_failed_failed remote_file c max_retries attempt s)
    as F.
  pose proof (fun c s => write_content_failed remote_file local_file c max_retries
                           attempt s) as Wc.
  destruct (fst (send session _ s)) as [r|].
  - destruct (status_code r =? 200)%N.
    + count_body. rewrite disk_do_run. count_body.
      destruct (fst (disk (Mkdir _) _)).
      * destruct (content_length r) as [[|c fs]|].
        -- apply Wc.
        -- destruct (PyInt.in_megabytes _).
           ++ count_body. apply Wc.
           ++ destruct (F Exception (snd (disk (Mkdir (parent local_file))
                                            (snd (send session (get url) s)))))
                as [-> ->]. reflexivity.
        -- apply Wc.
      * destruct (F Exception (snd (disk (Mkdir (parent local_file))
                                      (snd (send session (get url) s)))))
          as [-> ->]. reflexivity.
    + destruct (F (Status (status_code r)) (snd (send session (get url) s)))
        as [-> ->]. reflexivity.
  - destruct (F Exception (snd (send session (get url) s))) as [-> ->].
    reflexivity.
Qed.

Lemma upload_attempt_failed url f max_retries attempt (s : W) :
  match value (upload_attempt session url f max_retries attempt s) with
  | None =>
      failed_attempts (events (upload_attempt session url f max_retries attempt s))
      = 1%nat
  | Some v =>
      failed_attempts (events (upload_attempt session url f max_retries attempt s))
      = 0%nat /\ v = true
  end.
Proof.
  unfold upload_attempt.
  pose proof (fun c s => upload_failed_failed (name f) c max_retries attempt s) as F.
  destruct (opens f attempt).
  - count_body. rewrite request_run. count_body.
    destruct (fst (send session _ s)) as [r|].
    + destruct (_ || _); [cbn; auto|].
      destruct (F (Status (status_code r))
                  (snd (send session (put url (content f)) s))) as [-> ->].
      reflexivity.
    + destruct (F Exception (snd (send session (put url (content f)) s)))
        as [-> ->]. reflexivity.
  - destruct (F Exception s) as [-> ->]. reflexivity.
Qed.

(** The [PUT] requests of the loop of an upload: one for each attempt at
    which the file opened, all of these attempts when it gives up. *)
Lemma upload_loop_requests url f max_retries (n : nat) :
  forall attempt s,
    let run := for_range n attempt (upload_attempt session url f max_retries)
                 (print (Failed_to_upload (name f) max_retries) ;; ret false) s in
    exists k, (k <= opened f attempt n)%nat
      /\ requests (events run) = repeat (put url (content f)) k
      /\ (value run = false -> k = opened f attempt n).
Proof.
  unfold opened. induction n as [|n IH]; intros attempt s.
  - exists 0%nat. cbn. auto.
  - cbn [for_range seq filter].
    rewrite value_bind, events_bind, requests_app.
    destruct (upload_attempt_requests session url f max_retries attempt s)
      as [Hr Hv].
    rewrite Hr.
    destruct (value (upload_attempt session url f max_retries attempt s))
      as [v|] eqn:Ev.
    + rewrite (Hv v eq_refl). cbn [ret value events fst snd requests].
      rewrite app_nil_r.
      destruct (opens f attempt).
      * exists 1%nat. cbn [length repeat]. split; [lia|].
        split; [reflexivity|discriminate].
      * exists 0%nat. cbn [length repeat]. split; [lia|].
        split; [reflexivity|discriminate].
    + destruct (IH (S attempt)
                  (state (upload_attempt session url f max_retries attempt s)))
        as [k [Hk [IHr IHv]]].
      rewrite IHr. destruct (opens f attempt).
      * exists (S k). cbn [length repeat app]. split; [lia|].
        split; [reflexivity|]. intros H. now rewrite (IHv H).
      * exists k. cbn [app]. split; [exact Hk|]. split; [reflexivity|exact IHv].
Qed.

(** A loop whose file opens at every round and whose every [PUT] is turned
    down runs to its end. *)
Lemma upload_loop_exhausted url f max_retries (n : nat) :
  forall attempt s,
    (forall a, (attempt <= a < attempt + n)%nat -> opens f a = true) ->
    forallb (fun rp => negb (stored rp))
            (replies session (put url (content f)) n s) = true ->
    let run := for_range n attempt (upload_attempt session url f max_retries)
                 (print (Failed_to_upload (name f) max_retries) ;; ret false) s in
    value run = false
    /\ requests (events run) = repeat (put url (content f)) n.
Proof.
  induction n as [|n IH]; intros attempt s Ho Hall run; subst run.
  - cbn. auto.
  - cbn [replies] in Hall. cbn [for_range repeat].
    destruct (send session (put url (content f)) s) as [rp s'] eqn:Esend.
    cbn [forallb] in Hall. apply andb_true_iff in Hall. destruct Hall as [Hrp Hall].
    destruct (upload_attempt_rejected session url f max_retries attempt s)
      as [Hv [Hs Hr]]; [apply Ho; lia|now rewrite Esend|].
    rewrite Esend in Hs. cbn [snd] in Hs.
    rewrite value_bind, events_bind, requests_app, Hv, Hs, Hr.
    destruct (IH (S attempt) s') as [IHv IHr];
      [intros a Ha; apply Ho; lia|exact Hall|].
    rewrite IHv, IHr. auto.
Qed.

End Attempts.

(** C7. A lister, a download or an upload whose every attempt fails makes
    exactly [max_retries] attempts and returns its failure value; whatever
    happens, it never makes more. Every failed attempt leaves one [Error ...]
    line. An attempt of the lister or of a download sends its request once,
    so a lister or a download whose every attempt is turned down (another
    status than the accepted one, or an exception) sends it exactly
    [max_retries] times, and so does a download that returns [False]. An
    attempt of an upload sends its [PUT] when the local file opens: an upload
    that returns [False] has failed [max_retries] times and has sent the
    [PUT] at each attempt at which the file opened, [max_retries] times for a
    file that always opens and whose every [PUT] is turned down. *)
Theorem retry_exhaustion {W} (disk : disk_op -> W -> bool * W)
    (session : Session W) (base_url : string) (max_retries : nat) (s : W) :
  (forall remote_path,
     let rq := propfind "1" (get_webdav_url base_url remote_path) in
     let run := list_webdav_directory session base_url remote_path max_retries s in
     (forallb (fun rp => negb (has_status 207 rp))
              (replies session rq max_retries s) = true ->
      requests (events run) = repeat rq max_retries /\ value run = ([], [])
      /\ failed_attempts (events run) = max_retries)
     /\ (exists k, (k <= max_retries)%nat /\ requests (events run) = repeat rq k)
     /\ (failed_attempts (events run) <= max_retries)%nat)
  /\ (forall remote_file local_file,
        let rq := get (get_webdav_url base_url remote_file) in
        let run := download_webdav_file disk session base_url remote_file
                     local_file max_retries s in
        (forallb (fun rp => negb (has_status 200 rp))
                 (replies session rq max_retries s) = true ->
         requests (events run) = repeat rq max_retries /\ value run = false)
        /\ (exists k, (k <= max_retries)%nat /\ requests (events run) = repeat rq k)
        /\ (value run = false ->
            requests (events run) = repeat rq max_retries
            /\ failed_attempts (events run) = max_retries)
        /\ (failed_attempts (events run) + (if value run then 1 else 0)
            <= max_retries)%nat)
  /\ (forall local_file remote_file,
        let rq := put (get_webdav_url base_url remote_file) (content local_file) in
        let run := upload_webdav_file session base_url local_file remote_file
                     max_retries s in
        ((forall k, (k < max_retries)%nat -> opens local_file k = true) ->
         forallb (fun rp => negb (stored rp))
                 (replies session rq max_retries
                    (state (create_remote_directory session base_url remote_file s)))
         = true ->
         filter is_put (requests (events run)) = repeat rq max_retries
         /\ value run = false)
        /\ (exists k, (k <= max_retries)%nat
                      /\ filter is_put (requests (events run)) = repeat rq k)
        /\ (value run = false ->
            failed_attempts (events run) = max_retries
            /\ filter is_put (requests (events run))
               = repeat rq (opened local_file 0 max_retries))
        /\ (failed_attempts (events run) + (if value run then 1 else 0)
            <= max_retries)%nat).
Proof.
  split; [|split].
  - intros remote_path rq run. subst run. unfold list_webdav_directory.
    pose proof (for_range_failed
                  (list_attempt session (get_webdav_url base_url remote_path)
                     remote_path max_retries)
                  (print (Failed_to_list remote_path max_retries) ;; ret ([], []))
                  (fun _ => True) (fun _ => True)
                  (list_attempt_failed session _ remote_path max_retries)
                  (fun _ => conj eq_refl I) max_retries 0%nat s) as Hf.
    split; [|split].
    + intros Hall.
      destruct (for_range_exhausted session
                  (list_attempt session (get_webdav_url base_url remote_path)
                     remote_path max_retries)
                  (print (Failed_to_list remote_path max_retries) ;; ret ([], []))
                  rq (fun rp => negb (has_status 207 rp))
                  (list_attempt_rejected session _ remote_path max_retries)
                  max_retries 0%nat s Hall) as [Hv [_ Hr]].
      rewrite Hv, Hr. cbn [print ret bind value events fst snd requests].
      rewrite app_nil_r. split; [reflexivity|]. split; [reflexivity|].
      apply (for_range_all_failed session _ _ rq
               (fun rp => negb (has_status 207 rp))); [| |reflexivity|exact Hall].
      * intros a s0 H.
        destruct (list_attempt_rejected session _ remote_path max_retries a s0 H)
          as [H1 [H2 _]]. auto.
      * intros a s0 H.
        pose proof (list_attempt_failed session (get_webdav_url base_url remote_path)
                      remote_path max_retries a s0) as Hone.
        now rewrite H in Hone.
    + destruct (for_range_at_most
                  (list_attempt session (get_webdav_url base_url remote_path)
                     remote_path max_retries)
                  (print (Failed_to_list remote_path max_retries) ;; ret ([], []))
                  rq (fun _ => True)
                  (list_attempt_requests session _ remote_path max_retries)
                  (fun _ => eq_refl) (fun _ _ _ _ => I)
                  max_retries 0%nat s) as [k [Hk [Hr _]]].
      exists k. auto.
    + destruct Hf as [[-> _]|[Hlt _]]; lia.
  - intros remote_file local_file rq run. subst run. unfold download_webdav_file.
    pose proof (for_range_at_most
                  (download_attempt disk session (get_webdav_url base_url remote_file)
                     remote_file local_file max_retries)
                  (print (Failed_to_download remote_file max_retries) ;; ret false)
                  rq (fun v => v = true)
                  (fun a s0 => proj1 (download_attempt_requests disk session _
                                        remote_file local_file max_retries a s0))
                  (fun _ => eq_refl)
                  (fun a s0 => proj2 (download_attempt_requests disk session _
                                        remote_file local_file max_retries a s0))
                  max_retries 0%nat s) as [k [Hk [Hr Hc]]].
    pose proof (for_range_failed
                  (download_attempt disk session (get_webdav_url base_url remote_file)
                     remote_file local_file max_retries)
                  (print (Failed_to_download remote_file max_retries) ;; ret false)
                  (fun v => v = true) (fun v => v = false)
                  (download_attempt_failed disk session _ remote_file local_file
                     max_retries)
                  (fun _ => conj eq_refl eq_refl) max_retries 0%nat s) as Hf.
    split; [|split; [|split]].
    + intros Hall.
      destruct (for_range_exhausted session
                  (download_attempt disk session (get_webdav_url base_url remote_file)
                     remote_file local_file max_retries)
                  (print (Failed_to_download remote_file max_retries) ;; ret false)
                  rq (fun rp => negb (has_status 200 rp))
                  (download_attempt_rejected disk session _ remote_file local_file
                     max_retries)
                  max_retries 0%nat s Hall) as [Hv [_ Hr']].
      rewrite Hv, Hr'. cbn. rewrite app_nil_r. auto.
    + exists k. auto.
    + intros Hfalse. split.
      * rewrite Hr. destruct Hc as [->|Hc]; [reflexivity|].
        rewrite Hfalse in Hc. discriminate.
      * destruct Hf as [[Hf _]|[_ Hf]]; [exact Hf|].
        rewrite Hfalse in Hf. discriminate.
    + destruct Hf as [[-> ->]|[Hlt ->]]; lia.
  - intros local_file remote_file rq run. subst run. unfold upload_webdav_file.
    rewrite events_bind, value_bind, requests_app, filter_app,
      create_remote_directory_requests, failed_attempts_app.
    cbn [app].
    assert (Hmk : failed_attempts
                    (events (create_remote_directory session base_url
                               remote_file s)) = 0%nat).
    { unfold create_remote_directory. destruct (Str.join _ _); [reflexivity|].
      rewrite events_bind, request_run. reflexivity. }
    rewrite Hmk. cbn [plus].
    set (s1 := state (create_remote_directory session base_url remote_file s)).
    destruct (upload_loop_requests session (get_webdav_url base_url remote_file)
                local_file max_retries max_retries 0%nat s1) as [k [Hk [Hr Hv]]].
    pose proof (for_range_failed
                  (upload_attempt session (get_webdav_url base_url remote_file)
                     local_file max_retries)
                  (print (Failed_to_upload (name local_file) max_retries) ;;
                   ret false)
                  (fun v => v = true) (fun v => v = false)
                  (upload_attempt_failed session _ local_file max_retries)
                  (fun _ => conj eq_refl eq_refl) max_retries 0%nat s1) as Hf.
    pose proof (opened_le local_file 0 max_retries) as Hle.
    split; [|split; [|split]].
    + intros Ho Hall.
      destruct (upload_loop_exhausted session (get_webdav_url base_url remote_file)
                  local_file max_retries max_retries 0%nat s1) as [Hv' Hr'];
        [intros a Ha; apply Ho; lia|exact Hall|].
      rewrite Hv', Hr'. split; [apply filter_repeat_put|reflexivity].
    + exists k. rewrite Hr. split; [lia|apply filter_repeat_put].
    + intros Hfalse. split.
      * destruct Hf as [[Hf _]|[_ Hf]]; [exact Hf|].
        rewrite Hfalse in Hf. discriminate.
      * rewrite Hr, (Hv Hfalse). apply filter_repeat_put.
    + destruct Hf as [[-> ->]|[Hlt ->]]; lia.
Qed.

Lemma retry_exhaustion_witness :
  let script := [status 500; Raises; status 503; status 500] in
  let base_url := "https://webdav.pcloud.com" in
  (requests (events (list_webdav_directory scripted base_url "/thetawave/data"
                       3 script))
   = repeat (propfind "1" "https://webdav.pcloud.com/thetawave/data") 3
   /\ value (list_webdav_directory scripted base_url "/thetawave/data" 3 script)
      = ([], [])
   /\ failed_attempts
        (events (list_webdav_directory scripted base_url "/thetawave/data"
                   3 script)) = 3%nat)
  /\ (requests (events (download_webdav_file good_disk scripted base_url
                          "/thetawave/data/a.json" ["assets"; "data"; "a.json"]
                          3 script))
      = repeat (get "https://webdav.pcloud.com/thetawave/data/a.json") 3
      /\ value (download_webdav_file good_disk scripted base_url
                  "/thetawave/data/a.json" ["assets"; "data"; "a.json"] 3 script)
         = false)
  /\ (filter is_put
        (requests (events (upload_webdav_file scripted base_url
                             (LocalFile "a.json" "{}") "/thetawave/data/a.json"
                             3 script)))
      = repeat (put "https://webdav.pcloud.com/thetawave/data/a.json" "{}") 3
      /\ value (upload_webdav_file scripted base_url (LocalFile "a.json" "{}")
                  "/thetawave/data/a.json" 3 script) = false)
  /\ (let locked := LocalFileOpening "a.json" "{}" (fun _ => false) in
      failed_attempts
        (events (upload_webdav_file scripted base_url locked
                   "/thetawave/data/a.json" 3 script)) = 3%nat
      /\ filter is_put
           (requests (events (upload_webdav_file scripted base_url locked
                                "/thetawave/data/a.json" 3 script)))
         = []).
Proof.
  intros script base_url.
  destruct (retry_exhaustion good_disk scripted base_url 3 script) as [HL [HD HU]].
  split; [|split; [|split]].
  - apply (proj1 (HL "/thetawave/data")). reflexivity.
  - apply (proj1 (HD "/thetawave/data/a.json" ["assets"; "data"; "a.json"])).
    reflexivity.
  - apply (proj1 (HU (LocalFile "a.json" "{}") "/thetawave/data/a.json")).
    + reflexivity.
    + reflexivity.
  - apply (proj1 (proj2 (proj2 (HU (LocalFileOpening "a.json" "{}" (fun _ => false))
                                   "/thetawave/data/a.json")))).
    reflexivity.
Defined.

(** ** The path codec *)

Ltac each_byte c := destruct c as [[] [] [] [] [] [] [] []].

Lemma split_nonempty (c : ascii) (s : string) : Str.split c s <> [].
Proof.
  destruct s as [|d r]; cbn; [discriminate|].
  destruct (Ascii.eqb d c); [discriminate|].
  destruct (Str.split c r); discriminate.
Qed.

Lemma split_no_slash (w t : string) :
  no_slash w = true ->
  Str.split "/" (w ++ t)
  = match Str.split "/" t with
    | [] => []
    | h :: tl => (w ++ h) :: tl
    end.
Proof.
  induction w as [|c w IH]; intros H.
  - cbn [append]. destruct (Str.split "/" t) as [|h tl] eqn:E; [|reflexivity].
    now apply split_nonempty in E.
  - cbn [no_slash] in H. apply andb_true_iff in H. destruct H as [Hc Hw].
    cbn [append Str.split]. apply negb_true_iff in Hc. rewrite Hc.
    rewrite (IH Hw). destruct (Str.split "/" t) as [|h tl] eqn:E; [|reflexivity].
    now apply split_nonempty in E.
Qed.

Lemma quote_byte_segment (c : ascii) :
  Ascii.eqb c "/" = false ->
  Urllib.quote_byte "/" c = Urllib.quote_byte "" c
  /\ no_slash (Urllib.quote_byte "" c) = true.
Proof. each_byte c; intros H; try discriminate H; split; reflexivity. Qed.

Lemma quote_byte_output (c : ascii) :
  forallb (fun d => Urllib.always_safe d || Ascii.eqb d "/" || Ascii.eqb d "%")
          (list_ascii_of_string (Urllib.quote_byte "/" c)) = true.
Proof. each_byte c; reflexivity. Qed.

Lemma unquote_quote_byte (c : ascii) (rest : string) :
  Urllib.unquote (Urllib.quote_byte "/" c ++ rest)
  = String c (Urllib.unquote rest).
Proof. each_byte c; reflexivity. Qed.

Lemma list_ascii_of_string_app (a b : string) :
  list_ascii_of_string (a ++ b)
  = (list_ascii_of_string a ++ list_ascii_of_string b)%list.
Proof. induction a as [|c a IH]; cbn; [reflexivity|now rewrite IH]. Qed.

(** Splitting the encoded path at the separators gives the encoded segments
    of the path. *)
Lemma split_quote (s : string) :
  Str.split "/" (Urllib.quote s "/")
  = map (fun segment => Urllib.quote segment "") (Str.split "/" s).
Proof.
  induction s as [|c s IH]; [reflexivity|].
  cbn [Urllib.quote Str.split].
  destruct (Ascii.eqb c "/") eqn:E.
  - apply Ascii.eqb_eq in E. subst c. cbn. rewrite IH. reflexivity.
  - destruct (quote_byte_segment c E) as [Hq Hn]. rewrite Hq.
    rewrite (split_no_slash _ _ Hn), IH.
    destruct (Str.split "/" s) as [|h tl] eqn:Es; [now apply split_nonempty in Es|].
    reflexivity.
Qed.

Lemma unquote_quote (s : string) : Urllib.unquote (Urllib.quote s "/") = s.
Proof.
  induction s as [|c s IH]; [reflexivity|].
  cbn [Urllib.quote]. rewrite unquote_quote_byte, IH. reflexivity.
Qed.

Lemma quote_output (s : string) :
  forallb (fun d => Urllib.always_safe d || Ascii.eqb d "/" || Ascii.eqb d "%")
          (list_ascii_of_string (Urllib.quote s "/")) = true.
Proof.
  induction s as [|c s IH]; [reflexivity|].
  cbn [Urllib.quote]. rewrite list_ascii_of_string_app, forallb_app, IH.
  rewrite quote_byte_output. reflexivity.
Qed.

(** C8. For a path that does not start with the separator, the URL is the
    base followed by one separator and the encoded path, which does not start
    with a separator; cutting the encoded path at the separators gives the
    segments of the path, each percent-encoded; every character of the encoded
    path is an unreserved one, a separator or a percent sign; decoding gives
    the path back. *)
Theorem get_webdav_url_codec (base_url path : string) :
  Str.startswith path "/" = false ->
  let encoded := Urllib.quote path "/" in
  get_webdav_url base_url path = base_url ++ "/" ++ encoded
  /\ Str.startswith encoded "/" = false
  /\ Str.split "/" encoded
     = map (fun segment => Urllib.quote segment "") (Str.split "/" path)
  /\ Forall (fun segment => no_slash (Urllib.quote segment "") = true)
            (Str.split "/" path)
  /\ (forall c, In c (list_ascii_of_string encoded) ->
        Urllib.always_safe c = true \/ c = "/"%char \/ c = "%"%char)
  /\ Urllib.unquote encoded = path.
Proof.
  intros H encoded. subst encoded. unfold get_webdav_url. rewrite H.
  split; [reflexivity|]. split; [|split; [apply split_quote|split; [|split]]].
  - unfold Str.startswith in *. destruct path as [|c r]; [reflexivity|].
    cbn [String.prefix] in H.
    assert (E : Ascii.eqb c "/" = false).
    { destruct (Ascii.eqb_spec c "/") as [->|]; [|reflexivity].
      destruct (ascii_dec "/" "/"); [|contradiction].
      destruct r; discriminate. }
    clear H. revert E. each_byte c; intros E; try discriminate E; reflexivity.
  - clear H. induction path as [|c s IH]; [repeat constructor|].
    cbn [Str.split]. destruct (Ascii.eqb c "/") eqn:E.
    + constructor; [reflexivity|exact IH].
    + destruct (Str.split "/" s) as [|h tl] eqn:Es;
        [now apply split_nonempty in Es|].
      inversion IH as [|? ? Hh Htl]; subst. constructor; [|exact Htl].
      cbn [Urllib.quote].
      assert (A : forall a b, no_slash a = true -> no_slash b = true ->
                              no_slash (a ++ b) = true).
      { induction a as [|x a IHa]; intros b Ha Hb; [exact Hb|].
        cbn [no_slash append] in *. apply andb_true_iff in Ha.
        destruct Ha as [Hx Ha]. rewrite Hx. cbn. now apply IHa. }
      apply A; [apply (proj2 (quote_byte_segment c E))|exact Hh].
  - intros c Hin. pose proof (quote_output path) as Hall.
    rewrite forallb_forall in Hall. specialize (Hall c Hin).
    apply orb_true_iff in Hall. destruct Hall as [Hall|Hall].
    + apply orb_true_iff in Hall. destruct Hall as [Hs|Hs]; [left; exact Hs|].
      right; left. now apply Ascii.eqb_eq.
    + right; right. now apply Ascii.eqb_eq.
  - apply unquote_quote.
Qed.

Lemma get_webdav_url_codec_witness :
  get_webdav_url "https://webdav.pcloud.com" "thetawave/my data/a&b.json"
  = "https://webdav.pcloud.com" ++ "/" ++ "thetawave/my%20data/a%26b.json"
  /\ Str.split "/" (Urllib.quote "thetawave/my data/a&b.json" "/")
     = ["thetawave"; "my%20data"; "a%26b.json"].
Proof.
  destruct (get_webdav_url_codec "https://webdav.pcloud.com"
              "thetawave/my data/a&b.json" eq_refl) as [H1 [_ [H3 _]]].
  split; [exact H1|exact H3].
Defined.

(** ** The counters of the walkers *)

Section Walkers.
Context {W : Type} (disk : disk_op -> W -> bool * W) (session : Session W).

Lemma backoff_trace_quiet (rq : request) (pause : N) (rps : list reply) :
  failed_uploads (backoff_trace rq pause rps) = 0%N
  /\ requests (backoff_trace rq pause rps) = repeat rq (length rps)
  /\ (is_put rq = false -> transferred (backoff_trace rq pause rps) = 0%N).
Proof.
  induction rps as [|rp [|rp' r] IH]; [cbn; auto|cbn; split; [|split]; auto|].
  - intros ->. reflexivity.
  - destruct IH as [IH1 [IH2 IH3]].
    change (backoff_trace rq pause (rp :: rp' :: r))
      with (Sent rq rp :: Slept pause :: backoff_trace rq pause (rp' :: r)).
    cbn [failed_uploads requests transferred length repeat].
    rewrite IH1, IH2. split; [reflexivity|split; [reflexivity|]].
    intros H. rewrite (IH3 H), H. reflexivity.
Qed.

(** The policy sends probes only: no line printed, nothing written. *)
Lemma should_upload_file_quiet base_url f remote_file (s : W) :
  let ev := events (should_upload_file session base_url f remote_file s) in
  failed_uploads ev = 0%N /\ transferred ev = 0%N
  /\ filter is_write (requests ev) = [].
Proof.
  intros ev. subst ev. rewrite should_upload_file_run. cbn [events snd].
  rewrite get_remote_file_info_events.
  destruct (backoff_trace_quiet
              (propfind "0" (get_webdav_url base_url remote_file)) 1000
              (until_decisive
                 (replies session
                    (propfind "0" (get_webdav_url base_url remote_file)) 3 s)))
    as [H1 [H2 H3]].
  rewrite H1, H2, (H3 eq_refl). split; [reflexivity|split; [reflexivity|]].
  clear. generalize (length (until_decisive
    (replies session (propfind "0" (get_webdav_url base_url remote_file)) 3 s))).
  intros n. induction n as [|n IH]; [reflexivity|exact IH].
Qed.

Lemma upload_loop_outcome url f max_retries n attempt (s : W) :
  let run := for_range n attempt (upload_attempt session url f max_retries)
               (print (Failed_to_upload (name f) max_retries) ;; ret false) s in
  (value run = true /\ transferred (events run) = 1%N
   /\ failed_uploads (events run) = 0%N)
  \/ (value run = false /\ transferred (events run) = 0%N
      /\ failed_uploads (events run) = 1%N).
Proof.
  revert attempt s. induction n as [|n IH]; intros attempt s run; subst run.
  - right. cbn. auto.
  - cbn [for_range]. rewrite value_bind, events_bind, transferred_app,
      failed_uploads_app.
    specialize (IH (S attempt)
                  (state (upload_attempt session url f max_retries attempt s))).
    cbn zeta in IH.
    assert (Hbody :
      (value (upload_attempt session url f max_retries attempt s) = Some true
       /\ transferred (events (upload_attempt session url f max_retries attempt s)) = 1%N
       /\ failed_uploads (events (upload_attempt session url f max_retries attempt s)) = 0%N)
      \/ (value (upload_attempt session url f max_retries attempt s) = None
          /\ transferred (events (upload_attempt session url f max_retries attempt s)) = 0%N
          /\ failed_uploads (events (upload_attempt session url f max_retries attempt s)) = 0%N)).
    { pose proof (upload_attempt_cases session url f max_retries attempt s) as C.
      cbn zeta in C.
      destruct C as [[_ [Hst ->]]|[[_ [Hst [c ->]]]|[_ ->]]].
      - left. cbn [value events fst snd transferred failed_uploads is_put put
                     rq_method andb].
        rewrite Hst. auto.
      - right. cbn [value events fst snd transferred failed_uploads is_put put
                      rq_method andb].
        rewrite Hst.
        destruct (upload_failed_quiet (name f) c max_retries attempt
                    (snd (send session (put url (content f)) s))) as [-> ->].
        auto.
      - right.
        destruct (upload_failed_quiet (name f) Exception max_retries attempt s)
          as [-> ->].
        split; [apply upload_failed_run|auto]. }
    destruct Hbody as [[Hv [Ht Hf]]|[Hv [Ht Hf]]]; rewrite Hv, Ht, Hf.
    + left. cbn. auto.
    + destruct IH as [[IHv [IHt IHf]]|[IHv [IHt IHf]]]; rewrite IHv, IHt, IHf;
        [left|right]; auto.
Qed.

(** An upload either gets the file stored by one accepted [PUT], or gives up
    with one [Failed to upload] line. *)
Lemma upload_webdav_file_outcome base_url f remote_file max_retries (s : W) :
  let run := upload_webdav_file session base_url f remote_file max_retries s in
  (value run = true /\ transferred (events run) = 1%N
   /\ failed_uploads (events run) = 0%N)
  \/ (value run = false /\ transferred (events run) = 0%N
      /\ failed_uploads (events run) = 1%N).
Proof.
  intros run. subst run. unfold upload_webdav_file.
  rewrite value_bind, events_bind, transferred_app, failed_uploads_app.
  assert (Hc : transferred (events (create_remote_directory session base_url
                                      remote_file s)) = 0%N
               /\ failed_uploads (events (create_remote_directory session base_url
                                            remote_file s)) = 0%N).
  { unfold create_remote_directory. destruct (Str.join _ _); [cbn; auto|].
    rewrite bind_run, request_run. cbn. auto. }
  destruct Hc as [-> ->].
  apply upload_loop_outcome.
Qed.

Lemma accounted_for_each (execute : bool)
    (body : item -> N * N * N -> M W (N * N * N)) (entries : list item) :
  Forall (fun it => forall c s, accounted execute c (body it c s)) entries ->
  forall c s, accounted execute c (for_each body entries c s).
Proof.
  induction 1 as [|it entries Hit _ IH]; intros c s.
  - unfold accounted. cbn.
    split; [lia|split; [lia|split; [lia|split; intros _; [lia|split; reflexivity]]]].
  - cbn [for_each]. specialize (Hit c s).
    specialize (IH (value (body it c s)) (state (body it c s))).
    unfold accounted in *.
    rewrite value_bind, events_bind, failed_uploads_app, transferred_app,
      requests_app, filter_app.
    destruct Hit as [H1 [H2 [H3 [H4 H5]]]].
    destruct IH as [I1 [I2 [I3 [I4 I5]]]].
    split; [lia|split; [lia|split; [lia|split]]].
    + intros E. rewrite (I4 E), (H4 E). lia.
    + intros E. rewrite (proj1 (I5 E)), (proj1 (H5 E)),
        (proj2 (I5 E)), (proj2 (H5 E)). split; reflexivity.
Qed.

Lemma upload_entry_accounted base_url (execute : bool) (it : item) :
  forall remote_path c s,
    accounted execute c (upload_entry session base_url it remote_path execute c s).
Proof.
  induction it as [f|dir_name entries IH|other_name] using item_induction;
    intros remote_path [[sc t] k] s.
  - cbn [upload_entry]. rewrite bind_run.
    pose proof (should_upload_file_quiet base_url f
                  (remote_path ++ "/" ++ name f) s) as Q.
    cbn zeta in Q. destruct Q as [Qf [Qt Qw]].
    set (p := should_upload_file session base_url f (remote_path ++ "/" ++ name f) s) in *.
    destruct (value p) as [should_upload reason].
    unfold accounted. cbn [value state events fst snd].
    destruct should_upload; [destruct execute|].
    + rewrite !bind_run. cbn [value state events fst snd print app].
      pose proof (upload_webdav_file_outcome base_url f
                    (remote_path ++ "/" ++ name f) 3 (state p)) as O.
      cbn zeta in O.
      rewrite !failed_uploads_app, !transferred_app, Qf, Qt.
      cbn [failed_uploads transferred app].
      rewrite !failed_uploads_app, !transferred_app.
      destruct O as [[Ov [Ot Of]]|[Ov [Ot Of]]]; rewrite Ov, Ot, Of;
        unfold ret;
        cbn [success_of total_of skipped_of fst snd failed_uploads transferred
               value events];
        (split; [lia|split; [lia|split; [lia|split; [intros _; lia|discriminate]]]]).
    + rewrite !bind_run. cbn [value state events fst snd print ret app].
      rewrite !failed_uploads_app, !requests_app, !filter_app, Qf, Qw.
      cbn [success_of total_of skipped_of fst snd failed_uploads requests filter app].
      split; [lia|split; [lia|split; [lia|split; [discriminate|]]]].
      intros _. split; reflexivity.
    + cbn [ret value state events fst snd].
      rewrite !failed_uploads_app, !transferred_app, !requests_app, !filter_app,
        Qf, Qt, Qw.
      cbn [success_of total_of skipped_of fst snd failed_uploads transferred
             requests filter app].
      split; [lia|split; [lia|split; [lia|split; intros _; [lia|]]]].
      split; reflexivity.
  - cbn [upload_entry].
    pose proof (accounted_for_each execute
                  (fun it c => upload_entry session base_url it
                                 (remote_path ++ "/" ++ dir_name) execute c)
                  entries) as A.
    assert (HA : Forall (fun it => forall c s,
                   accounted execute c
                     (upload_entry session base_url it
                        (remote_path ++ "/" ++ dir_name) execute c s)) entries).
    { eapply Forall_impl; [|exact IH]. intros it Hit c s0. apply Hit. }
    specialize (A HA (0, 0, 0)%N s). clear HA IH.
    rewrite bind_run.
    set (sub := for_each _ entries (0%N, 0%N, 0%N) s) in *.
    unfold accounted in A. destruct A as [A1 [A2 [A3 [A4 A5]]]].
    destruct (value sub) as [[sub_success sub_total] sub_skipped].
    cbn [success_of total_of skipped_of fst snd] in A1, A2, A3, A4, A5.
    rewrite bind_run. unfold accounted.
    cbn [value state events fst snd ret].
    assert (Hw : forall s0 : W,
              events (when (0 <? sub_success)%N
                        (print (if execute then Entering_directory dir_name
                                else Would_enter_directory dir_name)) s0)
              = [] \/
              events (when (0 <? sub_success)%N
                        (print (if execute then Entering_directory dir_name
                                else Would_enter_directory dir_name)) s0)
              = [Printed (if execute then Entering_directory dir_name
                          else Would_enter_directory dir_name)]).
    { intros s0. unfold when. destruct (0 <? sub_success)%N; cbn; auto. }
    rewrite app_nil_r.
    rewrite !failed_uploads_app, !transferred_app, !requests_app, !filter_app.
    destruct (Hw (state sub)) as [-> | ->];
      cbn [success_of total_of skipped_of fst snd failed_uploads transferred
             requests filter app];
      (split; [destruct execute; cbn [failed_uploads]; lia
              |split; [lia|split; [lia|split; intros E; subst execute]]]);
      try (specialize (A4 eq_refl); cbn [transferred]; lia);
      destruct (A5 eq_refl) as [B1 B2]; rewrite B1, B2; split; reflexivity.
  - unfold accounted. cbn.
    split; [lia|split; [lia|split; [lia|split; intros _; [lia|split; reflexivity]]]].
Qed.

Lemma upload_directory_recursive_accounted base_url local_path remote_path
    (execute : bool) (s : W) :
  accounted execute (0, 0, 0)%N
    (upload_directory_recursive session base_url local_path remote_path execute s).
Proof.
  unfold upload_directory_recursive. apply accounted_for_each.
  apply Forall_forall. intros it _ c s0. apply upload_entry_accounted.
Qed.

(** *** The download walker *)

Lemma download_one_counts base_url remote_path local_path filename
    (c : N * N) (s : W) :
  (fst c <= snd c)%N ->
  (fst (value (download_one disk session base_url remote_path local_path
                 filename c s))
   <= snd (value (download_one disk session base_url remote_path local_path
                    filename c s)))%N.
Proof.
  destruct c as [success_count total_files]. cbn [fst snd]. intros H.
  unfold download_one. rewrite !value_bind. cbn [ret value fst snd].
  destruct (value (download_webdav_file _ _ _ _ _ _ _)); cbn [fst snd]; lia.
Qed.

Lemma download_files_counts base_url remote_path local_path files
    (c : N * N) (s : W) :
  (fst c <= snd c)%N ->
  (fst (value (for_each (download_one disk session base_url remote_path local_path)
                 files c s))
   <= snd (value (for_each (download_one disk session base_url remote_path
                              local_path) files c s)))%N.
Proof.
  revert c s. induction files as [|filename files IH]; intros c s H; [exact H|].
  cbn [for_each]. rewrite value_bind. apply IH. now apply download_one_counts.
Qed.

Lemma download_subdirectories_none
    (recurse : string -> Path -> M W (option (N * N))) remote_path local_path
    directories (s : W) :
  for_each (download_subdirectory recurse remote_path local_path) directories
    None s = (None, s, []).
Proof.
  induction directories as [|dirname directories IH]; [reflexivity|].
  cbn [for_each]. rewrite bind_run. cbn [download_subdirectory ret value state
    events fst snd]. rewrite IH. reflexivity.
Qed.

Lemma download_subdirectory_run
    (recurse : string -> Path -> M W (option (N * N))) remote_path local_path
    dirname (a b : N) (s : W) :
  download_subdirectory recurse remote_path local_path dirname (Some (a, b)) s
  = (match value (recurse (remote_path ++ "/" ++ dirname)
                    (local_path ++ [dirname])%list s) with
     | Some (sub_success, sub_total) =>
         Some ((a + sub_success)%N, (b + sub_total)%N)
     | None => None
     end,
     state (recurse (remote_path ++ "/" ++ dirname)
              (local_path ++ [dirname])%list s),
     Printed (Entering_directory dirname)
       :: events (recurse (remote_path ++ "/" ++ dirname)
                    (local_path ++ [dirname])%list s)).
Proof.
  unfold download_subdirectory. rewrite !bind_run.
  cbn [print value state events fst snd app].
  destruct (value (recurse _ _ s)) as [[sub_success sub_total]|];
    cbn [ret value state events fst snd]; rewrite app_nil_r; reflexivity.
Qed.

Lemma download_directory_recursive_counts base_url (depth : nat) :
  forall remote_path local_path s success_count total_files,
    value (download_directory_recursive disk depth session base_url remote_path
             local_path s) = Some (success_count, total_files) ->
    (success_count <= total_files)%N.
Proof.
  induction depth as [|depth IH]; intros remote_path local_path s sc t.
  - cbn. discriminate.
  - cbn [download_directory_recursive]. rewrite value_bind.
    destruct (value (list_webdav_directory session base_url remote_path 3 s))
      as [files directories].
    rewrite value_bind. destruct (value (disk_do disk (Mkdir local_path) _));
      [|cbn; discriminate].
    rewrite value_bind.
    match goal with
    | |- context [for_each (download_one ?d ?se ?b ?r ?l) files ?c ?s0] =>
        pose proof (download_files_counts b r l files c s0 (N.le_refl 0)) as Hfiles;
        set (counts := value (for_each (download_one d se b r l) files c s0)) in *;
        generalize (state (for_each (download_one d se b r l) files c s0))
    end.
    assert (Hacc : match Some counts with
                   | Some c => (fst c <= snd c)%N
                   | None => True
                   end) by exact Hfiles.
    clear Hfiles. revert Hacc. generalize (Some counts). clear counts.
    induction directories as [|dirname directories IHd]; intros acc Hacc s0.
    + cbn. intros ->. exact Hacc.
    + cbn [for_each]. rewrite value_bind. apply IHd.
      destruct acc as [[a b]|]; [|exact I].
      cbn [download_subdirectory]. rewrite !value_bind.
      cbn [print state value fst snd].
      match goal with
      | |- context [download_directory_recursive disk depth session base_url ?r ?l ?s1] =>
          pose proof (IH r l s1) as Hsub;
          destruct (value (download_directory_recursive disk depth session
                             base_url r l s1)) as [[sub_success sub_total]|]
      end; [|exact I].
      cbn [ret value fst snd] in *. specialize (Hsub _ _ eq_refl). lia.
Qed.

Lemma download_directory_recursive_step base_url (depth : nat)
    remote_path local_path :
  download_directory_recursive disk (S depth) session base_url remote_path
    local_path
  = ('(files, directories) <-
        list_webdav_directory session base_url remote_path 3 ;;
     made <- disk_do disk (Mkdir local_path) ;;
     if made then
       counts <- for_each (download_one disk session base_url remote_path
                             local_path) files (0%N, 0%N) ;;
       for_each
         (download_subdirectory
            (download_directory_recursive disk depth session base_url)
            remote_path local_path)
         directories (Some counts)
     else ret None).
Proof. reflexivity. Qed.

(** A walk that returns within [depth] nested calls runs the same way when
    more are allowed. *)
Lemma download_directory_recursive_deeper base_url (depth : nat) :
  forall remote_path local_path s,
    value (download_directory_recursive disk depth session base_url remote_path
             local_path s) <> None ->
    download_directory_recursive disk (S depth) session base_url remote_path
      local_path s
    = download_directory_recursive disk depth session base_url remote_path
        local_path s.
Proof.
  induction depth as [|depth IH]; intros remote_path local_path s H.
  - now contradiction H.
  - rewrite (download_directory_recursive_step base_url (S depth)).
    rewrite (download_directory_recursive_step base_url depth) in H |- *.
    rewrite bind_run in H. rewrite !(bind_run (list_webdav_directory _ _ _ _)).
    destruct (value (list_webdav_directory session base_url remote_path 3 s))
      as [files directories].
    rewrite bind_run in H. rewrite !(bind_run (disk_do _ _)).
    destruct (value (disk_do disk (Mkdir local_path) _)); [|reflexivity].
    rewrite bind_run in H. rewrite !(bind_run (for_each (download_one _ _ _ _ _) _ _)).
    cbn [value fst] in H.
    match goal with
    | |- context [for_each (download_one ?d ?se ?b ?r ?l) files ?c ?s0] =>
        revert H;
        generalize (Some (value (for_each (download_one d se b r l) files c s0)));
        generalize (state (for_each (download_one d se b r l) files c s0));
        generalize (events (for_each (download_one d se b r l) files c s0))
    end.
    generalize (events (disk_do disk (Mkdir local_path)
      (state (list_webdav_directory session base_url remote_path 3 s)))).
    generalize (events (list_webdav_directory session base_url remote_path 3 s)).
    intros e1 e2 e3 s0 acc H.
    assert (E : for_each
                  (download_subdirectory
                     (download_directory_recursive disk (S depth) session base_url)
                     remote_path local_path) directories acc s0
                = for_each
                    (download_subdirectory
                       (download_directory_recursive disk depth session base_url)
                       remote_path local_path) directories acc s0);
      [|rewrite E; reflexivity].
    clear e1 e2 e3. revert acc s0 H.
    induction directories as [|dirname directories IHd]; intros acc s0 H;
      [reflexivity|].
    cbn [for_each] in H |- *. rewrite value_bind in H.
    assert (B : download_subdirectory
                  (download_directory_recursive disk (S depth) session base_url)
                  remote_path local_path dirname acc s0
                = download_subdirectory
                    (download_directory_recursive disk depth session base_url)
                    remote_path local_path dirname acc s0).
    { destruct acc as [[a b]|]; [|reflexivity].
      rewrite !download_subdirectory_run. rewrite download_subdirectory_run in H.
      cbn [value state fst snd] in H.
      rewrite IH; [reflexivity|].
      intros Hn. rewrite Hn in H.
      rewrite download_subdirectories_none in H. now apply H. }
    rewrite bind_run, (bind_run (download_subdirectory
      (download_directory_recursive disk depth session base_url) _ _ _ _)), B.
    rewrite IHd; [reflexivity|exact H].
Qed.

End Walkers.

(** ** A dry run against an execute run *)

Section DryRun.
Context {W : Type} (session : Session W) (base_url : string).
Hypothesis read_only : probes_read_only session.
Hypothesis local_writes : writes_are_local session.

Lemma replies_read_only (url : string) (n : nat) (s : W) :
  replies session (propfind "0" url) n s = repeat (probe_reply session s url) n.
Proof.
  induction n as [|n IH]; [reflexivity|]. cbn [replies repeat].
  pose proof (read_only (propfind "0" url) s eq_refl) as Hs.
  destruct (send session (propfind "0" url) s) as [rp s'] eqn:E.
  cbn [snd] in Hs. subst s'. rewrite IH. unfold probe_reply. rewrite E.
  reflexivity.
Qed.

Lemma probe_loop_state url max_retries n attempt (s : W) :
  state (for_range n attempt (info_attempt session url max_retries) (ret None) s)
  = s.
Proof.
  revert attempt. induction n as [|n IH]; intros attempt; [reflexivity|].
  cbn [for_range]. rewrite state_bind.
  pose proof (read_only (propfind "0" url) s eq_refl) as Hs.
  destruct (transient (fst (send session (propfind "0" url) s))) eqn:T.
  - rewrite (info_attempt_transient _ _ _ _ _ T). cbn [value state fst snd].
    rewrite Hs. apply IH.
  - rewrite (info_attempt_decisive _ _ _ _ _ T). cbn [value state fst snd].
    exact Hs.
Qed.

(** Under read-only probes the policy leaves the state as it found it, and
    its verdict depends on the state through the answer to one probe. *)
Lemma should_upload_file_read_only f remote_file (s : W) :
  state (should_upload_file session base_url f remote_file s) = s.
Proof.
  rewrite should_upload_file_run. cbn [state fst snd].
  unfold get_remote_file_info. apply probe_loop_state.
Qed.

Lemma should_upload_file_same f remote_file (s1 s2 : W) :
  probe_reply session s2 (get_webdav_url base_url remote_file)
  = probe_reply session s1 (get_webdav_url base_url remote_file) ->
  value (should_upload_file session base_url f remote_file s2)
  = value (should_upload_file session base_url f remote_file s1).
Proof.
  intros H. rewrite !should_upload_file_run. cbn [value fst].
  rewrite !get_remote_file_info_value, !replies_read_only, H. reflexivity.
Qed.

Lemma upload_attempt_state url f max_retries attempt (s : W) :
  state (upload_attempt session url f max_retries attempt s)
  = if opens f attempt then snd (send session (put url (content f)) s) else s.
Proof.
  pose proof (upload_attempt_cases session url f max_retries attempt s) as C.
  cbn zeta in C.
  destruct C as [[-> [_ ->]]|[[-> [_ [c ->]]]|[-> ->]]]; try reflexivity.
  apply upload_failed_run.
Qed.

(** An upload changes the answers to the probes of its own URL and of the
    collection it asks for, and of no other. *)
Lemma upload_webdav_file_frame f remote_file max_retries (s : W) (u : string) :
  u <> get_webdav_url base_url remote_file ->
  ~ In u (collection_url base_url remote_file) ->
  probe_reply session
    (state (upload_webdav_file session base_url f remote_file max_retries s)) u
  = probe_reply session s u.
Proof.
  intros Hu Hc. unfold upload_webdav_file. rewrite state_bind.
  assert (Hloop : forall n attempt s0,
    probe_reply session
      (state (for_range n attempt
                (upload_attempt session (get_webdav_url base_url remote_file) f
                   max_retries)
                (print (Failed_to_upload (name f) max_retries) ;; ret false) s0)) u
    = probe_reply session s0 u).
  { induction n as [|n IH]; intros attempt s0; [reflexivity|].
    cbn [for_range]. rewrite state_bind.
    assert (Hstep : probe_reply session
              (state (upload_attempt session (get_webdav_url base_url remote_file)
                        f max_retries attempt s0)) u
            = probe_reply session s0 u).
    { rewrite upload_attempt_state. destruct (opens f attempt); [|reflexivity].
      apply local_writes; [reflexivity|]. cbn. congruence. }
    destruct (value (upload_attempt _ _ _ _ _ _)); [exact Hstep|].
    rewrite IH. exact Hstep. }
  rewrite Hloop. unfold create_remote_directory, collection_url, remote_dir_of in *.
  destruct (Str.join "/" (removelast (Str.split "/" remote_file)));
    [reflexivity|].
  rewrite state_bind, request_run. cbn [value state fst snd ret].
  apply local_writes; [reflexivity|]. cbn. cbn in Hc. intuition congruence.
Qed.

Lemma simulates_for_each
    (dry_body exec_body : item -> N * N * N -> M W (N * N * N))
    (urls collections : item -> list string) (entries : list item) :
  Forall (fun it => forall c1 c2 s s2,
            walk_agrees session (urls it) (collections it) s s2 ->
            simulates session (urls it) (collections it) s s2 c1 c2
              (dry_body it c1 s) (exec_body it c2 s2)) entries ->
  forall c1 c2 s s2,
    walk_agrees session (flat_map urls entries) (flat_map collections entries) s s2 ->
    simulates session (flat_map urls entries) (flat_map collections entries) s s2 c1 c2
      (for_each dry_body entries c1 s) (for_each exec_body entries c2 s2).
Proof.
  induction 1 as [|it entries Hit _ IH]; intros c1 c2 s s2 [Hnd [Hcol Hag]].
  - unfold simulates. cbn. repeat split; lia.
  - cbn [flat_map for_each] in *.
    apply NoDup_app_remove_l in Hnd as Hnd_r.
    apply NoDup_app_remove_r in Hnd as Hnd_l.
    assert (Hdisj : forall u, In u (flat_map urls entries) -> ~ In u (urls it)).
    { intros u Hu Hu'. revert Hnd Hu Hu'. clear.
      induction (urls it) as [|x l IHl]; cbn; [tauto|].
      intros Hnd Hu [->|Hx].
      - inversion Hnd as [|? ? Hnin _]; subst. apply Hnin, in_or_app. now right.
      - inversion Hnd; subst. now apply IHl. }
    assert (A : walk_agrees session (urls it) (collections it) s s2).
    { split; [exact Hnd_l|split].
      - intros u Hu Hc. apply (Hcol u); apply in_or_app; now left.
      - intros u Hu. apply Hag, in_or_app. now left. }
    destruct (Hit c1 c2 s s2 A) as [S1 [S2 [S3 [S4 S5]]]].
    assert (B : walk_agrees session (flat_map urls entries) (flat_map collections entries)
                  s (state (exec_body it c2 s2))).
    { split; [exact Hnd_r|split].
      - intros u Hu Hc. apply (Hcol u); apply in_or_app; now right.
      - intros u Hu. rewrite S2.
        + apply Hag, in_or_app. now right.
        + now apply Hdisj.
        + intros Hc. apply (Hcol u); apply in_or_app; [now right|now left]. }
    specialize (IH (value (dry_body it c1 s)) (value (exec_body it c2 s2))
                  s (state (exec_body it c2 s2)) B).
    destruct IH as [I1 [I2 [I3 [I4 I5]]]].
    unfold simulates.
    rewrite !value_bind, !state_bind, !events_bind, failed_uploads_app, S1.
    split; [exact I1|]. split; [|lia].
    intros u Hu Hc. rewrite I2.
    + apply S2; intros Hin; [apply Hu|apply Hc]; apply in_or_app; now left.
    + intros Hin. apply Hu, in_or_app. now right.
    + intros Hin. apply Hc, in_or_app. now right.
Qed.

Lemma upload_entry_simulates (it : item) :
  forall remote_path c1 c2 s s2,
    walk_agrees session (file_urls base_url it remote_path)
                (collection_urls base_url it remote_path) s s2 ->
    simulates session (file_urls base_url it remote_path)
              (collection_urls base_url it remote_path) s s2 c1 c2
      (upload_entry session base_url it remote_path false c1 s)
      (upload_entry session base_url it remote_path true c2 s2).
Proof.
  induction it as [f|dir_name entries IH|other_name] using item_induction;
    intros remote_path [[sc1 t1] k1] [[sc2 t2] k2] s s2 [Hnd [Hcol Hag]].
  - cbn [file_urls collection_urls] in *. cbn [upload_entry].
    set (remote_file := remote_path ++ "/" ++ name f) in *.
    assert (Hsame := should_upload_file_same f remote_file s s2
                       (Hag _ (or_introl eq_refl))).
    pose proof (should_upload_file_read_only f remote_file s) as Hs.
    pose proof (should_upload_file_read_only f remote_file s2) as Hs2.
    pose proof (should_upload_file_quiet session base_url f remote_file s2) as Q.
    cbn zeta in Q. destruct Q as [Qf _].
    unfold simulates. rewrite !bind_run. cbn [value state events fst snd].
    rewrite Hsame, Hs, Hs2.
    destruct (value (should_upload_file session base_url f remote_file s))
      as [should_upload reason].
    destruct should_upload.
    + rewrite !bind_run. unfold ret, print. cbn [value state events fst snd].
      pose proof (upload_webdav_file_outcome session base_url f remote_file 3 s2)
        as O. cbn zeta in O.
      rewrite !failed_uploads_app, Qf. cbn [failed_uploads app].
      rewrite ?failed_uploads_app. cbn [failed_uploads].
      split; [reflexivity|]. split.
      * intros u Hu Hc. apply upload_webdav_file_frame; [|exact Hc].
        intros ->. apply Hu. now left.
      * destruct O as [[Ov [_ Of]]|[Ov [_ Of]]]; rewrite Ov, Of;
          cbn [success_of total_of skipped_of fst snd]; lia.
    + unfold ret. cbn [value state events fst snd].
      rewrite !failed_uploads_app, Qf.
      cbn [failed_uploads success_of total_of skipped_of fst snd].
      split; [reflexivity|]. split; [reflexivity|lia].
  - cbn [file_urls collection_urls] in *. cbn [upload_entry].
    pose proof (simulates_for_each
                  (fun it c => upload_entry session base_url it
                                 (remote_path ++ "/" ++ dir_name) false c)
                  (fun it c => upload_entry session base_url it
                                 (remote_path ++ "/" ++ dir_name) true c)
                  (fun x => file_urls base_url x (remote_path ++ "/" ++ dir_name))
                  (fun x => collection_urls base_url x
                              (remote_path ++ "/" ++ dir_name))
                  entries) as A.
    assert (HA : Forall (fun it => forall c1 c2 s s2,
      walk_agrees session (file_urls base_url it (remote_path ++ "/" ++ dir_name))
                  (collection_urls base_url it (remote_path ++ "/" ++ dir_name))
                  s s2 ->
      simulates session (file_urls base_url it (remote_path ++ "/" ++ dir_name))
                (collection_urls base_url it (remote_path ++ "/" ++ dir_name))
                s s2 c1 c2
        (upload_entry session base_url it (remote_path ++ "/" ++ dir_name) false c1 s)
        (upload_entry session base_url it (remote_path ++ "/" ++ dir_name) true c2 s2))
      entries).
    { eapply Forall_impl; [|exact IH]. intros it Hit c1 c2 s0 s3 Hw.
      now apply Hit. }
    specialize (A HA (0, 0, 0)%N (0, 0, 0)%N s s2 (conj Hnd (conj Hcol Hag))).
    clear HA IH. unfold simulates in *.
    rewrite !bind_run.
    set (d := for_each _ entries (0%N, 0%N, 0%N) s) in *.
    set (e := for_each _ entries (0%N, 0%N, 0%N) s2) in *.
    destruct A as [A1 [A2 [A3 [A4 A5]]]].
    destruct (value d) as [[d_success d_total] d_skipped].
    destruct (value e) as [[e_success e_total] e_skipped].
    rewrite !bind_run. unfold ret. cbn [value state events fst snd].
    assert (Hw : forall (b : bool) (m : message) (s0 : W),
              state (when b (print m) s0) = s0).
    { intros b m s0. unfold when. destruct b; reflexivity. }
    assert (Hf : forall (b : bool) (s0 : W),
              failed_uploads
                (events (when b (print (Entering_directory dir_name)) s0)) = 0%N).
    { intros b s0. unfold when. destruct b; reflexivity. }
    rewrite !Hw, A1, !failed_uploads_app, Hf.
    cbn [success_of total_of skipped_of fst snd failed_uploads] in *.
    split; [reflexivity|]. split; [exact A2|lia].
  - unfold simulates. cbn. repeat split; lia.
Qed.

End DryRun.

(** *** The small WebDAV server has read-only probes and local writes *)

Lemma strip_prefix_append (b u p : string) :
  Str.strip_prefix b u = Some p -> u = b ++ p.
Proof.
  revert u. induction b as [|c b IH]; intros u H.
  - cbn in H. now injection H as ->.
  - destruct u as [|d u]; [discriminate|]. cbn in H.
    destruct (Ascii.eqb_spec c d) as [->|]; [|discriminate].
    cbn. f_equal. now apply IH.
Qed.

Lemma dav_read_only (base_url : string) : probes_read_only (dav base_url).
Proof.
  intros rq st H. cbn. destruct (Str.strip_prefix base_url (rq_url rq));
    [|reflexivity].
  unfold dav_answer. rewrite H. reflexivity.
Qed.

Lemma find_filter {A} (P Q : A -> bool) (l : list A) :
  (forall x, P x = true -> Q x = true) ->
  find P (filter Q l) = find P l.
Proof.
  intros H. induction l as [|x l IH]; [reflexivity|]. cbn.
  destruct (P x) eqn:Px.
  - rewrite (H x Px). cbn. now rewrite Px.
  - destruct (Q x); cbn; [rewrite Px|]; exact IH.
Qed.

Lemma dav_writes_are_local (base_url : string) : writes_are_local (dav base_url).
Proof.
  intros rq st url Hw Hne. unfold probe_reply. cbn.
  destruct (Str.strip_prefix base_url url) as [p|] eqn:Ep; [|reflexivity].
  destruct (Str.strip_prefix base_url (rq_url rq)) as [q|] eqn:Eq; [|reflexivity].
  assert (Hpq : String.eqb q p = false).
  { apply String.eqb_neq. intros ->. apply Hne.
    apply strip_prefix_append in Ep, Eq. congruence. }
  assert (Hqp : String.eqb p q = false) by (now rewrite String.eqb_sym).
  unfold dav_answer, is_write in *.
  destruct (rq_method rq); try discriminate Hw; cbn [fst snd].
  - destruct (collection_at st q); [reflexivity|].
    destruct (negb _); [reflexivity|].
    destruct (rq_data rq) as [data|]; [|reflexivity]. cbn [fst snd].
    unfold propfind_answer, file_at, collection_at, put_file.
    cbn [files collections find fst].
    rewrite Hpq. rewrite find_filter; [reflexivity|].
    intros [a b] Ha. cbn in *. apply String.eqb_eq in Ha. subst a.
    now rewrite Hqp.
  - destruct (collection_at st q); [reflexivity|].
    destruct (file_at st q); [reflexivity|].
    destruct (collection_at st (remote_dir_of q)); [|reflexivity]. cbn [fst snd].
    unfold propfind_answer, file_at, collection_at. cbn [files collections existsb].
    rewrite Hqp. reflexivity.
Qed.




(** ** The scenarios of the specification *)

(** Remote [/thetawave/data] holds [a.json] (10 bytes) and [sub/b.bin]
    (20 bytes): the download reports 2 successes out of 2 and writes both
    files under [assets/data]. *)
Example download_scenario :
  let base_url := "https://webdav.pcloud.com" in
  let run := download_directory_recursive good_disk 5 (dav base_url) base_url
               "/thetawave/data" ["assets"; "data"] remote_tree in
  value run = Some (2%N, 2%N)
  /\ filter (fun e => match e with Wrote (WriteFile _ _) _ => true | _ => false end)
            (events run)
     = [Wrote (WriteFile ["assets"; "data"; "a.json"] "0123456789") true;
        Wrote (WriteFile ["assets"; "data"; "sub"; "b.bin"] "0123456789abcdefghij")
              true].
Proof. vm_compute. split; reflexivity. Qed.

(** Local [x.png] has no remote counterpart: the dry run prints
    [Would upload: x.png (new file)] and counts one file to upload. *)
Example upload_new_file_scenario :
  let base_url := "https://webdav.pcloud.com" in
  let run := upload_directory_recursive (dav base_url) base_url
               [File (LocalFile "x.png" "PNG")] "/thetawave/media" false
               remote_tree in
  value run = (1%N, 1%N, 0%N)
  /\ printed (events run) = [Would_upload "x.png" "new file"].
Proof. vm_compute. split; reflexivity. Qed.

(** Local and remote [b.bin] have the same size: the file is skipped, in
    both modes, and nothing is sent but the probe. *)
Example upload_unchanged_scenario :
  let base_url := "https://webdav.pcloud.com" in
  let run := upload_directory_recursive (dav base_url) base_url
               [File (LocalFile "b.bin" "ABCDEFGHIJ0123456789")]
               "/thetawave/data/sub" true remote_tree in
  value run = (0%N, 1%N, 1%N)
  /\ requests (events run)
     = [propfind "0" "https://webdav.pcloud.com/thetawave/data/sub/b.bin"].
Proof. vm_compute. split; reflexivity. Qed.

(** The execute run of the local tree against the small server: three files
    stored, each after the [MKCOL] of its parent. *)
Example upload_execute_scenario :
  let base_url := "https://webdav.pcloud.com" in
  let run := upload_directory_recursive (dav base_url) base_url local_tree
               "/thetawave/data" true remote_tree in
  value run = (3%N, 4%N, 1%N)
  /\ map (fun rq => (rq_method rq, rq_url rq))
         (filter is_write (requests (events run)))
     = [(MKCOL, "https://webdav.pcloud.com/thetawave/data");
        (PUT, "https://webdav.pcloud.com/thetawave/data/a.json");
        (MKCOL, "https://webdav.pcloud.com/thetawave/data/sub");
        (PUT, "https://webdav.pcloud.com/thetawave/data/sub/c.txt");
        (MKCOL, "https://webdav.pcloud.com/thetawave/data/new");
        (PUT, "https://webdav.pcloud.com/thetawave/data/new/d.txt")].
Proof. vm_compute. split; reflexivity. Qed.

(** * Further properties *)

(** ** The path codec, again *)

Lemma append_inj_l (a b c : string) : a ++ b = a ++ c -> b = c.
Proof.
  induction a as [|x a IH]; cbn; [auto|]. intros [= H]. now apply IH.
Qed.

Lemma length_append (a b : string) :
  String.length (a ++ b) = (String.length a + String.length b)%nat.
Proof. induction a as [|x a IH]; cbn; [reflexivity|now rewrite IH]. Qed.

Lemma quote_byte_cases (c : ascii) :
  (escaped c = false /\ Urllib.quote_byte "/" c = String c "")
  \/ (escaped c = true
      /\ exists x y, Urllib.quote_byte "/" c = String "%" (String x (String y ""))
                     /\ escaped x = false /\ escaped y = false).
Proof.
  each_byte c;
    first [ left; split; reflexivity
          | right; split; [reflexivity|];
            eexists; eexists; split; [reflexivity|split; reflexivity] ].
Qed.

Lemma length_quote (s : string) :
  String.length (Urllib.quote s "/")
  = (String.length s + 2 * count_escaped s)%nat.
Proof.
  induction s as [|c s IH]; [reflexivity|].
  cbn [Urllib.quote count_escaped String.length]. rewrite length_append, IH.
  destruct (quote_byte_cases c) as [[E ->]|[E [x [y [-> _]]]]]; rewrite E;
    cbn [String.length]; lia.
Qed.

Lemma count_escaped_append (a b : string) :
  count_escaped (a ++ b) = (count_escaped a + count_escaped b)%nat.
Proof. induction a as [|x a IH]; cbn; [reflexivity|rewrite IH; lia]. Qed.

Lemma count_escaped_quote (s : string) :
  count_escaped (Urllib.quote s "/") = count_escaped s.
Proof.
  induction s as [|c s IH]; [reflexivity|].
  cbn [Urllib.quote count_escaped]. rewrite count_escaped_append, IH.
  destruct (quote_byte_cases c) as [[E ->]|[E [x [y [-> [Ex Ey]]]]]]; rewrite E;
    cbn [count_escaped]; rewrite ?E, ?Ex, ?Ey; reflexivity.
Qed.

Lemma quote_unchanged (s : string) :
  count_escaped s = 0%nat -> Urllib.quote s "/" = s.
Proof.
  induction s as [|c s IH]; [reflexivity|].
  cbn [Urllib.quote count_escaped].
  destruct (quote_byte_cases c) as [[E ->]|[E _]]; rewrite E; [|discriminate].
  intros H. cbn. now rewrite IH.
Qed.

(** X1. Two remote paths that start with the separator and differ get two
    different URLs. *)
Theorem get_webdav_url_injective (base_url p q : string) :
  Str.startswith p "/" = true ->
  Str.startswith q "/" = true ->
  get_webdav_url base_url p = get_webdav_url base_url q ->
  p = q.
Proof.
  unfold get_webdav_url. intros -> -> H. apply append_inj_l in H.
  rewrite <- (unquote_quote p), <- (unquote_quote q), H. reflexivity.
Qed.

Lemma get_webdav_url_injective_witness :
  "/thetawave/data/a b" = "/thetawave/data/a b".
Proof.
  apply (get_webdav_url_injective "https://webdav.pcloud.com"
           "/thetawave/data/a b" "/thetawave/data/a b"); reflexivity.
Defined.

(** X2. The codec escapes whatever it is given, its own escapes included:
    encoding an encoded path gives the same text again exactly when the first
    encoding had nothing to escape; otherwise the second result is longer. *)
Theorem quote_twice (p : string) :
  (Urllib.quote (Urllib.quote p "/") "/" = Urllib.quote p "/"
   <-> Urllib.quote p "/" = p)
  /\ (Urllib.quote p "/" <> p ->
      (String.length (Urllib.quote p "/")
       < String.length (Urllib.quote (Urllib.quote p "/") "/"))%nat).
Proof.
  assert (L : Urllib.quote p "/" <> p ->
              (String.length (Urllib.quote p "/")
               < String.length (Urllib.quote (Urllib.quote p "/") "/"))%nat).
  { intros H. rewrite (length_quote (Urllib.quote p "/")), count_escaped_quote.
    destruct (count_escaped p) eqn:E; [|lia].
    contradiction H. now apply quote_unchanged. }
  split; [split|exact L].
  - intros H. destruct (string_dec (Urllib.quote p "/") p) as [E|E]; [exact E|].
    apply L in E. rewrite H in E. lia.
  - intros H. now rewrite !H.
Qed.

Lemma quote_twice_witness :
  (String.length (Urllib.quote "my data" "/")
   < String.length (Urllib.quote (Urllib.quote "my data" "/") "/"))%nat.
Proof. apply (proj2 (quote_twice "my data")). discriminate. Defined.

(** ** The metadata probe, again *)

Lemma find_decisive_after_transient (pre post : list reply) (rp : reply) :
  forallb transient pre = true -> transient rp = false ->
  find (fun r => negb (transient r)) (pre ++ rp :: post)%list = Some rp
  /\ until_decisive (pre ++ rp :: post)%list = (pre ++ [rp])%list.
Proof.
  intros Hpre Hrp. induction pre as [|r pre IH]; cbn.
  - rewrite Hrp. auto.
  - cbn in Hpre. apply andb_true_iff in Hpre. destruct Hpre as [Hr Hpre].
    rewrite Hr. cbn. destruct (IH Hpre) as [-> ->]. auto.
Qed.

(** X3. A probe whose first attempts meet transient failures and whose next
    attempt, still within [max_retries], gets a multi-status or a not-found
    reply returns what that reply says (the record read from the body, or
    absent) and stops there: one request per attempt, one second apart, none
    after the deciding one. *)
Theorem get_remote_file_info_recovers {W} (session : Session W)
    (base_url remote_file : string) (max_retries : nat) (s : W)
    (pre post : list reply) (rp : reply) :
  let rq := propfind "0" (get_webdav_url base_url remote_file) in
  replies session rq max_retries s = (pre ++ rp :: post)%list ->
  forallb transient pre = true ->
  transient rp = false ->
  value (get_remote_file_info session base_url remote_file max_retries s)
  = match rp with
    | Answer r =>
        if (status_code r =? 207)%N then Some (info_of (text r)) else None
    | Raises => None
    end
  /\ events (get_remote_file_info session base_url remote_file max_retries s)
     = backoff_trace rq 1000 (pre ++ [rp]).
Proof.
  intros rq Hrep Hpre Hrp.
  rewrite get_remote_file_info_value, get_remote_file_info_events. fold rq.
  rewrite Hrep. destruct (find_decisive_after_transient pre post rp Hpre Hrp)
    as [Hf Hu].
  unfold probe_result. rewrite Hf, Hu. split; [|reflexivity].
  destruct rp; reflexivity.
Qed.

Lemma get_remote_file_info_recovers_witness :
  let body := "<lp1:getcontentlength>42</lp1:getcontentlength>" in
  value (get_remote_file_info scripted "https://webdav.pcloud.com"
           "/thetawave/data/a.json" 3 [status 503; Raises; multistatus body])
  = Some (RemoteInfo (Some 42%N) None)
  /\ events (get_remote_file_info scripted "https://webdav.pcloud.com"
               "/thetawave/data/a.json" 3 [status 503; Raises; multistatus body])
     = [Sent (propfind "0" "https://webdav.pcloud.com/thetawave/data/a.json")
             (status 503);
        Slept 1000;
        Sent (propfind "0" "https://webdav.pcloud.com/thetawave/data/a.json")
             Raises;
        Slept 1000;
        Sent (propfind "0" "https://webdav.pcloud.com/thetawave/data/a.json")
             (multistatus body)].
Proof.
  intros body.
  apply (get_remote_file_info_recovers scripted "https://webdav.pcloud.com"
           "/thetawave/data/a.json" 3 [status 503; Raises; multistatus body]
           [status 503; Raises] [] (multistatus body)); reflexivity.
Defined.

(** X5. The policy cannot tell a server that fails from a file that is not
    there: when the three attempts of the probe all meet a transient failure,
    [should_upload_file] decides to upload with reason "new file", as it does
    after a not-found reply. *)
Theorem should_upload_when_probe_fails {W} (session : Session W)
    (base_url : string) (f : local_file) (remote_file : string) (s : W) :
  forallb transient
    (replies session (propfind "0" (get_webdav_url base_url remote_file)) 3 s)
  = true ->
  value (should_upload_file session base_url f remote_file s) = (true, "new file")
  /\ length (requests (events (should_upload_file session base_url f remote_file s)))
     = 3%nat.
Proof.
  intros H. rewrite should_upload_file_run. cbn [value events fst snd].
  rewrite get_remote_file_info_value, get_remote_file_info_events.
  set (rq := propfind "0" (get_webdav_url base_url remote_file)) in *.
  assert (Hall : forall l, forallb transient l = true ->
            find (fun rp => negb (transient rp)) l = None /\ until_decisive l = l).
  { induction l as [|rp l IH]; [split; reflexivity|].
    cbn [forallb find until_decisive]. intros Hl.
    apply andb_true_iff in Hl. destruct Hl as [H1 H2]. rewrite H1. cbn [negb].
    destruct (IH H2) as [IH1 IH2]. rewrite IH2. split; [exact IH1|reflexivity]. }
  destruct (Hall _ H) as [H1 H2]. unfold probe_result. rewrite H1, H2.
  split; [reflexivity|].
  rewrite (proj1 (proj2 (backoff_trace_quiet rq 1000 _))), repeat_length.
  apply replies_length.
Qed.

Lemma should_upload_when_probe_fails_witness :
  value (should_upload_file (constant Raises) "https://webdav.pcloud.com"
           (LocalFile "y.txt" "abc") "/thetawave/data/y.txt" tt)
  = (true, "new file").
Proof.
  apply (should_upload_when_probe_fails (constant Raises)
           "https://webdav.pcloud.com" (LocalFile "y.txt" "abc")
           "/thetawave/data/y.txt" tt).
  reflexivity.
Defined.

(** *** Reading the size back *)

Lemma of_uint_digits (d : Decimal.uint) :
  all_chars Str.is_digit (NilEmpty.string_of_uint d) = true.
Proof. induction d; cbn; auto. Qed.

Lemma int_of_digits_of_uint (d : Decimal.uint) (acc : N) :
  Str.int_of_digits acc (NilEmpty.string_of_uint d)
  = (acc * 10 ^ DecimalPos.Unsigned.usize d
     + DecimalPos.Unsigned.of_lu (Decimal.rev d))%N.
Proof.
  revert acc. induction d as [|d IH|d IH|d IH|d IH|d IH|d IH|d IH|d IH|d IH|d IH];
    intros acc; [cbn; lia|..];
    cbn [NilEmpty.string_of_uint Str.int_of_digits]; rewrite IH;
    unfold Decimal.rev at 2; cbn [Decimal.revapp DecimalPos.Unsigned.usize];
    rewrite DecimalPos.Unsigned.of_lu_revapp, N.pow_succ_r';
    cbn [DecimalPos.Unsigned.of_lu];
    match goal with
    | |- context [N_of_ascii ?c] =>
        let v := eval vm_compute in (N_of_ascii c) in
        change (N_of_ascii c) with v
    end;
    set (r := DecimalPos.Unsigned.of_lu (Decimal.rev d));
    set (z := (10 ^ DecimalPos.Unsigned.usize d)%N);
    nia.
Qed.

Lemma int_of_digits_of_N (n : N) : Str.int_of_digits 0 (Str.of_N n) = n.
Proof.
  unfold Str.of_N. rewrite int_of_digits_of_uint, N.mul_0_l, N.add_0_l.
  rewrite <- DecimalPos.Unsigned.of_uint_alt.
  apply DecimalN.Unsigned.of_to.
Qed.

Lemma decimal_at_digit (c : ascii) (t : string) :
  Str.is_digit c = true ->
  Re.decimal_at (String c t) = Some ((N_of_ascii c - 48)%N, String c "", t).
Proof. intros H. each_byte c; try discriminate H; reflexivity. Qed.

Lemma all_decimals_digits (g : string) :
  all_chars Str.is_digit g = true -> all_decimals g = true.
Proof.
  induction g as [|c g IH]; [reflexivity|]. cbn [all_chars].
  intros H. apply andb_true_iff in H. destruct H as [Hc Hg].
  apply (all_decimals_step (N_of_ascii c - 48) (String c "") g);
    [apply decimal_at_digit, Hc|discriminate|apply IH, Hg].
Qed.

Lemma of_decimals_digits (g : string) :
  all_chars Str.is_digit g = true ->
  forall fuel acc, (String.length g <= fuel)%nat ->
    PyInt.of_decimals_fuel fuel acc g = Str.int_of_digits acc g.
Proof.
  induction g as [|c g IH]; intros H fuel acc Hf.
  - destruct fuel; reflexivity.
  - cbn [all_chars] in H. apply andb_true_iff in H. destruct H as [Hc Hg].
    destruct fuel as [|fuel]; [cbn in Hf; lia|].
    cbn [PyInt.of_decimals_fuel Str.int_of_digits].
    rewrite (decimal_at_digit c g Hc). apply IH; [exact Hg|cbn in Hf; lia].
Qed.

(** What [str] wrote, [int] reads back. *)
Lemma of_decimals_of_N (n : N) : PyInt.of_decimals (Str.of_N n) = n.
Proof.
  unfold PyInt.of_decimals.
  rewrite (of_decimals_digits (Str.of_N n) (of_uint_digits _)) by lia.
  apply int_of_digits_of_N.
Qed.

Lemma of_N_not_empty (n : N) : Str.of_N n <> EmptyString.
Proof.
  unfold Str.of_N. destruct n as [|p]; [discriminate|]. cbn.
  pose proof (DecimalPos.Unsigned.to_uint_nonnil p) as H.
  destruct (Pos.to_uint p); [contradiction|discriminate ..].
Qed.

Lemma append_split (o b t r : string) :
  b ++ t = o ++ r ->
  (exists b2, b = o ++ b2)
  \/ (exists x o2, o = b ++ String x o2 /\ t = String x o2 ++ r).
Proof.
  revert b. induction o as [|y o IH]; intros b H.
  - left. now exists b.
  - destruct b as [|z b].
    + right. exists y, o. cbn in *. auto.
    + cbn in H. injection H as -> H. destruct (IH b H) as [[b2 ->]|[x [o2 [-> ->]]]].
      * left. now exists b2.
      * right. now exists x, o2.
Qed.

Lemma lacks_append (c : ascii) (a b : string) :
  lacks c (a ++ b) = lacks c a && lacks c b.
Proof.
  induction a as [|x a IH]; cbn; [reflexivity|].
  rewrite IH. now rewrite andb_assoc.
Qed.

Section FirstMatch.
Variables (c : ascii) (open' : string) (run : string -> string * string)
  (good : string -> bool) (c0 : ascii) (close' : string).
Hypothesis no_overlap : lacks c open' = true.
Hypothesis run_run :
  forall g r, good g = true -> run (g ++ String c0 r) = (g, String c0 r).

Lemma match_here_found (g rest : string) :
  g <> EmptyString -> good g = true ->
  Re.match_here (String c open') run (String c0 close')
    (String c open' ++ g ++ String c0 close' ++ rest) = Some g.
Proof.
  intros Hg Hall. unfold Re.match_here.
  rewrite (proj2 (strip_prefix_spec (String c open') _
                    (g ++ String c0 close' ++ rest)) eq_refl).
  cbn [append].
  rewrite (run_run g (close' ++ rest) Hall).
  destruct g as [|x g]; [contradiction|].
  replace (String c0 (close' ++ rest)) with (String c0 close' ++ rest)
    by reflexivity.
  now rewrite (proj2 (prefix_spec (String c0 close') (String c0 close' ++ rest))
                 (ex_intro _ rest eq_refl)).
Qed.

(** Before the first occurrence of the opening tag nothing matches. *)
Lemma search_skips (before t : string) :
  Str.contains before (String c open') = false ->
  Re.search (String c open') run (String c0 close') (before ++ String c t)
  = Re.search (String c open') run (String c0 close') (String c t).
Proof.
  induction before as [|x b IH]; [reflexivity|].
  cbn [Str.contains]. intros H. apply orb_false_iff in H. destruct H as [Hp Hc].
  cbn [append Re.search].
  assert (Hm : Re.match_here (String c open') run (String c0 close')
                 (String x (b ++ String c t)) = None).
  { unfold Re.match_here.
    destruct (Str.strip_prefix (String c open') (String x (b ++ String c t)))
      as [r|] eqn:E; [|reflexivity].
    exfalso. apply strip_prefix_spec in E. cbn [append] in E.
    injection E as -> E. apply append_split in E.
    destruct E as [[b2 ->]|[y [o2 [-> Ht]]]].
    - assert (String.prefix (String c open') (String c (open' ++ b2)) = true)
        by (apply prefix_spec; now exists b2).
      congruence.
    - rewrite lacks_append in no_overlap. cbn [lacks append] in *.
      injection Ht as <- _. rewrite Ascii.eqb_refl in no_overlap.
      cbn in no_overlap. rewrite andb_false_r in no_overlap. discriminate. }
  rewrite Hm. now apply IH.
Qed.

Lemma search_first (before g rest : string) :
  Str.contains before (String c open') = false ->
  g <> EmptyString -> good g = true ->
  Re.search (String c open') run (String c0 close')
    (before ++ String c open' ++ g ++ String c0 close' ++ rest) = Some g.
Proof.
  intros Hb Hg Hall. cbn [append]. rewrite (search_skips _ _ Hb).
  pose proof (match_here_found g rest Hg Hall) as H. cbn [append] in H.
  cbn [Re.search]. now rewrite H.
Qed.

End FirstMatch.

(** X4. When the multi-status body that decides the probe holds, as its first
    content-length element, the decimal writing of a number, the probe
    returns that number as the size: what [str] wrote, [int] reads back. The
    policy then answers "unchanged" for a local file of that many bytes. *)
Theorem get_remote_file_info_reads_size {W} (session : Session W)
    (base_url remote_file : string) (s : W) (resp : response)
    (before rest : string) (n : N) :
  find (fun rp => negb (transient rp))
       (replies session (propfind "0" (get_webdav_url base_url remote_file)) 3 s)
  = Some (Answer resp) ->
  status_code resp = 207%N ->
  text resp = before ++ "<lp1:getcontentlength>" ++ Str.of_N n
              ++ "</lp1:getcontentlength>" ++ rest ->
  Str.contains before "<lp1:getcontentlength>" = false ->
  (exists info,
     value (get_remote_file_info session base_url remote_file 3 s) = Some info
     /\ size info = Some n)
  /\ forall f, st_size f = n ->
       value (should_upload_file session base_url f remote_file s)
       = (false, "unchanged").
Proof.
  intros Hfind Hstatus Htext Hbefore.
  assert (Hv : value (get_remote_file_info session base_url remote_file 3 s)
               = Some (RemoteInfo (Some n) (Re.getlastmodified (text resp)))).
  { rewrite get_remote_file_info_value. unfold probe_result.
    rewrite Hfind, Hstatus. cbn [N.eqb Pos.eqb]. unfold info_of.
    unfold Re.getcontentlength at 1. rewrite Htext.
    rewrite (search_first "<" "lp1:getcontentlength>" Re.decimals all_decimals
               "<" "/lp1:getcontentlength>" eq_refl
               (fun g r Hg => decimals_run g "<" r Hg (no_decimal_at_lt r))
               before (Str.of_N n) rest Hbefore (of_N_not_empty n)
               (all_decimals_digits _ (of_uint_digits _))).
    cbn [option_map]. now rewrite of_decimals_of_N. }
  split.
  - eexists. split; [exact Hv|reflexivity].
  - intros f Hf. rewrite should_upload_file_run. cbn [value fst].
    rewrite Hv. cbn [size size_differs]. rewrite Hf, N.eqb_refl. reflexivity.
Qed.

Lemma get_remote_file_info_reads_size_witness :
  let body := "<D:response><D:href>/thetawave/data/y.txt</D:href>"
              ++ "<lp1:getcontentlength>" ++ Str.of_N 1205
              ++ "</lp1:getcontentlength>" ++ "</D:response>" in
  exists info,
    value (get_remote_file_info (constant (multistatus body))
             "https://webdav.pcloud.com" "/thetawave/data/y.txt" 3 tt)
    = Some info
    /\ size info = Some 1205%N.
Proof.
  intros body.
  apply (get_remote_file_info_reads_size (constant (multistatus body))
           "https://webdav.pcloud.com" "/thetawave/data/y.txt" tt
           (Response 207 None body)
           "<D:response><D:href>/thetawave/data/y.txt</D:href>"
           "</D:response>" 1205%N); reflexivity.
Defined.

(** ** The transfer primitives, again *)

Section Transfers.
Context {W : Type} (disk : disk_op -> W -> bool * W) (session : Session W).

Lemma upload_loop_shape url f max_retries n attempt (s : W) :
  let run := for_range n attempt (upload_attempt session url f max_retries)
               (print (Failed_to_upload (name f) max_retries) ;; ret false) s in
  exists k, (k <= opened f attempt n)%nat
    /\ requests (events run) = repeat (put url (content f)) k
    /\ ((value run = true
         /\ exists pre rp, events run = (pre ++ [Sent (put url (content f)) rp])%list
                           /\ stored rp = true /\ transferred pre = 0%N)
        \/ (value run = false /\ k = opened f attempt n)).
Proof.
  revert attempt s. unfold opened.
  induction n as [|n IH]; intros attempt s.
  - exists 0%nat. cbn. auto.
  - cbn [for_range seq filter]. rewrite bind_run.
    specialize (IH (S attempt)
                  (state (upload_attempt session url f max_retries attempt s))).
    pose proof (upload_attempt_cases session url f max_retries attempt s) as C.
    cbn zeta in C.
    destruct C as [[Ho [Hst Hrun]]|[[Ho [Hst [c Hrun]]]|[Ho Hrun]]];
      rewrite Ho.
    + rewrite Hrun. cbn [value state events fst snd ret app].
      exists 1%nat. cbn [length]. split; [lia|]. split; [reflexivity|]. left.
      split; [reflexivity|].
      exists [], (fst (send session (put url (content f)) s)). auto.
    + destruct IH as [k [Hk [IHr IHc]]]. rewrite Hrun in *.
      cbn [value state events fst snd] in *.
      exists (S k). cbn [length]. split; [lia|].
      cbn [app requests]. rewrite requests_app, IHr.
      rewrite (proj2 (proj2 (upload_failed_run (name f) c max_retries
                               attempt _))).
      split; [reflexivity|].
      destruct IHc as [[IHv [pre [rp [He [Hst' Hpre]]]]]|[IHv ->]].
      * left. split; [exact IHv|].
        exists (Sent (put url (content f)) (fst (send session (put url (content f)) s))
                :: events (upload_failed (name f) c max_retries attempt
                             (snd (send session (put url (content f)) s)))
                ++ pre)%list, rp.
        rewrite He. split; [now rewrite app_assoc|]. split; [exact Hst'|].
        cbn [transferred is_put put rq_method andb]. rewrite Hst.
        rewrite transferred_app, Hpre.
        now rewrite (proj1 (upload_failed_quiet (name f) c max_retries
                              attempt _)).
      * right. auto.
    + destruct IH as [k [Hk [IHr IHc]]]. rewrite Hrun in *.
      destruct (upload_failed_run (name f) Exception max_retries attempt s)
        as [Fv [Fs Fr]].
      rewrite Fv, Fs in *. cbn [value state events fst snd] in *.
      exists k. split; [exact Hk|].
      rewrite requests_app, Fr, IHr. split; [reflexivity|].
      destruct IHc as [[IHv [pre [rp [He [Hst' Hpre]]]]]|[IHv ->]].
      * left. split; [exact IHv|].
        exists (events (upload_failed (name f) Exception max_retries attempt s)
                ++ pre)%list, rp.
        rewrite He, app_assoc, transferred_app, Hpre.
        now rewrite (proj1 (upload_failed_quiet (name f) Exception
                              max_retries attempt s)).
      * right. auto.
Qed.

Lemma create_remote_directory_run base_url remote_file (s : W) :
  requests (events (create_remote_directory session base_url remote_file s))
  = map mkcol (collection_url base_url remote_file)
  /\ transferred (events (create_remote_directory session base_url remote_file s))
     = 0%N.
Proof.
  unfold create_remote_directory, collection_url, remote_dir_of.
  destruct (Str.join "/" (removelast (Str.split "/" remote_file)));
    [split; reflexivity|].
  rewrite bind_run, request_run. split; reflexivity.
Qed.

(** What an upload sends: the [MKCOL] of the parent, if there is one, then
    the same [PUT] at most [max_retries] times. *)
Lemma upload_webdav_file_requests base_url f remote_file max_retries (s : W) :
  exists k, (k <= max_retries)%nat
    /\ requests (events (upload_webdav_file session base_url f remote_file
                           max_retries s))
       = (map mkcol (collection_url base_url remote_file)
          ++ repeat (put (get_webdav_url base_url remote_file) (content f)) k)%list.
Proof.
  unfold upload_webdav_file. rewrite events_bind, requests_app.
  rewrite (proj1 (create_remote_directory_run base_url remote_file s)).
  destruct (upload_loop_shape (get_webdav_url base_url remote_file) f max_retries
              max_retries 0
              (state (create_remote_directory session base_url remote_file s)))
    as [k [Hk [Hr _]]].
  pose proof (opened_le f 0 max_retries) as Hle.
  exists k. rewrite Hr. split; [lia|reflexivity].
Qed.

End Transfers.

(** X6. An upload asks once for the parent collection, whatever comes back,
    then tries [max_retries] times at most to send the file; an attempt sends
    its [PUT] when the local file opens, and fails without sending anything
    when it does not. Either one [PUT] is accepted, it is the last thing the
    upload does and no earlier one was accepted, and the result is [True]; or
    every attempt fails, the result is [False], and the [PUT] was sent, and
    turned down, at each of the attempts at which the file opened: all
    [max_retries] of them for a file that always opens, none for a file that
    never does. Every [PUT] goes to the URL of the remote file with the
    content of the local file. *)
Theorem upload_webdav_file_once {W} (session : Session W) (base_url : string)
    (f : local_file) (remote_file : string) (max_retries : nat) (s : W) :
  let rq := put (get_webdav_url base_url remote_file) (content f) in
  let run := upload_webdav_file session base_url f remote_file max_retries s in
  exists k, (k <= max_retries)%nat
    /\ requests (events run)
       = (map mkcol (collection_url base_url remote_file) ++ repeat rq k)%list
    /\ ((value run = true
         /\ exists pre rp, events run = (pre ++ [Sent rq rp])%list
                           /\ stored rp = true /\ transferred pre = 0%N)
        \/ (value run = false
            /\ k = opened f 0 max_retries
            /\ failed_attempts (events run) = max_retries
            /\ transferred (events run) = 0%N))
    /\ ((forall a, (a < max_retries)%nat -> opens f a = true) ->
        opened f 0 max_retries = max_retries)
    /\ ((forall a, (a < max_retries)%nat -> opens f a = false) ->
        k = 0%nat /\ value run = false).
Proof.
  intros rq run. subst run. unfold upload_webdav_file.
  rewrite value_bind, events_bind, requests_app.
  destruct (create_remote_directory_run session base_url remote_file s)
    as [Hc Ht].
  rewrite Hc.
  destruct (upload_loop_shape session (get_webdav_url base_url remote_file) f
              max_retries max_retries 0
              (state (create_remote_directory session base_url remote_file s)))
    as [k [Hk [Hr Hcase]]].
  pose proof (opened_le f 0 max_retries) as Hle.
  exists k. split; [lia|]. rewrite Hr. split; [reflexivity|].
  assert (Hnone : (forall a, (a < max_retries)%nat -> opens f a = false) ->
                  opened f 0 max_retries = 0%nat).
  { intros Hno. unfold opened.
    assert (G : forall n attempt,
               (attempt + n <= max_retries)%nat ->
               filter (opens f) (seq attempt n) = []).
    { induction n as [|n IHn]; intros attempt Hb; [reflexivity|].
      cbn [seq filter]. rewrite Hno by lia. apply IHn. lia. }
    now rewrite (G max_retries 0%nat) by lia. }
  split; [|split].
  - destruct Hcase as [[Hv [pre [rp [He [Hst Hpre]]]]]|[Hv ->]].
    + left. split; [exact Hv|].
      exists (events (create_remote_directory session base_url remote_file s)
              ++ pre)%list, rp.
      rewrite He, app_assoc, transferred_app, Ht, Hpre. auto.
    + right. split; [exact Hv|]. split; [reflexivity|].
      pose proof (upload_loop_outcome session (get_webdav_url base_url remote_file)
                    f max_retries max_retries 0
                    (state (create_remote_directory session base_url remote_file s)))
        as O.
      cbn zeta in O.
      pose proof (for_range_failed
                    (upload_attempt session (get_webdav_url base_url remote_file)
                       f max_retries)
                    (print (Failed_to_upload (name f) max_retries) ;; ret false)
                    (fun v => v = true) (fun v => v = false)
                    (upload_attempt_failed session _ f max_retries)
                    (fun _ => conj eq_refl eq_refl) max_retries 0%nat
                    (state (create_remote_directory session base_url
                              remote_file s))) as Hf.
      rewrite failed_attempts_app, transferred_app, Ht.
      assert (Hmk : failed_attempts
                      (events (create_remote_directory session base_url
                                 remote_file s)) = 0%nat).
      { unfold create_remote_directory. destruct (Str.join _ _); [reflexivity|].
        rewrite events_bind, request_run. reflexivity. }
      rewrite Hmk. split.
      * destruct Hf as [[Hf _]|[_ Hf]]; [exact Hf|congruence].
      * destruct O as [[Ov _]|[_ [Ot _]]]; [congruence|]. rewrite Ot. reflexivity.
  - intros Hall. apply opened_all. intros a Ha. apply Hall. lia.
  - intros Hno. rewrite (Hnone Hno) in Hk.
    assert (k = 0%nat) by lia. split; [assumption|].
    destruct Hcase as [[Hv [pre [rp [He _]]]]|[Hv _]]; [|exact Hv].
    exfalso. subst k. cbn [repeat] in Hr.
    rewrite He, requests_app in Hr. cbn [requests] in Hr.
    destruct (requests pre); discriminate Hr.
Qed.

Lemma upload_webdav_file_once_witness :
  let locked := LocalFileOpening "a.json" "{}" (fun _ => false) in
  let run := upload_webdav_file (constant (status 201))
               "https://webdav.pcloud.com" locked "/thetawave/data/a.json" 3 tt in
  value run = false
  /\ requests (events run) = [mkcol "https://webdav.pcloud.com/thetawave/data"].
Proof.
  intros locked run.
  destruct (upload_webdav_file_once (constant (status 201))
              "https://webdav.pcloud.com" locked "/thetawave/data/a.json" 3 tt)
    as [k [_ [Hr [_ [_ Hno]]]]].
  destruct (Hno (fun _ _ => eq_refl)) as [-> Hv].
  split; [exact Hv|exact Hr].
Defined.

(** A file that opens from the second attempt on, and a server that takes
    it: one attempt fails without a request, the next one sends the [PUT]. *)
Example upload_after_failed_open :
  let f := LocalFileOpening "a.json" "{}" (fun k => (0 <? k)%nat) in
  let run := upload_webdav_file (constant (status 201))
               "https://webdav.pcloud.com" f "/thetawave/data/a.json" 3 tt in
  value run = true
  /\ requests (events run)
     = [mkcol "https://webdav.pcloud.com/thetawave/data";
        put "https://webdav.pcloud.com/thetawave/data/a.json" "{}"]
  /\ failed_attempts (events run) = 1%nat.
Proof. vm_compute. auto. Qed.

Lemma written_app (a b : list event) :
  written (a ++ b) = (written a ++ written b)%list.
Proof.
  induction a as [|e a IH]; [reflexivity|].
  destruct e as [| | |[p|p c] [|]]; cbn [written app]; rewrite IH; reflexivity.
Qed.

Lemma disk_ops_app (a b : list event) :
  disk_ops (a ++ b) = (disk_ops a ++ disk_ops b)%list.
Proof.
  induction a as [|e a IH]; [reflexivity|].
  destruct e; cbn [disk_ops app]; rewrite IH; reflexivity.
Qed.

Lemma downloads_announced_app (a b : list event) :
  downloads_announced (a ++ b)
  = (downloads_announced a + downloads_announced b)%N.
Proof.
  induction a as [|e a IH]; [reflexivity|].
  destruct e as [| |m|]; try destruct m; cbn [downloads_announced app];
    rewrite IH; lia.
Qed.

Section Download.
Context {W : Type} (disk : disk_op -> W -> bool * W) (session : Session W).

Lemma download_failed_quiet remote_file c max_retries attempt (s : W) :
  value (download_failed remote_file c max_retries attempt s) = None
  /\ written (events (download_failed remote_file c max_retries attempt s)) = []
  /\ disk_ops (events (download_failed remote_file c max_retries attempt s)) = []
  /\ downloads_announced
       (events (download_failed remote_file c max_retries attempt s)) = 0%N.
Proof.
  unfold download_failed, retry_in_2_seconds, when.
  destruct (attempt <? max_retries - 1)%nat; cbn; auto.
Qed.

(** One attempt of a download: either it ends with the write of the body of
    the 200 reply it got, or it writes nothing. *)
Lemma download_attempt_outcome url remote_file local_file max_retries attempt
    (s : W) :
  let run := download_attempt disk session url remote_file local_file
               max_retries attempt s in
  ((exists pre resp,
      value run = Some true
      /\ events run = (pre ++ [Wrote (WriteFile local_file (text resp)) true])%list
      /\ In (Sent (get url) (Answer resp)) pre
      /\ status_code resp = 200%N
      /\ written pre = [])
   \/ (value run = None /\ written (events run) = []))
  /\ Forall (for_download_of local_file) (disk_ops (events run))
  /\ downloads_announced (events run) = 0%N.
Proof.
  intros run. subst run. unfold download_attempt.
  rewrite bind_run, request_run. cbn [value state events fst snd].
  set (s1 := snd (send session (get url) s)).
  destruct (fst (send session (get url) s)) as [r|] eqn:Erp.
  2:{ destruct (download_failed_quiet remote_file Exception max_retries attempt s1)
        as [Fv [Fw [Fd Fa]]].
      cbn [app written disk_ops downloads_announced]. rewrite Fv, Fw, Fd, Fa.
      split; [right; auto|split; [constructor|reflexivity]]. }
  destruct (status_code r =? 200)%N eqn:E200.
  2:{ destruct (download_failed_quiet remote_file (Status (status_code r))
                  max_retries attempt s1) as [Fv [Fw [Fd Fa]]].
      cbn [app written disk_ops downloads_announced]. rewrite Fv, Fw, Fd, Fa.
      split; [right; auto|split; [constructor|reflexivity]]. }
  apply N.eqb_eq in E200.
  rewrite bind_run, disk_do_run. cbn [value state events fst snd].
  set (s2 := snd (disk (Mkdir (parent local_file)) s1)).
  destruct (fst (disk (Mkdir (parent local_file)) s1)).
  2:{ destruct (download_failed_quiet remote_file Exception max_retries attempt s2)
        as [Fv [Fw [Fd Fa]]].
      cbn [app written disk_ops downloads_announced]. rewrite Fv, Fw, Fd, Fa.
      split; [right; auto|split; [repeat constructor|reflexivity]]. }
  assert (Hwrite : forall (head : list event) (s3 : W),
    written head = [] -> downloads_announced head = 0%N ->
    disk_ops head = [] ->
    let w := write_content disk remote_file local_file (text r)
               max_retries attempt s3 in
    let all := (Sent (get url) (Answer r)
                  :: (Wrote (Mkdir (parent local_file)) true :: head)
                  ++ events w)%list in
    ((exists pre resp,
        value w = Some true
        /\ all = (pre ++ [Wrote (WriteFile local_file (text resp)) true])%list
        /\ In (Sent (get url) (Answer resp)) pre
        /\ status_code resp = 200%N /\ written pre = [])
     \/ (value w = None /\ written all = []))
    /\ Forall (for_download_of local_file) (disk_ops all)
    /\ downloads_announced all = 0%N).
  { intros head s3 Hhead Hann Hops w all. subst w all.
    unfold write_content. rewrite bind_run, disk_do_run.
    cbn [value state events fst snd].
    destruct (fst (disk (WriteFile local_file (text r)) s3)).
    - cbn [ret value events fst snd]. rewrite app_nil_r.
      split; [left|split].
      + exists (Sent (get url) (Answer r)
                :: Wrote (Mkdir (parent local_file)) true :: head), r.
        split; [reflexivity|]. split; [reflexivity|].
        split; [now left|]. split; [exact E200|]. cbn [written]. exact Hhead.
      + cbn [app disk_ops]. rewrite disk_ops_app, Hops. cbn [disk_ops app].
        repeat constructor.
      + cbn [app downloads_announced]. rewrite downloads_announced_app, Hann.
        reflexivity.
    - destruct (download_failed_quiet remote_file Exception max_retries attempt
                  (snd (disk (WriteFile local_file (text r)) s3)))
        as [Fv [Fw [Fd Fa]]].
      rewrite Fv. cbn [app written disk_ops downloads_announced].
      rewrite !written_app, !disk_ops_app, !downloads_announced_app,
        Hhead, Hann, Hops.
      cbn [written disk_ops downloads_announced app]. rewrite Fw, Fd, Fa.
      split; [right; auto|split; [repeat constructor|reflexivity]]. }
  destruct (content_length r) as [[|c fs]|].
  - apply (Hwrite [] s2); reflexivity.
  - destruct (PyInt.in_megabytes (String c fs)).
    + rewrite bind_run. cbn [print value state events fst snd].
      apply (Hwrite [Printed (Size_MB (String c fs))] s2); reflexivity.
    + destruct (download_failed_quiet remote_file Exception max_retries attempt s2)
        as [Fv [Fw [Fd Fa]]].
      cbn [app written disk_ops downloads_announced]. rewrite Fv, Fw, Fd, Fa.
      split; [right; auto|split; [repeat constructor|reflexivity]].
  - apply (Hwrite [] s2); reflexivity.
Qed.

Lemma download_loop_outcome url remote_file local_file max_retries n attempt
    (s : W) :
  let run := for_range n attempt
               (download_attempt disk session url remote_file local_file
                  max_retries)
               (print (Failed_to_download remote_file max_retries) ;; ret false)
               s in
  ((exists pre resp,
      value run = true
      /\ events run = (pre ++ [Wrote (WriteFile local_file (text resp)) true])%list
      /\ In (Sent (get url) (Answer resp)) pre
      /\ status_code resp = 200%N
      /\ written pre = [])
   \/ (value run = false /\ written (events run) = []))
  /\ Forall (for_download_of local_file) (disk_ops (events run))
  /\ downloads_announced (events run) = 0%N.
Proof.
  revert attempt s. induction n as [|n IH]; intros attempt s run; subst run.
  - cbn. split; [right; auto|split; [constructor|reflexivity]].
  - cbn [for_range]. rewrite bind_run.
    pose proof (download_attempt_outcome url remote_file local_file max_retries
                  attempt s) as A.
    cbn zeta in A. destruct A as [A [Aops Aann]].
    specialize (IH (S attempt)
                  (state (download_attempt disk session url remote_file
                            local_file max_retries attempt s))).
    cbn zeta in IH. destruct IH as [IH [IHops IHann]].
    destruct A as [[pre [resp [Av [Ae [Ain [A200 Aw]]]]]]|[Av Aw]]; rewrite Av;
      cbn [value state events fst snd ret].
    + rewrite app_nil_r. split; [left; exists pre, resp; auto|].
      split; [exact Aops|exact Aann].
    + rewrite disk_ops_app, downloads_announced_app, Aann, IHann.
      split; [|split; [apply Forall_app; auto|reflexivity]].
      destruct IH as [[pre [resp [Iv [Ie [Iin [I200 Iw]]]]]]|[Iv Iw]].
      * left.
        exists (events (download_attempt disk session url remote_file local_file
                          max_retries attempt s) ++ pre)%list, resp.
        rewrite Ie, app_assoc, written_app, Aw, Iw.
        repeat split; auto. apply in_or_app. now right.
      * right. rewrite written_app, Aw, Iw. auto.
Qed.

(** A download that never gets a 200 leaves the disk alone. *)
Lemma download_loop_untouched url remote_file local_file max_retries (n : nat) :
  forall attempt s,
    forallb (fun rp => negb (has_status 200 rp))
            (replies session (get url) n s) = true ->
    disk_ops (events (for_range n attempt
                        (download_attempt disk session url remote_file
                           local_file max_retries)
                        (print (Failed_to_download remote_file max_retries) ;;
                         ret false) s)) = [].
Proof.
  induction n as [|n IH]; intros attempt s Hall; [reflexivity|].
  cbn [replies] in Hall. cbn [for_range].
  destruct (send session (get url) s) as [rp s'] eqn:Esend.
  cbn [forallb] in Hall. apply andb_true_iff in Hall. destruct Hall as [Hrp Hall].
  assert (Hrej : negb (has_status 200 (fst (send session (get url) s))) = true)
    by now rewrite Esend.
  destruct (download_attempt_rejected disk session url remote_file local_file
              max_retries attempt s Hrej) as [Hv [Hs _]].
  rewrite Esend in Hs. cbn [snd] in Hs.
  rewrite events_bind, disk_ops_app, Hv, Hs, (IH (S attempt) s' Hall), app_nil_r.
  unfold download_attempt. rewrite events_bind, request_run, disk_ops_app.
  cbn [value state events fst snd disk_ops app].
  rewrite Esend in *. cbn [fst snd] in *.
  destruct rp as [r|]; cbn [has_status] in Hrp.
  - destruct (status_code r =? 200)%N; [discriminate|].
    apply download_failed_quiet.
  - apply download_failed_quiet.
Qed.

End Download.

(** X8. A download that returns [True] has ended with the write, to the local
    file, of the body of a 200 reply it received, and no write went through
    before; one that returns [False] has completed no write: whatever write
    it tried, after a 200, failed -- the local file may then be left
    truncated or partly written. A download that never receives a 200 does
    not touch the disk at all. Either way the disk is touched only to create
    the parent of the local file and to write that file. *)
Theorem download_webdav_file_writes {W} (disk : disk_op -> W -> bool * W)
    (session : Session W) (base_url remote_file : string) (local_file : Path)
    (max_retries : nat) (s : W) :
  let rq := get (get_webdav_url base_url remote_file) in
  let run := download_webdav_file disk session base_url remote_file local_file
               max_retries s in
  ((exists pre resp,
      value run = true
      /\ events run = (pre ++ [Wrote (WriteFile local_file (text resp)) true])%list
      /\ In (Sent rq (Answer resp)) pre
      /\ status_code resp = 200%N
      /\ written pre = [])
   \/ (value run = false
       /\ written (events run) = []
       /\ forall op, In (Wrote op true) (events run) ->
                     op = Mkdir (parent local_file)))
  /\ Forall (for_download_of local_file) (disk_ops (events run))
  /\ (forallb (fun rp => negb (has_status 200 rp))
              (replies session rq max_retries s) = true ->
      value run = false /\ disk_ops (events run) = []).
Proof.
  intros rq run. subst run rq. unfold download_webdav_file.
  pose proof (download_loop_outcome disk session
                (get_webdav_url base_url remote_file) remote_file local_file
                max_retries max_retries 0 s) as H.
  cbn zeta in H. destruct H as [H1 [H2 _]].
  split; [|split; [exact H2|]].
  - destruct H1 as [H1|[Hv Hw]]; [left; exact H1|right].
    split; [exact Hv|]. split; [exact Hw|].
    intros op Hin. rewrite Forall_forall in H2.
    assert (Hop : In op (disk_ops
      (events (for_range max_retries 0
                 (download_attempt disk session
                    (get_webdav_url base_url remote_file) remote_file local_file
                    max_retries)
                 (print (Failed_to_download remote_file max_retries) ;; ret false)
                 s)))).
    { revert Hin. generalize (events (for_range max_retries 0
                 (download_attempt disk session
                    (get_webdav_url base_url remote_file) remote_file local_file
                    max_retries)
                 (print (Failed_to_download remote_file max_retries) ;; ret false)
                 s)).
      intros tr. induction tr as [|e tr IH]; [contradiction|].
      intros [->|Hin]; [now left|].
      destruct e; cbn [disk_ops]; try (now apply IH). right. now apply IH. }
    specialize (H2 op Hop). destruct op as [p|p c]; cbn in H2; [now subst|].
    exfalso. revert Hw Hin.
    generalize (events (for_range max_retries 0
                 (download_attempt disk session
                    (get_webdav_url base_url remote_file) remote_file local_file
                    max_retries)
                 (print (Failed_to_download remote_file max_retries) ;; ret false)
                 s)).
    intros tr. induction tr as [|e tr IH]; [contradiction|].
    intros Hw [->|Hin]; [discriminate Hw|].
    apply IH; [|exact Hin].
    destruct e as [| | |[q|q d] [|]]; cbn [written] in Hw;
      try exact Hw; discriminate Hw.
  - intros Hall. split.
    + destruct (for_range_exhausted session
                  (download_attempt disk session
                     (get_webdav_url base_url remote_file)
                     remote_file local_file max_retries)
                  (print (Failed_to_download remote_file max_retries) ;; ret false)
                  (get (get_webdav_url base_url remote_file))
                  (fun rp => negb (has_status 200 rp))
                  (download_attempt_rejected disk session _ remote_file local_file
                     max_retries)
                  max_retries 0%nat s Hall) as [Hv _].
      rewrite Hv. reflexivity.
    + now apply download_loop_untouched.
Qed.

Lemma download_webdav_file_writes_witness :
  let run := download_webdav_file good_disk (constant (status 404))
               "https://webdav.pcloud.com" "/thetawave/data/a.json"
               ["assets"; "data"; "a.json"] 3 tt in
  value run = false /\ disk_ops (events run) = [].
Proof.
  apply (proj2 (proj2 (download_webdav_file_writes good_disk
                         (constant (status 404)) "https://webdav.pcloud.com"
                         "/thetawave/data/a.json" ["assets"; "data"; "a.json"]
                         3 tt))).
  reflexivity.
Defined.

(** A disk on which directories can be made and no file written: the
    download of a file the server has gives up after three writes that
    failed. *)
Example download_on_full_disk :
  let full_disk := fun (op : disk_op) (s : unit) =>
                     (match op with Mkdir _ => true | WriteFile _ _ => false end,
                      s) in
  let run := download_webdav_file full_disk
               (constant (Answer (Response 200 (Some "2") "{}")))
               "https://webdav.pcloud.com" "/thetawave/data/a.json"
               ["assets"; "data"; "a.json"] 3 tt in
  value run = false
  /\ written (events run) = []
  /\ filter (fun op => match op with WriteFile _ _ => true | Mkdir _ => false end)
            (disk_ops (events run))
     = repeat (WriteFile ["assets"; "data"; "a.json"] "{}") 3.
Proof. vm_compute. auto. Qed.

(** ** The directory lister, again *)

Lemma split_pieces_no_slash (s : string) :
  Forall (fun w => no_slash w = true) (Str.split "/" s).
Proof.
  induction s as [|c s IH]; [repeat constructor|].
  cbn [Str.split]. destruct (Ascii.eqb c "/") eqn:E.
  - constructor; [reflexivity|exact IH].
  - destruct (Str.split "/" s) as [|w ws]; [repeat constructor; cbn; now rewrite E|].
    inversion IH; subst. constructor; [|assumption].
    cbn. rewrite E. assumption.
Qed.

Lemma last_piece_no_slash (s : string) :
  no_slash (last (Str.split "/" s) "") = true.
Proof.
  pose proof (split_pieces_no_slash s) as H.
  induction H as [|w ws Hw _ IH]; [reflexivity|].
  destruct ws; [exact Hw|exact IH].
Qed.

Lemma for_range_value {W A} (P : A -> Prop) (body : nat -> M W (option A))
    (orelse : M W A) :
  (forall attempt s v, value (body attempt s) = Some v -> P v) ->
  (forall s, P (value (orelse s))) ->
  forall n attempt s, P (value (for_range n attempt body orelse s)).
Proof.
  intros Hbody Horelse n. induction n as [|n IH]; intros attempt s.
  - apply Horelse.
  - cbn [for_range]. rewrite value_bind.
    destruct (value (body attempt s)) as [v|] eqn:E.
    + cbn. eapply Hbody. exact E.
    + apply IH.
Qed.

Lemma list_block_names {W} remote_path block (acc : list string * list string)
    (s : W) :
  Forall one_level (fst acc) -> Forall one_level (snd acc) ->
  Forall one_level (fst (value (list_block remote_path block acc s)))
  /\ Forall one_level (snd (value (list_block remote_path block acc s))).
Proof.
  destruct acc as [files directories]. cbn [fst snd]. intros Hf Hd.
  unfold list_block.
  destruct (Re.href block) as [href|]; [|cbn; auto].
  destruct (_ || _); [cbn; auto|].
  destruct (Str.contains block "<D:collection/>").
  - pose proof (last_piece_no_slash (Str.rstrip "/" (Urllib.unquote href))) as Hn.
    destruct (last _ _) as [|c r] eqn:El; [cbn; auto|].
    rewrite value_bind. cbn. split; [exact Hf|].
    apply Forall_app. split; [exact Hd|].
    repeat constructor; [discriminate|exact Hn].
  - pose proof (last_piece_no_slash (Urllib.unquote href)) as Hn.
    destruct (last _ _) as [|c r] eqn:El; [cbn; auto|].
    destruct (negb _); [|cbn; auto].
    rewrite value_bind. cbn. split; [|exact Hd].
    apply Forall_app. split; [exact Hf|].
    repeat constructor; [discriminate|exact Hn].
Qed.

(** X9. Whatever the server answers, every file name and every directory name
    the lister returns is non-empty and holds no separator: a listed name
    always denotes an entry one level below the listed directory. *)
Theorem list_webdav_directory_names {W} (session : Session W)
    (base_url remote_path : string) (max_retries : nat) (s : W) :
  let run := list_webdav_directory session base_url remote_path max_retries s in
  Forall one_level (fst (value run)) /\ Forall one_level (snd (value run)).
Proof.
  intros run. subst run. unfold list_webdav_directory.
  apply (for_range_value
           (fun v => Forall one_level (fst v) /\ Forall one_level (snd v))).
  - intros attempt s0 v. unfold list_attempt.
    rewrite value_bind, request_run. cbn [value state fst snd].
    destruct (fst (send session _ s0)) as [r|].
    + destruct (status_code r =? 207)%N.
      * rewrite value_bind. cbn [ret value fst]. intros [= <-].
        generalize (tl (Str.split_str_aux "<D:response" 0 (text r))).
        generalize (snd (send session
                           (propfind "1" (get_webdav_url base_url remote_path)) s0)).
        intros s1 blocks.
        assert (G : forall acc : list string * list string,
                  Forall one_level (fst acc) -> Forall one_level (snd acc) ->
                  forall s2 : W,
                  Forall one_level
                    (fst (value (for_each (list_block remote_path) blocks acc s2)))
                  /\ Forall one_level
                       (snd (value (for_each (list_block remote_path) blocks
                                      acc s2)))).
        { induction blocks as [|b blocks IH]; intros acc Hf Hd s2; [cbn; auto|].
          cbn [for_each]. rewrite value_bind.
          destruct (list_block_names remote_path b acc s2 Hf Hd) as [H1 H2].
          now apply IH. }
        apply G; constructor.
      * rewrite !value_bind. cbn. discriminate.
    + rewrite !value_bind. cbn. discriminate.
  - intros s0. rewrite value_bind. cbn. split; constructor.
Qed.

(** ** The upload walker, again *)

Section UploadWalk.
Context {W : Type} (session : Session W) (base_url : string).

Lemma total_for_each (body : item -> N * N * N -> M W (N * N * N))
    (entries : list item) :
  Forall (fun it => forall c s,
            total_of (value (body it c s)) = (total_of c + count_files it)%N)
         entries ->
  forall c s,
    total_of (value (for_each body entries c s))
    = (total_of c + tree_count_files entries)%N.
Proof.
  induction 1 as [|it entries Hit _ IH]; intros c s.
  - cbn. lia.
  - cbn [for_each tree_count_files fold_right]. rewrite value_bind, IH, Hit.
    unfold tree_count_files. lia.
Qed.

Lemma upload_entry_total (execute : bool) (it : item) :
  forall remote_path c s,
    total_of (value (upload_entry session base_url it remote_path execute c s))
    = (total_of c + count_files it)%N.
Proof.
  induction it as [f|dir_name entries IH|other_name] using item_induction;
    intros remote_path [[sc t] k] s.
  - cbn [upload_entry count_files]. rewrite value_bind.
    destruct (value (should_upload_file session base_url f _ s))
      as [should_upload reason].
    destruct should_upload; [destruct execute|]; rewrite ?value_bind;
      reflexivity.
  - cbn [upload_entry count_files]. rewrite value_bind.
    pose proof (total_for_each
                  (fun it c => upload_entry session base_url it
                                 (remote_path ++ "/" ++ dir_name) execute c)
                  entries) as T.
    assert (HT : Forall (fun it => forall c s,
                   total_of (value (upload_entry session base_url it
                                      (remote_path ++ "/" ++ dir_name) execute c s))
                   = (total_of c + count_files it)%N) entries).
    { eapply Forall_impl; [|exact IH]. intros it Hit c s0. apply Hit. }
    specialize (T HT (0, 0, 0)%N s). unfold tree_count_files in T.
    destruct (value (for_each _ entries (0%N, 0%N, 0%N) s))
      as [[sub_success sub_total] sub_skipped].
    cbn [total_of fst snd] in T. rewrite value_bind. cbn [ret value fst snd total_of].
    rewrite T. lia.
  - cbn. lia.
Qed.

End UploadWalk.

(** X12. In both modes and whatever the server answers, the total the upload
    walker returns is the number of regular files of the local tree, at any
    depth; entries that are neither files nor directories count for nothing. *)
Theorem upload_directory_recursive_total {W} (session : Session W)
    (base_url : string) (local_path : list item) (remote_path : string)
    (execute : bool) (s : W) :
  total_of (value (upload_directory_recursive session base_url local_path
                     remote_path execute s))
  = tree_count_files local_path.
Proof.
  unfold upload_directory_recursive.
  rewrite (total_for_each
             (fun it c => upload_entry session base_url it remote_path execute c)).
  - reflexivity.
  - apply Forall_forall. intros it _ c s0. apply upload_entry_total.
Qed.

Lemma incl_repeat {A} (x : A) (k : nat) (l : list A) :
  In x l -> incl (repeat x k) l.
Proof. intros H y Hy. apply repeat_spec in Hy. now subst. Qed.

Lemma entry_requests_in_tree (base_url remote_path : string)
    (entries : list item) (it : item) :
  In it entries ->
  incl (entry_requests base_url it remote_path)
       (tree_requests base_url entries remote_path).
Proof.
  intros Hin rq Hrq. unfold entry_requests, tree_requests in *.
  unfold tree_file_urls, tree_collection_urls.
  apply in_app_or in Hrq. destruct Hrq as [H|H]; [|apply in_app_or in H;
    destruct H as [H|H]].
  - apply in_or_app. left. apply in_map_iff in H. destruct H as [u [<- Hu]].
    apply in_map. apply in_flat_map. now exists it.
  - apply in_or_app. right. apply in_or_app. left. apply in_flat_map.
    now exists it.
  - apply in_or_app. right. apply in_or_app. right.
    apply in_map_iff in H. destruct H as [u [<- Hu]].
    apply in_map. apply in_flat_map. now exists it.
Qed.

Lemma requests_for_each {W} (body : item -> N * N * N -> M W (N * N * N))
    (allowed : list request) (entries : list item) :
  Forall (fun it => forall c s, incl (requests (events (body it c s))) allowed)
         entries ->
  forall c s, incl (requests (events (for_each body entries c s))) allowed.
Proof.
  induction 1 as [|it entries Hit _ IH]; intros c s.
  - cbn. intros x [].
  - cbn [for_each]. rewrite events_bind, requests_app.
    apply incl_app; [apply Hit|apply IH].
Qed.

Lemma upload_entry_requests {W} (session : Session W) (base_url : string)
    (execute : bool) (it : item) :
  forall remote_path c s,
    incl (requests (events (upload_entry session base_url it remote_path
                              execute c s)))
         (entry_requests base_url it remote_path).
Proof.
  induction it as [f|dir_name entries IH|other_name] using item_induction;
    intros remote_path [[sc t] k] s.
  - cbn [upload_entry]. unfold entry_requests. cbn [file_urls file_puts
      collection_urls map app].
    set (remote_file := remote_path ++ "/" ++ name f).
    rewrite events_bind, requests_app.
    assert (Hp : incl (requests (events (should_upload_file session base_url f
                                           remote_file s)))
                      [propfind "0" (get_webdav_url base_url remote_file)]).
    { rewrite should_upload_file_run. cbn [events snd].
      rewrite get_remote_file_info_events.
      rewrite (proj1 (proj2 (backoff_trace_quiet _ 1000 _))).
      apply incl_repeat. now left. }
    apply incl_app; [intros x Hx; apply Hp in Hx; destruct Hx as [<-|[]]; now left|].
    destruct (value (should_upload_file session base_url f remote_file s))
      as [should_upload reason].
    destruct should_upload; [destruct execute|]; rewrite ?events_bind,
      ?requests_app; cbn [print ret events snd requests app state value fst];
      try (intros x []).
    rewrite app_nil_r.
    destruct (upload_webdav_file_requests session base_url f remote_file 3
                (state (should_upload_file session base_url f remote_file s)))
      as [n [_ Hr]].
    rewrite Hr. intros x Hx. apply in_app_or in Hx.
    destruct Hx as [Hx|Hx].
    + right. right. exact Hx.
    + apply repeat_spec in Hx. subst x. right. now left.
  - cbn [upload_entry]. rewrite events_bind, requests_app.
    assert (Hsub : incl (requests (events
              (for_each (fun it c => upload_entry session base_url it
                                       (remote_path ++ "/" ++ dir_name) execute c)
                 entries (0%N, 0%N, 0%N) s)))
              (entry_requests base_url (Directory dir_name entries) remote_path)).
    { apply requests_for_each. apply Forall_forall. intros it Hit c s0.
      rewrite Forall_forall in IH. intros x Hx.
      apply (IH it Hit (remote_path ++ "/" ++ dir_name) c s0) in Hx.
      unfold entry_requests in *. cbn [file_urls file_puts collection_urls].
      apply in_app_or in Hx. destruct Hx as [H|H]; [|apply in_app_or in H;
        destruct H as [H|H]].
      - apply in_or_app. left. apply in_map_iff in H. destruct H as [u [<- Hu]].
        apply in_map. apply in_flat_map. now exists it.
      - apply in_or_app. right. apply in_or_app. left. apply in_flat_map.
        now exists it.
      - apply in_or_app. right. apply in_or_app. right.
        apply in_map_iff in H. destruct H as [u [<- Hu]].
        apply in_map. apply in_flat_map. now exists it. }
    apply incl_app; [exact Hsub|].
    destruct (value (for_each _ entries (0%N, 0%N, 0%N) s))
      as [[sub_success sub_total] sub_skipped].
    rewrite events_bind, requests_app. unfold when.
    destruct (0 <? sub_success)%N; cbn; intros x [].
  - cbn. intros x [].
Qed.

(** X13. In both modes and whatever the server answers, the upload walker
    sends nothing but, for regular files of the local tree, the probe of the
    file at its mirrored URL, the [PUT] of its content to that URL, and the
    [MKCOL] of its parent: it never writes a URL or a content that does not
    come from the tree. *)
Theorem upload_directory_recursive_requests {W} (session : Session W)
    (base_url : string) (local_path : list item) (remote_path : string)
    (execute : bool) (s : W) :
  incl (requests (events (upload_directory_recursive session base_url
                            local_path remote_path execute s)))
       (tree_requests base_url local_path remote_path).
Proof.
  unfold upload_directory_recursive. apply requests_for_each.
  apply Forall_forall. intros it Hit c s0 x Hx.
  apply upload_entry_requests in Hx.
  now apply (entry_requests_in_tree base_url remote_path local_path it Hit).
Qed.

(** ** The download walker, again *)

Section DownloadWalk.
Context {W : Type} (disk : disk_op -> W -> bool * W) (session : Session W)
  (base_url : string).

Lemma retry_in_2_seconds_quiet (attempt max_retries : nat) (s : W) :
  written (events (retry_in_2_seconds attempt max_retries s)) = []
  /\ downloads_announced (events (retry_in_2_seconds attempt max_retries s)) = 0%N.
Proof.
  unfold retry_in_2_seconds, when.
  destruct (attempt <? max_retries - 1)%nat; cbn; auto.
Qed.

Lemma list_block_quiet remote_path block acc (s : W) :
  written (events (list_block remote_path block acc s)) = []
  /\ downloads_announced (events (list_block remote_path block acc s)) = 0%N.
Proof.
  unfold list_block. destruct acc as [files directories].
  destruct (Re.href block) as [href|]; [|cbn; auto].
  destruct (_ || _); [cbn; auto|].
  destruct (Str.contains block "<D:collection/>").
  - destruct (last _ _); cbn; auto.
  - destruct (last _ _) as [|c r]; [cbn; auto|].
    destruct (negb _); cbn; auto.
Qed.

Lemma list_webdav_directory_quiet remote_path max_retries (s : W) :
  written (events (list_webdav_directory session base_url remote_path
                     max_retries s)) = []
  /\ downloads_announced
       (events (list_webdav_directory session base_url remote_path
                  max_retries s)) = 0%N.
Proof.
  unfold list_webdav_directory.
  assert (G : forall n attempt s0,
    written (events (for_range n attempt
      (list_attempt session (get_webdav_url base_url remote_path) remote_path
         max_retries)
      (print (Failed_to_list remote_path max_retries) ;; ret ([], [])) s0)) = []
    /\ downloads_announced (events (for_range n attempt
      (list_attempt session (get_webdav_url base_url remote_path) remote_path
         max_retries)
      (print (Failed_to_list remote_path max_retries) ;; ret ([], [])) s0)) = 0%N);
    [|apply G].
  clear s. intros n. induction n as [|n IH]; intros attempt s; [cbn; auto|].
  cbn [for_range]. rewrite events_bind, written_app, downloads_announced_app.
  assert (A : written (events (list_attempt session
                (get_webdav_url base_url remote_path) remote_path max_retries
                attempt s)) = []
              /\ downloads_announced (events (list_attempt session
                   (get_webdav_url base_url remote_path) remote_path max_retries
                   attempt s)) = 0%N).
  { unfold list_attempt. rewrite events_bind, request_run.
    cbn [value state events fst snd].
    destruct (fst (send session _ s)) as [r|].
    - destruct (status_code r =? 207)%N.
      + rewrite events_bind. cbn [ret events snd].
        rewrite app_nil_r. cbn [app written downloads_announced].
        generalize (tl (Str.split_str_aux "<D:response" 0 (text r))).
        generalize (snd (send session
          (propfind "1" (get_webdav_url base_url remote_path)) s)).
        generalize (@nil string, @nil string).
        intros acc s1 blocks. revert acc s1.
        induction blocks as [|b blocks IHb]; intros acc s1; [cbn; auto|].
        cbn [for_each]. rewrite events_bind, written_app, downloads_announced_app.
        destruct (list_block_quiet remote_path b acc s1) as [-> ->].
        apply IHb.
      + rewrite !events_bind. cbn [print ret events snd value state fst].
        cbn [app written downloads_announced].
        rewrite !written_app, !downloads_announced_app.
        destruct (retry_in_2_seconds_quiet attempt max_retries
                    (snd (send session
                       (propfind "1" (get_webdav_url base_url remote_path)) s)))
          as [-> ->]. auto.
    - rewrite !events_bind. cbn [print ret events snd value state fst].
      cbn [app written downloads_announced].
      rewrite !written_app, !downloads_announced_app.
      destruct (retry_in_2_seconds_quiet attempt max_retries
                  (snd (send session
                     (propfind "1" (get_webdav_url base_url remote_path)) s)))
        as [-> ->]. auto. }
  destruct A as [-> ->].
  destruct (value (list_attempt _ _ _ _ _ _)); [cbn; auto|apply IH].
Qed.

Lemma download_one_counted remote_path local_path filename (c : N * N) (s : W) :
  let run := download_one disk session base_url remote_path local_path
               filename c s in
  fst (value run) = (fst c + N.of_nat (length (written (events run))))%N
  /\ snd (value run) = (snd c + downloads_announced (events run))%N.
Proof.
  intros run. subst run. destruct c as [sc t]. unfold download_one.
  rewrite !bind_run. cbn [print sleep ret value state events fst snd app].
  cbn [written downloads_announced].
  rewrite !written_app, !downloads_announced_app.
  cbn [written downloads_announced app].
  unfold download_webdav_file.
  pose proof (download_loop_outcome disk session
                (get_webdav_url base_url (remote_path ++ "/" ++ filename))
                (remote_path ++ "/" ++ filename) (local_path ++ [filename])%list
                3 3 0 s) as H.
  cbn zeta in H. destruct H as [H [_ Ha]]. rewrite Ha.
  destruct H as [[pre [resp [Hv [He [_ [_ Hw]]]]]]|[Hv Hw]]; rewrite Hv.
  - rewrite He, written_app, Hw. cbn. split; lia.
  - rewrite Hw. cbn. split; lia.
Qed.

Lemma download_files_counted remote_path local_path files (c : N * N) (s : W) :
  let run := for_each (download_one disk session base_url remote_path local_path)
               files c s in
  fst (value run) = (fst c + N.of_nat (length (written (events run))))%N
  /\ snd (value run) = (snd c + downloads_announced (events run))%N.
Proof.
  revert c s. induction files as [|filename files IH]; intros c s run; subst run.
  - cbn. split; lia.
  - cbn [for_each]. rewrite bind_run. cbn [value events fst snd].
    pose proof (download_one_counted remote_path local_path filename c s) as H1.
    cbn zeta in H1. destruct H1 as [H1 H2].
    specialize (IH (value (download_one disk session base_url remote_path
                             local_path filename c s))
                  (state (download_one disk session base_url remote_path
                            local_path filename c s))).
    cbn zeta in IH. destruct IH as [I1 I2].
    rewrite written_app, downloads_announced_app, length_app, I1, I2, H1, H2.
    split; lia.
Qed.

Lemma download_directory_recursive_counted (depth : nat) :
  forall remote_path local_path s success_count total_files,
    value (download_directory_recursive disk depth session base_url remote_path
             local_path s) = Some (success_count, total_files) ->
    success_count
    = N.of_nat (length (written (events
        (download_directory_recursive disk depth session base_url remote_path
           local_path s))))
    /\ total_files
       = downloads_announced (events
           (download_directory_recursive disk depth session base_url remote_path
              local_path s)).
Proof.
  induction depth as [|depth IH]; intros remote_path local_path s sc t.
  - cbn. discriminate.
  - rewrite (download_directory_recursive_step disk session base_url depth).
    rewrite !(bind_run (list_webdav_directory _ _ _ _)).
    destruct (list_webdav_directory_quiet remote_path 3 s) as [Lw La].
    cbn [value events fst snd].
    rewrite written_app, downloads_announced_app, Lw, La.
    cbn [app]. rewrite N.add_0_l.
    destruct (value (list_webdav_directory session base_url remote_path 3 s))
      as [files directories].
    rewrite !(bind_run (disk_do _ _)), disk_do_run.
    cbn [value state events fst snd].
    destruct (fst (disk (Mkdir local_path) _)); [|cbn; discriminate].
    cbn [app written downloads_announced].
    rewrite !(bind_run (for_each (download_one _ _ _ _ _) _ _)).
    cbn [value events fst snd].
    rewrite written_app, downloads_announced_app, length_app.
    match goal with
    | |- context [for_each (download_one ?d ?se ?b ?r ?l) files ?c ?s0] =>
        pose proof (download_files_counted r l files c s0) as Hfiles;
        cbn zeta in Hfiles;
        set (frun := for_each (download_one d se b r l) files c s0) in *
    end.
    cbn [fst snd] in Hfiles. rewrite !N.add_0_l in Hfiles.
    destruct Hfiles as [F1 F2].
    destruct (value frun) as [fa fb] eqn:Ef. cbn [fst snd] in F1, F2.
    assert (G : forall dirs (a b : N) (s1 : W) sc' t',
      value (for_each
               (download_subdirectory
                  (download_directory_recursive disk depth session base_url)
                  remote_path local_path) dirs (Some (a, b)) s1)
      = Some (sc', t') ->
      sc' = (a + N.of_nat (length (written (events
               (for_each
                  (download_subdirectory
                     (download_directory_recursive disk depth session base_url)
                     remote_path local_path) dirs (Some (a, b)) s1)))))%N
      /\ t' = (b + downloads_announced (events
                 (for_each
                    (download_subdirectory
                       (download_directory_recursive disk depth session base_url)
                       remote_path local_path) dirs (Some (a, b)) s1)))%N).
    { induction dirs as [|dirname dirs IHd]; intros a b s1 sc' t'.
      - cbn. intros [= <- <-]. split; lia.
      - cbn [for_each]. rewrite bind_run, download_subdirectory_run.
        cbn [value state events fst snd].
        destruct (value (download_directory_recursive disk depth session base_url
                           (remote_path ++ "/" ++ dirname)
                           (local_path ++ [dirname])%list s1))
          as [[ss st]|] eqn:Esub.
        + intros Hv. destruct (IH _ _ _ _ _ Esub) as [S1 S2].
          destruct (IHd _ _ _ _ _ Hv) as [D1 D2].
          cbn [app written downloads_announced].
          rewrite written_app, downloads_announced_app, length_app.
          rewrite D1, D2, S1, S2. split; lia.
        + rewrite download_subdirectories_none. cbn. discriminate. }
    intros Hv. destruct (G directories fa fb (state frun) sc t Hv) as [G1 G2].
    rewrite G1, G2, F1, F2. split; lia.
Qed.

End DownloadWalk.

(** X14. When the download walker returns, its total is the number of files
    it announced ([Downloading ...], one per listed file, each tried once),
    and its success count is the number of files it wrote to the local disk. *)
Theorem download_directory_recursive_counts_writes {W}
    (disk : disk_op -> W -> bool * W) (session : Session W) (base_url : string)
    (depth : nat) (remote_path : string) (local_path : Path) (s : W)
    (success_count total_files : N) :
  let run := download_directory_recursive disk depth session base_url
               remote_path local_path s in
  value run = Some (success_count, total_files) ->
  success_count = N.of_nat (length (written (events run)))
  /\ total_files = downloads_announced (events run).
Proof. intros run. apply download_directory_recursive_counted. Qed.

Lemma download_directory_recursive_counts_writes_witness :
  let base_url := "https://webdav.pcloud.com" in
  let run := download_directory_recursive good_disk 5 (dav base_url) base_url
               "/thetawave/data" ["assets"; "data"] remote_tree in
  2%N = N.of_nat (length (written (events run)))
  /\ 2%N = downloads_announced (events run).
Proof.
  intros base_url run.
  apply (download_directory_recursive_counts_writes good_disk (dav base_url)
           base_url 5 "/thetawave/data" ["assets"; "data"] remote_tree 2 2).
  vm_compute. reflexivity.
Defined.

(** ** The counters of the walkers *)

(** C9. The counters of the download walker: the success count never exceeds
    the total; the total is the number of files announced, one [Downloading]
    line each, and the success count the number of files written. The
    counters of the upload walker: the total is the number of regular files
    of the local tree, at any depth; successes and skipped files never exceed
    it; in a dry run they add up to it, so that every local file is counted
    either as to be uploaded or as skipped; in execute mode what is missing
    is the number of uploads given up, one [Failed to upload] line each. *)
Theorem walker_counters {W} (disk : disk_op -> W -> bool * W)
    (session : Session W) (base_url : string) :
  (forall depth remote_path local_path s success_count total_files,
     let run := download_directory_recursive disk depth session base_url
                  remote_path local_path s in
     value run = Some (success_count, total_files) ->
     (success_count <= total_files)%N
     /\ success_count = N.of_nat (length (written (events run)))
     /\ total_files = downloads_announced (events run))
  /\ (forall local_path remote_path execute s,
        let run := upload_directory_recursive session base_url local_path
                     remote_path execute s in
        total_of (value run) = tree_count_files local_path
        /\ (success_of (value run) + skipped_of (value run)
            <= total_of (value run))%N
        /\ (execute = false ->
            (success_of (value run) + skipped_of (value run))%N
            = tree_count_files local_path)
        /\ (execute = true ->
            tree_count_files local_path
            = (success_of (value run) + skipped_of (value run)
               + failed_uploads (events run))%N)).
Proof.
  split.
  - intros depth remote_path local_path s sc t run H. subst run.
    split; [exact (download_directory_recursive_counts disk session base_url
                     depth remote_path local_path s sc t H)|].
    exact (download_directory_recursive_counted disk session base_url depth
             remote_path local_path s sc t H).
  - intros local_path remote_path execute s run.
    pose proof (upload_directory_recursive_accounted session base_url local_path
                  remote_path execute s) as A.
    fold run in A. unfold accounted in A.
    cbn [success_of total_of skipped_of fst snd] in A.
    destruct A as [A1 [_ [_ [_ A5]]]].
    assert (T : total_of (value run) = tree_count_files local_path).
    { subst run. unfold upload_directory_recursive.
      rewrite (total_for_each
                 (fun it c => upload_entry session base_url it remote_path
                                execute c)).
      - reflexivity.
      - apply Forall_forall. intros it _ c s0. apply upload_entry_total. }
    rewrite <- T.
    split; [reflexivity|]. split; [lia|split].
    + intros E. rewrite (proj1 (A5 E)) in A1. lia.
    + intros _. lia.
Qed.

Lemma walker_counters_witness :
  let base_url := "https://webdav.pcloud.com" in
  let down := download_directory_recursive good_disk 5 (dav base_url) base_url
                "/thetawave/data" ["assets"; "data"] remote_tree in
  let dry := upload_directory_recursive (dav base_url) base_url local_tree
               "/thetawave/data" false remote_tree in
  let exec := upload_directory_recursive refusing base_url local_tree
                "/thetawave/data" true tt in
  (value down = Some (2%N, 2%N)
   /\ (2 <= 2)%N
   /\ 2%N = N.of_nat (length (written (events down)))
   /\ 2%N = downloads_announced (events down))
  /\ total_of (value dry) = 4%N
  /\ (success_of (value dry) + skipped_of (value dry))%N = 4%N
  /\ 4%N = (success_of (value exec) + skipped_of (value exec)
            + failed_uploads (events exec))%N.
Proof.
  intros base_url down dry exec.
  assert (H : value down = Some (2%N, 2%N)) by (vm_compute; reflexivity).
  split; [split; [exact H|]|split; [|split]].
  - exact (proj1 (walker_counters good_disk (dav base_url) base_url)
             5%nat "/thetawave/data" ["assets"; "data"] remote_tree 2%N 2%N H).
  - exact (proj1 (proj2 (walker_counters good_disk (dav base_url) base_url)
                    local_tree "/thetawave/data" false remote_tree)).
  - exact (proj1 (proj2 (proj2 (proj2 (walker_counters good_disk (dav base_url)
                                         base_url)
                                  local_tree "/thetawave/data" false remote_tree)))
             eq_refl).
  - exact (proj2 (proj2 (proj2 (proj2 (walker_counters good_disk refusing base_url)
                                  local_tree "/thetawave/data" true tt)))
             eq_refl).
Defined.

(** ** The commands *)

Lemma inner_app (a b : list output) :
  inner (a ++ b) = (inner a ++ inner b)%list.
Proof.
  induction a as [|o a IH]; [reflexivity|].
  destruct o; cbn [inner app]; rewrite IH; reflexivity.
Qed.

Lemma lines_app (a b : list output) :
  lines (a ++ b) = (lines a ++ lines b)%list.
Proof.
  induction a as [|o a IH]; [reflexivity|].
  destruct o; cbn [lines app]; rewrite IH; reflexivity.
Qed.

Lemma inner_map_Inner (t : list event) : inner (map Inner t) = t.
Proof. induction t as [|e t IH]; cbn; [reflexivity|now rewrite IH]. Qed.

Lemma lines_map_Inner (t : list event) : lines (map Inner t) = [].
Proof. induction t as [|e t IH]; cbn; [reflexivity|exact IH]. Qed.

Section CommandFacts.
Context {W : Type}.

Lemma lift_run {A} (m : M W A) (s : W) :
  lift m s = (Returned (value (m s)), state (m s), map Inner (events (m s))).
Proof. unfold lift. destruct (m s) as [[a s'] t]. reflexivity. Qed.

Lemma cbind_run {A B} (c : C W A) (k : A -> C W B) (s : W) :
  cbind c k s
  = match outcome_of (c s) with
    | Returned a =>
        (outcome_of (k a (final (c s))), final (k a (final (c s))),
         (outputs (c s) ++ outputs (k a (final (c s))))%list)
    | Exited code => (Exited code, final (c s), outputs (c s))
    | Raised => (Raised, final (c s), outputs (c s))
    end.
Proof.
  unfold cbind, outcome_of, final, outputs.
  destruct (c s) as [[[a|code|] s1] t1]; cbn; [|reflexivity|reflexivity].
  destruct (k a s1) as [[b s2] t2]. reflexivity.
Qed.

Lemma read_only_cbind {A B} (c : C W A) (k : A -> C W B) :
  read_only c -> (forall a, read_only (k a)) -> read_only (cbind c k).
Proof.
  intros Hc Hk s. rewrite cbind_run.
  destruct (outcome_of (c s)) as [a|code|]; cbn [outputs snd]; [|apply Hc ..].
  rewrite inner_app, requests_app, filter_app, Hc, Hk. reflexivity.
Qed.

Lemma read_only_lift {A} (m : M W A) :
  (forall s, filter is_write (requests (events (m s))) = []) ->
  read_only (lift m).
Proof.
  intros H s. rewrite lift_run. cbn [outputs snd]. rewrite inner_map_Inner.
  apply H.
Qed.

Lemma read_only_say (l : line) : read_only (W := W) (say l).
Proof. intros s. reflexivity. Qed.

Lemma read_only_cret {A} (a : A) : read_only (W := W) (cret a).
Proof. intros s. reflexivity. Qed.

Lemma read_only_sys_exit {A} (code : N) : read_only (W := W) (A := A) (sys_exit code).
Proof. intros s. reflexivity. Qed.

Lemma read_only_raise {A} : read_only (W := W) (A := A) raise.
Proof. intros s. reflexivity. Qed.

Lemma read_only_cfor_each {A B} (body : A -> B -> C W B) (l : list A) :
  (forall x acc, read_only (body x acc)) ->
  forall acc, read_only (cfor_each body l acc).
Proof.
  intros H. induction l as [|x l IH]; intros acc.
  - apply read_only_cret.
  - cbn [cfor_each]. apply read_only_cbind; [apply H|exact IH].
Qed.

End CommandFacts.

Create HintDb commands.
#[local] Hint Resolve read_only_say read_only_cret read_only_sys_exit
  read_only_raise : commands.

Lemma filter_write_repeat (rq : request) (k : nat) :
  is_write rq = false -> filter is_write (repeat rq k) = [].
Proof. intros H. induction k as [|k IH]; cbn; [reflexivity|now rewrite H]. Qed.

Section ReadOnly.
Context {W : Type} (disk : disk_op -> W -> bool * W) (session : Session W)
  (base_url : string).

Lemma list_webdav_directory_reads remote_path max_retries (s : W) :
  filter is_write (requests (events (list_webdav_directory session base_url
                                       remote_path max_retries s))) = [].
Proof.
  unfold list_webdav_directory.
  destruct (for_range_at_most
              (list_attempt session (get_webdav_url base_url remote_path)
                 remote_path max_retries)
              (print (Failed_to_list remote_path max_retries) ;; ret ([], []))
              (propfind "1" (get_webdav_url base_url remote_path)) (fun _ => True)
              (list_attempt_requests session _ remote_path max_retries)
              (fun _ => eq_refl) (fun _ _ _ _ => I)
              max_retries 0%nat s) as [k [_ [Hr _]]].
  rewrite Hr. now apply filter_write_repeat.
Qed.

Lemma download_webdav_file_reads remote_file local_file max_retries (s : W) :
  filter is_write (requests (events (download_webdav_file disk session base_url
                                       remote_file local_file max_retries s)))
  = [].
Proof.
  unfold download_webdav_file.
  destruct (for_range_at_most
              (download_attempt disk session (get_webdav_url base_url remote_file)
                 remote_file local_file max_retries)
              (print (Failed_to_download remote_file max_retries) ;; ret false)
              (get (get_webdav_url base_url remote_file)) (fun v => v = true)
              (fun a s0 => proj1 (download_attempt_requests disk session _
                                    remote_file local_file max_retries a s0))
              (fun _ => eq_refl)
              (fun a s0 => proj2 (download_attempt_requests disk session _
                                    remote_file local_file max_retries a s0))
              max_retries 0%nat s) as [k [_ [Hr _]]].
  rewrite Hr. now apply filter_write_repeat.
Qed.

Lemma download_files_read remote_path local_path files (c : N * N) (s : W) :
  filter is_write
    (requests (events (for_each (download_one disk session base_url remote_path
                                   local_path) files c s))) = [].
Proof.
  revert c s. induction files as [|filename files IH]; intros c s; [reflexivity|].
  cbn [for_each]. rewrite events_bind, requests_app, filter_app, IH, app_nil_r.
  destruct c as [sc t]. unfold download_one.
  rewrite !events_bind, !requests_app, !filter_app.
  cbn [print sleep ret events snd requests filter app value state fst].
  rewrite download_webdav_file_reads. reflexivity.
Qed.

Lemma download_directory_recursive_reads (depth : nat) :
  forall remote_path local_path s,
    filter is_write
      (requests (events (download_directory_recursive disk depth session
                           base_url remote_path local_path s))) = [].
Proof.
  induction depth as [|depth IH]; intros remote_path local_path s; [reflexivity|].
  rewrite (download_directory_recursive_step disk session base_url depth).
  rewrite events_bind, requests_app, filter_app, list_webdav_directory_reads.
  cbn [app].
  destruct (value (list_webdav_directory session base_url remote_path 3 s))
    as [files directories].
  rewrite events_bind, requests_app, filter_app, disk_do_run.
  cbn [events snd requests filter app value state fst].
  destruct (fst (disk (Mkdir local_path) _)); [|reflexivity].
  rewrite events_bind, requests_app, filter_app, download_files_read.
  cbn [app].
  generalize (Some (value (for_each (download_one disk session base_url
                                        remote_path local_path) files
                             (0%N, 0%N)
                             (snd (disk (Mkdir local_path)
                                (state (list_webdav_directory session base_url
                                          remote_path 3 s))))))).
  generalize (state (for_each (download_one disk session base_url remote_path
                                 local_path) files (0%N, 0%N)
                       (snd (disk (Mkdir local_path)
                          (state (list_webdav_directory session base_url
                                    remote_path 3 s)))))).
  intros s1 acc. revert s1 acc.
  induction directories as [|dirname directories IHd]; intros s1 acc;
    [reflexivity|].
  cbn [for_each]. rewrite events_bind, requests_app, filter_app, IHd, app_nil_r.
  destruct acc as [[a b]|]; [|reflexivity].
  rewrite download_subdirectory_run. cbn [events snd requests]. apply IH.
Qed.

End ReadOnly.

Section CommandsReadOnly.
Context {W : Type} (h : Host W).

Lemma get_webdav_session_read_only : read_only (get_webdav_session h).
Proof.
  unfold get_webdav_session.
  destruct (getenv h "PCLOUD_USERNAME") as [[|a u]|];
    try (apply read_only_cbind; auto with commands);
  destruct (getenv h "PCLOUD_PASSWORD") as [[|b p]|];
    try (apply read_only_cbind; auto with commands).
  - apply read_only_lift. intros s. rewrite request_run. reflexivity.
  - intros [r|]; [destruct (_ || _)|]; auto with commands;
      apply read_only_cbind; auto with commands.
Qed.

Lemma download_from_pcloud_read_only : read_only (download_from_pcloud h).
Proof.
  unfold download_from_pcloud.
  apply read_only_cbind; [apply get_webdav_session_read_only|].
  intros [session base_url]. apply read_only_cbind.
  - intros s. destruct (mkdir_exist_ok h _ s). reflexivity.
  - intros [|]; [|auto with commands].
    apply read_only_cbind; [|auto with commands].
    apply read_only_cfor_each. intros remote_dir []. unfold download_tree.
    apply read_only_cbind; [auto with commands|]. intros _.
    apply read_only_cbind.
    + apply read_only_lift. intros s. apply download_directory_recursive_reads.
    + intros [[sc t]|]; [destruct (0 <? t)%N|]; auto with commands.
Qed.

Lemma test_pcloud_connection_read_only : read_only (test_pcloud_connection h).
Proof.
  unfold test_pcloud_connection.
  apply read_only_cbind; [apply get_webdav_session_read_only|].
  intros [session base_url]. apply read_only_cbind; [auto with commands|].
  intros _. apply read_only_cfor_each. intros remote_path []. unfold test_listing.
  apply read_only_cbind.
  - apply read_only_lift. intros s. apply list_webdav_directory_reads.
  - intros [files dirs]. apply read_only_cbind; auto with commands.
Qed.

Lemma dry_run_read_only : read_only (upload_to_pcloud h false).
Proof.
  unfold upload_to_pcloud.
  apply read_only_cbind.
  { apply read_only_cbind; [auto with commands|]. intros _.
    apply read_only_cbind; [auto with commands|]. intros _.
    auto with commands. }
  intros _.
  apply read_only_cbind; [apply get_webdav_session_read_only|].
  intros [session base_url]. destruct (assets h) as [assets_dir|];
    [|auto with commands].
  apply read_only_cbind.
  - apply read_only_cfor_each. intros local_dir [[tf ts] tk]. unfold upload_tree.
    destruct (child assets_dir local_dir) as [it|];
      [|apply read_only_cbind; auto with commands].
    apply read_only_cbind; [auto with commands|]. intros _.
    destruct it as [f|dir_name entries|other_name]; auto with commands.
    apply read_only_cbind.
    + apply read_only_lift. intros s.
      apply (upload_directory_recursive_accounted session base_url entries
               ("/thetawave/" ++ local_dir) false s). reflexivity.
    + intros [[sc fc] kc]. apply read_only_cbind; [|auto with commands].
      destruct (0 <? sc)%N; auto with commands.
  - intros [[tf ts] tk]. apply read_only_cbind; [auto with commands|]. intros _.
    unfold say_when.
    apply read_only_cbind; [destruct (0 <? ts)%N; auto with commands|]. intros _.
    apply read_only_cbind; [destruct (0 <? tk)%N; auto with commands|]. intros _.
    destruct (0 <? ts)%N; [apply read_only_cbind|]; auto with commands.
Qed.

End CommandsReadOnly.

(** X18. The program writes to the server only when it is asked to: unless
    [argv] is [upload] followed by [--execute], whatever the environment, the
    server and the local tree, [main] sends no [PUT] and no [MKCOL]. A flag in
    any other place, or any other third word, leaves [upload] a dry run. *)
Theorem main_writes_only_on_execute {W} (h : Host W) (argv : list string)
    (s : W) :
  asks_execute argv = false ->
  filter is_write (requests (inner (outputs (main h argv s)))) = [].
Proof.
  intros H. unfold main.
  destruct argv as [|prog [|command rest]]; [reflexivity|reflexivity|].
  destruct (String.eqb command "download") eqn:Ed;
    [apply download_from_pcloud_read_only|].
  destruct (String.eqb command "upload") eqn:Eu.
  - cbn [asks_execute] in H. destruct rest as [|flag rest].
    + apply dry_run_read_only.
    + rewrite Eu in H. cbn in H. rewrite H. apply dry_run_read_only.
  - destruct (String.eqb command "test");
      [apply test_pcloud_connection_read_only|reflexivity].
Qed.

Lemma main_writes_only_on_execute_witness :
  filter is_write
    (requests (inner (outputs (main (example_host (Some local_assets))
                                 ["pcloud_sync.py"; "upload"; "now"; "--execute"]
                                 remote_root)))) = [].
Proof.
  apply (main_writes_only_on_execute (example_host (Some local_assets))
           ["pcloud_sync.py"; "upload"; "now"; "--execute"] remote_root).
  reflexivity.
Defined.

Section SessionFacts.
Context {W : Type} (h : Host W).

Lemma get_webdav_session_unset (s : W) :
  unset (getenv h "PCLOUD_USERNAME") || unset (getenv h "PCLOUD_PASSWORD") = true ->
  get_webdav_session h s = (Exited 1, s, [Line Set_credentials]).
Proof.
  unfold get_webdav_session.
  destruct (getenv h "PCLOUD_USERNAME") as [[|a u]|];
    destruct (getenv h "PCLOUD_PASSWORD") as [[|b p]|];
    cbn [unset orb]; intros H; try discriminate H; reflexivity.
Qed.

Lemma get_webdav_session_set (username password : string) (s : W) :
  getenv h "PCLOUD_USERNAME" = Some username ->
  getenv h "PCLOUD_PASSWORD" = Some password ->
  username <> "" -> password <> "" ->
  let session := connect h username password in
  let rq := Request PROPFIND "https://webdav.pcloud.com" (Some "0") None None in
  let rp := fst (send session rq s) in
  get_webdav_session h s
  = (if connected rp then Returned (session, "https://webdav.pcloud.com")
     else Exited 1,
     snd (send session rq s),
     Inner (Sent rq rp)
     :: match rp with
        | Answer response =>
            if connected rp then []
            else [Line (Failed_to_connect (status_code response))]
        | Raises => [Line Error_connecting]
        end).
Proof.
  intros Eu Ep Nu Np. unfold get_webdav_session. rewrite Eu, Ep.
  destruct username as [|a u]; [congruence|].
  destruct password as [|b p]; [congruence|].
  cbv zeta. rewrite cbind_run, lift_run, request_run.
  cbn [outcome_of final outputs value state events fst snd map].
  destruct (fst (send _ _ s)) as [response|]; unfold connected, has_status.
  - destruct (_ || _); reflexivity.
  - reflexivity.
Qed.

End SessionFacts.

(** X16. The connectivity check of [get_webdav_session]: with both credentials
    set and not empty, it sends exactly one request, a [PROPFIND] of depth 0
    on the bare base URL through the session opened with these credentials,
    without body, timeout or pause, and never a second one. On a 200 or a 207
    it returns that session with the base URL and says nothing; on any other
    status and when the transport raises, it ends the process with status 1
    after exactly one line. *)
Theorem get_webdav_session_checks_once {W} (h : Host W)
    (username password : string) (s : W) :
  getenv h "PCLOUD_USERNAME" = Some username ->
  getenv h "PCLOUD_PASSWORD" = Some password ->
  username <> "" -> password <> "" ->
  let session := connect h username password in
  let rq := Request PROPFIND "https://webdav.pcloud.com" (Some "0") None None in
  let r := get_webdav_session h s in
  inner (outputs r) = [Sent rq (fst (send session rq s))]
  /\ final r = snd (send session rq s)
  /\ (connected (fst (send session rq s)) = true ->
      outcome_of r = Returned (session, "https://webdav.pcloud.com")
      /\ lines (outputs r) = [])
  /\ (connected (fst (send session rq s)) = false ->
      outcome_of r = Exited 1 /\ length (lines (outputs r)) = 1%nat).
Proof.
  intros Eu Ep Nu Np session rq r. subst r.
  rewrite (get_webdav_session_set h username password s Eu Ep Nu Np).
  fold session. fold rq.
  cbn [outputs final outcome_of fst snd inner lines].
  destruct (fst (send session rq s)) as [response|] eqn:E.
  - destruct (connected (Answer response)) eqn:Ec; cbn [inner lines length].
    + repeat split; try reflexivity; intros; discriminate.
    + repeat split; try reflexivity; intros; discriminate.
  - unfold connected, has_status. cbn [orb inner lines length].
    repeat split; try reflexivity; intros; discriminate.
Qed.

Lemma get_webdav_session_checks_once_witness :
  let h := example_host (Some local_assets) in
  let session := connect h "me@example.org" "secret" in
  let rq := Request PROPFIND "https://webdav.pcloud.com" (Some "0") None None in
  let r := get_webdav_session h remote_root in
  inner (outputs r) = [Sent rq (fst (send session rq remote_root))]
  /\ final r = snd (send session rq remote_root)
  /\ (connected (fst (send session rq remote_root)) = true ->
      outcome_of r = Returned (session, "https://webdav.pcloud.com")
      /\ lines (outputs r) = [])
  /\ (connected (fst (send session rq remote_root)) = false ->
      outcome_of r = Exited 1 /\ length (lines (outputs r)) = 1%nat).
Proof.
  apply (get_webdav_session_checks_once (example_host (Some local_assets))
           "me@example.org" "secret" remote_root);
    [reflexivity | reflexivity | discriminate | discriminate].
Defined.

(** X15. Nothing is attempted without credentials or without a command: when
    one of [PCLOUD_USERNAME] and [PCLOUD_PASSWORD] is unset or empty, or
    [argv] names none of [download], [upload] and [test], [main] ends the
    process with status 1, having sent no request, touched no file and created
    no directory -- all it produces is lines of text -- and leaves the world as
    it found it. *)
Theorem main_refuses {W} (h : Host W) (argv : list string) (s : W) :
  unset (getenv h "PCLOUD_USERNAME") || unset (getenv h "PCLOUD_PASSWORD")
  || negb (known_command argv) = true ->
  let r := main h argv s in
  outcome_of r = Exited 1
  /\ final r = s
  /\ outputs r = map Line (lines (outputs r)).
Proof.
  intros H r. subst r. unfold main.
  destruct argv as [|prog [|command rest]]; [repeat split ..|].
  cbn [known_command] in H.
  destruct (String.eqb command "download") eqn:Ed;
    [|destruct (String.eqb command "upload") eqn:Eu];
    [| |destruct (String.eqb command "test") eqn:Et];
    cbn [orb negb] in H; rewrite ?orb_false_r in H;
    [| | |repeat split].
  - unfold download_from_pcloud. rewrite cbind_run.
    rewrite (get_webdav_session_unset h s H). repeat split.
  - unfold upload_to_pcloud. rewrite cbind_run.
    destruct (match rest with [] => false | a :: _ => String.eqb a "--execute" end).
    + cbn [cret outcome_of final outputs fst snd]. rewrite cbind_run.
      rewrite (get_webdav_session_unset h s H). repeat split.
    + change ((say Dry_run_mode ;; say Add_execute ;; say Blank)%cmd s)
        with (Returned tt, s, [Line Dry_run_mode; Line Add_execute; Line Blank]).
      cbn [outcome_of final outputs fst snd]. rewrite cbind_run.
      rewrite (get_webdav_session_unset h s H). repeat split.
  - unfold test_pcloud_connection. rewrite cbind_run.
    rewrite (get_webdav_session_unset h s H). repeat split.
Qed.

Lemma main_refuses_witness :
  let r := main anonymous_host ["pcloud_sync.py"; "upload"; "--execute"]
             remote_root in
  outcome_of r = Exited 1
  /\ final r = remote_root
  /\ outputs r = map Line (lines (outputs r)).
Proof.
  apply (main_refuses anonymous_host ["pcloud_sync.py"; "upload"; "--execute"]
           remote_root).
  reflexivity.
Defined.

Lemma announced_uploads_app (a b : list line) :
  announced_uploads (a ++ b) = (announced_uploads a + announced_uploads b)%N.
Proof.
  induction a as [|l a IH]; [reflexivity|].
  destruct l; cbn [announced_uploads app]; rewrite ?IH; lia.
Qed.

Lemma announced_skips_app (a b : list line) :
  announced_skips (a ++ b) = (announced_skips a + announced_skips b)%N.
Proof.
  induction a as [|l a IH]; [reflexivity|].
  destruct l; cbn [announced_skips app]; rewrite ?IH; lia.
Qed.

Section Tallies.
Context {W : Type}.

Lemma cbind_returned {A B} (c : C W A) (k : A -> C W B) (s : W) (b : B) :
  outcome_of (cbind c k s) = Returned b ->
  exists a,
    outcome_of (c s) = Returned a
    /\ outcome_of (k a (final (c s))) = Returned b
    /\ outputs (cbind c k s)
       = (outputs (c s) ++ outputs (k a (final (c s))))%list.
Proof.
  rewrite cbind_run. destruct (outcome_of (c s)) as [a|code|];
    cbn [outcome_of fst]; intros H; try discriminate H.
  exists a. repeat split. exact H.
Qed.

(** A loop whose body adds [w x] and what [g] reads in its output to the
    reading [f] of the accumulator. *)
Lemma cfor_each_sum {A B} (body : A -> B -> C W B) (f : B -> N) (w : A -> N)
    (g : list output -> N) :
  g [] = 0%N ->
  (forall a b, g (a ++ b)%list = (g a + g b)%N) ->
  (forall x acc s acc',
      outcome_of (body x acc s) = Returned acc' ->
      f acc' = (f acc + w x + g (outputs (body x acc s)))%N) ->
  forall l acc s acc',
    outcome_of (cfor_each body l acc s) = Returned acc' ->
    f acc' = (f acc + fold_right (fun x n => (w x + n)%N) 0%N l
              + g (outputs (cfor_each body l acc s)))%N.
Proof.
  intros g_nil g_app Hbody. induction l as [|x l IH]; intros acc s acc' H.
  - cbn in H. injection H as <-. cbn [cfor_each cret outputs snd fold_right].
    rewrite g_nil. lia.
  - cbn [cfor_each] in *. apply cbind_returned in H.
    destruct H as [a [Ha [Hk ->]]]. rewrite g_app.
    rewrite (IH _ _ _ Hk), (Hbody _ _ _ _ Ha). cbn [fold_right]. lia.
Qed.

Context (h : Host W).

Lemma get_webdav_session_outputs (s : W) :
  transferred (inner (outputs (get_webdav_session h s))) = 0%N
  /\ announced_uploads (lines (outputs (get_webdav_session h s))) = 0%N
  /\ announced_skips (lines (outputs (get_webdav_session h s))) = 0%N.
Proof.
  unfold get_webdav_session.
  destruct (getenv h "PCLOUD_USERNAME") as [[|a u]|];
    try (repeat split; reflexivity);
  destruct (getenv h "PCLOUD_PASSWORD") as [[|b p]|];
    try (repeat split; reflexivity).
  rewrite cbind_run, lift_run, request_run.
  cbn [outcome_of final outputs value state events fst snd map].
  destruct (fst (send _ _ s)) as [response|]; [destruct (_ || _)|];
    repeat split; reflexivity.
Qed.

Lemma upload_tree_transferred session base_url assets_dir local_dir
    (totals totals' : N * N * N) (s : W) :
  outcome_of (upload_tree h session base_url assets_dir true local_dir totals s)
  = Returned totals' ->
  snd (fst totals')
  = (snd (fst totals) + 0
     + transferred (inner (outputs (upload_tree h session base_url assets_dir
                                      true local_dir totals s))))%N.
Proof.
  unfold upload_tree. destruct totals as [[tf ts] tk].
  destruct (child assets_dir local_dir) as [[f|dir_name entries|other_name]|].
  - intros H. discriminate H.
  - pose proof (upload_directory_recursive_accounted session base_url entries
                  ("/thetawave/" ++ local_dir) true s) as Hacc.
    destruct Hacc as [_ [_ [_ [Ht _]]]]. specialize (Ht eq_refl).
    rewrite !cbind_run, lift_run.
    cbn [say outcome_of final outputs fst snd app].
    destruct (value (upload_directory_recursive _ _ _ _ _ s))
      as [[success_count file_count] skipped_count].
    cbn [success_of fst snd] in Ht.
    rewrite cbind_run.
    unfold say_when. destruct (0 <? success_count)%N;
      cbn [say cret outcome_of final outputs fst snd app inner];
      rewrite ?inner_app, inner_map_Inner, ?transferred_app;
      intros [= <-]; cbn [fst snd inner transferred]; lia.
  - intros H. discriminate H.
  - intros [= <-]. cbn. lia.
Qed.

End Tallies.

(** X19. The last line of a real upload tells the truth: when
    [upload_to_pcloud(execute=True)] finds [assets] and returns, its last line
    is [Upload completed: n files uploaded] with [n] the number of [PUT]
    requests the server answered with 200, 201 or 204 during the whole run
    when there was one, and [No files needed uploading] when there was none --
    also when uploads were attempted and all of them failed. *)
Theorem upload_to_pcloud_reports_transfers {W} (h : Host W)
    (assets_dir : item) (s : W) :
  assets h = Some assets_dir ->
  outcome_of (upload_to_pcloud h true s) = Returned tt ->
  let out := outputs (upload_to_pcloud h true s) in
  let n := transferred (inner out) in
  exists before,
    lines out
    = (before ++ [if (0 <? n)%N then Upload_completed n else All_up_to_date])%list.
Proof.
  intros Ea H out n. subst n out. unfold upload_to_pcloud in *.
  apply cbind_returned in H. destruct H as [[] [_ [H ->]]].
  cbn [cret final outputs fst snd app] in *.
  apply cbind_returned in H. destruct H as [[session base_url] [Hs [H ->]]].
  rewrite Ea in *.
  apply cbind_returned in H. destruct H as [[[tf ts] tk] [Hl [_ ->]]].
  pose proof (cfor_each_sum (upload_tree h session base_url assets_dir true)
                (fun acc => snd (fst acc)) (fun _ => 0%N)
                (fun o => transferred (inner o)) eq_refl
                (fun a b => eq_trans (f_equal transferred (inner_app a b))
                                     (transferred_app _ _))
                (fun x acc s0 acc' =>
                   upload_tree_transferred h session base_url assets_dir x
                     acc acc' s0)
                _ _ _ _ Hl) as Hsum.
  cbn [fst snd fold_right] in Hsum.
  destruct (get_webdav_session_outputs h s) as [Hq _].
  rewrite !inner_app, !transferred_app, !lines_app, Hq.
  replace (transferred (inner (outputs
             (cfor_each (upload_tree h session base_url assets_dir true)
                ["data"; "media"] (0, 0, 0)%N
                (final (get_webdav_session h s)))))) with ts by lia.
  destruct (0 <? ts)%N eqn:Et;
    cbn [say outputs snd inner lines transferred];
    rewrite N.add_0_l, N.add_0_r, Et, app_assoc; eexists; reflexivity.
Qed.

Lemma upload_to_pcloud_reports_transfers_witness :
  let out := outputs (upload_to_pcloud (example_host (Some local_assets)) true
                        remote_root) in
  let n := transferred (inner out) in
  exists before,
    lines out
    = (before ++ [if (0 <? n)%N then Upload_completed n else All_up_to_date])%list.
Proof.
  apply (upload_to_pcloud_reports_transfers (example_host (Some local_assets))
           local_assets remote_root); reflexivity.
Defined.

Section DryRunTally.
Context {W : Type} (h : Host W) (session : Session W) (base_url : string)
        (assets_dir : item).

Lemma upload_tree_dry_counts (local_dir : string) (totals : N * N * N) (s : W)
    (totals' : N * N * N) :
  outcome_of (upload_tree h session base_url assets_dir false local_dir totals s)
  = Returned totals' ->
  (snd (fst totals') + snd totals'
   = snd (fst totals) + snd totals + files_under (Some assets_dir) local_dir + 0)%N.
Proof.
  unfold upload_tree, files_under. destruct totals as [[tf ts] tk].
  destruct (child assets_dir local_dir) as [[f|dir_name entries|other_name]|].
  - intros H. discriminate H.
  - pose proof (upload_directory_recursive_accounted session base_url entries
                  ("/thetawave/" ++ local_dir) false s) as Hacc.
    destruct Hacc as [Hsum [_ [_ [_ Hd]]]]. destruct (Hd eq_refl) as [Hf _].
    assert (Ht : total_of (value (upload_directory_recursive session base_url
                                    entries ("/thetawave/" ++ local_dir) false s))
                 = tree_count_files entries).
    { unfold upload_directory_recursive.
      rewrite (total_for_each
                 (fun it c => upload_entry session base_url it
                                ("/thetawave/" ++ local_dir) false c)).
      - reflexivity.
      - apply Forall_forall. intros it _ c s0. apply upload_entry_total. }
    rewrite !cbind_run, lift_run.
    cbn [say outcome_of final outputs fst snd app].
    destruct (value (upload_directory_recursive _ _ _ _ _ s))
      as [[success_count file_count] skipped_count].
    cbn [success_of total_of skipped_of fst snd] in Hsum, Ht.
    rewrite cbind_run.
    destruct (0 <? success_count)%N;
      cbn [say cret outcome_of final outputs fst snd app];
      intros [= <-]; cbn [fst snd]; lia.
  - intros H. discriminate H.
  - intros [= <-]. cbn [fst snd]. lia.
Qed.

Lemma upload_tree_dry_lines (local_dir : string) (totals : N * N * N) (s : W) :
  let out := outputs (upload_tree h session base_url assets_dir false local_dir
                        totals s) in
  announced_uploads (lines out) = 0%N /\ announced_skips (lines out) = 0%N.
Proof.
  unfold upload_tree. destruct totals as [[tf ts] tk].
  destruct (child assets_dir local_dir) as [[f|dir_name entries|other_name]|];
    try (split; reflexivity).
  rewrite !cbind_run, lift_run.
  cbn [say outcome_of final outputs fst snd app].
  destruct (value (upload_directory_recursive _ _ _ _ _ s))
    as [[success_count file_count] skipped_count].
  rewrite cbind_run.
  destruct (0 <? success_count)%N;
    cbn [say cret outcome_of final outputs fst snd app lines];
    rewrite lines_app, lines_map_Inner; split; reflexivity.
Qed.

End DryRunTally.

(** X20. The summary of a dry run accounts for every file: when
    [upload_to_pcloud(execute=False)] returns, the number of files it
    announces as to be uploaded plus the number it announces as unchanged is
    the number of regular files found, at any depth, under [assets/data] and
    [assets/media], whatever the server answered to the probes; a figure that
    is not printed stands for zero. *)
Theorem dry_run_summary_counts {W} (h : Host W) (s : W) :
  outcome_of (upload_to_pcloud h false s) = Returned tt ->
  let ls := lines (outputs (upload_to_pcloud h false s)) in
  (announced_uploads ls + announced_skips ls
   = files_under (assets h) "data" + files_under (assets h) "media")%N.
Proof.
  intros H ls. subst ls. unfold upload_to_pcloud in *.
  apply cbind_returned in H. destruct H as [[] [_ [H ->]]].
  change ((say Dry_run_mode ;; say Add_execute ;; say Blank)%cmd s)
    with (Returned tt, s, [Line Dry_run_mode; Line Add_execute; Line Blank]) in *.
  cbn [final outputs fst snd] in *.
  apply cbind_returned in H. destruct H as [[session base_url] [Hs [H ->]]].
  destruct (get_webdav_session_outputs h s) as [_ [Hu Hk]].
  rewrite !lines_app, announced_uploads_app, announced_skips_app,
    announced_uploads_app, announced_skips_app, Hu, Hk.
  cbn [lines announced_uploads announced_skips].
  destruct (assets h) as [assets_dir|]; [|cbn; lia].
  apply cbind_returned in H. destruct H as [[[tf ts] tk] [Hl [_ ->]]].
  pose proof (cfor_each_sum (upload_tree h session base_url assets_dir false)
                (fun acc => (snd (fst acc) + snd acc)%N)
                (files_under (Some assets_dir)) (fun _ => 0%N) eq_refl
                (fun _ _ => eq_refl)
                (fun x acc s0 acc' =>
                   upload_tree_dry_counts h session base_url assets_dir x acc
                     s0 acc')
                _ _ _ _ Hl) as Hsum.
  pose proof (cfor_each_sum (upload_tree h session base_url assets_dir false)
                (fun _ => 0%N) (fun _ => 0%N)
                (fun o => announced_uploads (lines o)) eq_refl
                (fun a b => eq_trans (f_equal announced_uploads (lines_app a b))
                                     (announced_uploads_app _ _))
                (fun x acc s0 acc' _ =>
                   eq_sym (f_equal (N.add 0)
                     (proj1 (upload_tree_dry_lines h session base_url
                               assets_dir x acc s0))))
                _ _ _ _ Hl) as Hau.
  pose proof (cfor_each_sum (upload_tree h session base_url assets_dir false)
                (fun _ => 0%N) (fun _ => 0%N)
                (fun o => announced_skips (lines o)) eq_refl
                (fun a b => eq_trans (f_equal announced_skips (lines_app a b))
                                     (announced_skips_app _ _))
                (fun x acc s0 acc' _ =>
                   eq_sym (f_equal (N.add 0)
                     (proj2 (upload_tree_dry_lines h session base_url
                               assets_dir x acc s0))))
                _ _ _ _ Hl) as Hak.
  cbn [fst snd fold_right] in Hsum, Hau, Hak.
  rewrite !lines_app, announced_uploads_app, announced_skips_app.
  unfold say_when.
  destruct (0 <? ts)%N eqn:Ets; destruct (0 <? tk)%N eqn:Etk;
    cbn [lines announced_uploads announced_skips outputs snd say cret cbind app];
    rewrite ?N.ltb_ge in *; lia.
Qed.

Lemma dry_run_summary_counts_witness :
  let h := example_host (Some local_assets) in
  let ls := lines (outputs (upload_to_pcloud h false remote_root)) in
  (announced_uploads ls + announced_skips ls
   = files_under (assets h) "data" + files_under (assets h) "media")%N.
Proof.
  apply (dry_run_summary_counts (example_host (Some local_assets)) remote_root).
  reflexivity.
Defined.

Lemma reported_downloaded_app (a b : list line) :
  reported_downloaded (a ++ b)
  = (reported_downloaded a + reported_downloaded b)%N.
Proof.
  induction a as [|l a IH]; [reflexivity|].
  destruct l; cbn [reported_downloaded app]; rewrite ?IH; lia.
Qed.

Section DownloadReport.
Context {W : Type} (h : Host W).

Lemma files_written_app (a b : list output) :
  files_written (a ++ b) = (files_written a + files_written b)%N.
Proof.
  unfold files_written. rewrite inner_app, written_app, length_app. lia.
Qed.

Lemma cfor_each_agree {A B} (body : A -> B -> C W B) (g1 g2 : list output -> N) :
  g1 [] = g2 [] ->
  (forall a b, g1 (a ++ b)%list = (g1 a + g1 b)%N) ->
  (forall a b, g2 (a ++ b)%list = (g2 a + g2 b)%N) ->
  (forall x acc s acc',
      outcome_of (body x acc s) = Returned acc' ->
      g1 (outputs (body x acc s)) = g2 (outputs (body x acc s))) ->
  forall l acc s acc',
    outcome_of (cfor_each body l acc s) = Returned acc' ->
    g1 (outputs (cfor_each body l acc s)) = g2 (outputs (cfor_each body l acc s)).
Proof.
  intros g_nil g1_app g2_app Hbody.
  induction l as [|x l IH]; intros acc s acc' H; [exact g_nil|].
  cbn [cfor_each] in *. apply cbind_returned in H.
  destruct H as [a [Ha [Hk ->]]].
  rewrite g1_app, g2_app, (IH _ _ _ Hk), (Hbody _ _ _ _ Ha). reflexivity.
Qed.

Lemma download_tree_reports session base_url assets_dir remote_dir (u u' : unit)
    (s : W) :
  outcome_of (download_tree h session base_url assets_dir remote_dir u s)
  = Returned u' ->
  reported_downloaded
    (lines (outputs (download_tree h session base_url assets_dir remote_dir u s)))
  = files_written
      (outputs (download_tree h session base_url assets_dir remote_dir u s)).
Proof.
  unfold download_tree. rewrite !cbind_run, lift_run.
  cbn [say outcome_of final outputs fst snd app].
  pose proof (download_directory_recursive_counted (host_disk h) session base_url
                (recursion_limit h) ("/thetawave/" ++ remote_dir)
                (assets_dir ++ [remote_dir])%list s) as Hc.
  pose proof (download_directory_recursive_counts (host_disk h) session base_url
                (recursion_limit h) ("/thetawave/" ++ remote_dir)
                (assets_dir ++ [remote_dir])%list s) as Hle.
  destruct (value (download_directory_recursive _ _ _ _ _ _ s))
    as [[success_count total_files]|]; [|intros H; discriminate H].
  destruct (Hc _ _ eq_refl) as [Hs _]. specialize (Hle _ _ eq_refl).
  intros _. unfold files_written.
  cbn [lines inner]. rewrite lines_app, inner_app, lines_map_Inner,
    inner_map_Inner, written_app, length_app, Nat2N.inj_add, <- Hs.
  destruct (0 <? total_files)%N eqn:Et;
    cbn [say outputs snd lines inner written length reported_downloaded app];
    rewrite ?N.ltb_ge in *; lia.
Qed.

Lemma get_webdav_session_reports (s : W) :
  reported_downloaded (lines (outputs (get_webdav_session h s))) = 0%N
  /\ files_written (outputs (get_webdav_session h s)) = 0%N.
Proof.
  unfold get_webdav_session, files_written.
  destruct (getenv h "PCLOUD_USERNAME") as [[|a u]|];
    try (split; reflexivity);
  destruct (getenv h "PCLOUD_PASSWORD") as [[|b p]|];
    try (split; reflexivity).
  rewrite cbind_run, lift_run, request_run.
  cbn [outcome_of final outputs value state events fst snd map].
  destruct (fst (send _ _ s)) as [response|]; [destruct (_ || _)|];
    split; reflexivity.
Qed.

(** The output of the download of one tree. *)
Lemma download_tree_output session base_url assets_dir remote_dir (u u' : unit)
    (s : W) :
  outcome_of (download_tree h session base_url assets_dir remote_dir u s)
  = Returned u' ->
  let ev := events (download_directory_recursive (host_disk h)
                      (recursion_limit h) session base_url
                      ("/thetawave/" ++ remote_dir)
                      (assets_dir ++ [remote_dir])%list s) in
  outputs (download_tree h session base_url assets_dir remote_dir u s)
  = tree_output assets_dir remote_dir ev
  /\ (downloads_announced ev = 0%N -> written ev = []).
Proof.
  unfold download_tree, tree_output, tree_report.
  rewrite !cbind_run, lift_run.
  cbn [say outcome_of final outputs fst snd app].
  pose proof (download_directory_recursive_counted (host_disk h) session base_url
                (recursion_limit h) ("/thetawave/" ++ remote_dir)
                (assets_dir ++ [remote_dir])%list s) as Hc.
  pose proof (download_directory_recursive_counts (host_disk h) session base_url
                (recursion_limit h) ("/thetawave/" ++ remote_dir)
                (assets_dir ++ [remote_dir])%list s) as Hle.
  destruct (value (download_directory_recursive _ _ _ _ _ _ s))
    as [[success_count total_files]|]; [|intros H; discriminate H].
  destruct (Hc _ _ eq_refl) as [Hs Ht]. specialize (Hle _ _ eq_refl).
  intros _. rewrite <- Hs, <- Ht. split.
  - destruct (0 <? total_files)%N; reflexivity.
  - intros H0. rewrite H0 in Hle.
    assert (E : success_count = 0%N) by lia. rewrite E in Hs.
    destruct (written _); [reflexivity|discriminate Hs].
Qed.

(** The output of a download that returns: what is said before the trees,
    the two trees, the last line. *)
Lemma download_from_pcloud_output (s : W) :
  outcome_of (download_from_pcloud h s) = Returned tt ->
  exists before data media,
    outputs (download_from_pcloud h s)
    = (before
       ++ tree_output (project_root h ++ ["assets"]) "data" data
       ++ tree_output (project_root h ++ ["assets"]) "media" media
       ++ [Line Download_completed])%list
    /\ written (inner before) = []
    /\ (downloads_announced data = 0%N -> written data = [])
    /\ (downloads_announced media = 0%N -> written media = []).
Proof.
  intros H. unfold download_from_pcloud in *.
  apply cbind_returned in H. destruct H as [[session base_url] [Hs [H ->]]].
  apply cbind_returned in H. destruct H as [made [Hm [H ->]]].
  destruct (mkdir_exist_ok h _ _) as [ok s1] eqn:Em.
  cbn [outcome_of final outputs fst snd] in *. injection Hm as <-.
  destruct ok; [|discriminate H].
  apply cbind_returned in H. destruct H as [[] [Hl [_ ->]]].
  cbn [cfor_each] in Hl |- *.
  apply cbind_returned in Hl. destruct Hl as [[] [Hd [Hl ->]]].
  apply cbind_returned in Hl. destruct Hl as [[] [Hmd [_ ->]]].
  destruct (download_tree_output _ _ _ _ _ _ _ Hd) as [-> Wd].
  destruct (download_tree_output _ _ _ _ _ _ _ Hmd) as [-> Wm].
  eexists (outputs (get_webdav_session h s)
           ++ [Made (project_root h ++ ["assets"]) true])%list, _, _.
  split; [|split; [|split; [exact Wd|exact Wm]]].
  - cbn [cret outputs snd say]. rewrite app_nil_r, <- !app_assoc. reflexivity.
  - rewrite inner_app, written_app. cbn [inner written]. rewrite app_nil_r.
    destruct (get_webdav_session_reports s) as [_ Hw]. unfold files_written in Hw.
    destruct (written (inner (outputs (get_webdav_session h s))));
      [reflexivity|discriminate Hw].
Qed.

End DownloadReport.

(** X21. The report of a download is truthful, tree by tree. When
    [download_from_pcloud] returns, what it leaves behind is: the check of
    the session and the creation of [assets], during which no file is
    written; then, for [data] and for [media] in this order, the announcement
    of the tree, the events of its walk, and one report line, which is
    [Downloaded a/b files] with [a] the number of files written during that
    walk and [b] the number of files announced, or [No files found] when
    none was announced -- and then none was written; then
    [Download completed]. So the numbers of downloaded files of the
    [Downloaded a/b files] lines add up to the number of files written during
    the run. *)
Theorem download_from_pcloud_reports_writes {W} (h : Host W) (s : W) :
  outcome_of (download_from_pcloud h s) = Returned tt ->
  (exists before data media,
     outputs (download_from_pcloud h s)
     = (before
        ++ tree_output (project_root h ++ ["assets"]) "data" data
        ++ tree_output (project_root h ++ ["assets"]) "media" media
        ++ [Line Download_completed])%list
     /\ written (inner before) = []
     /\ (downloads_announced data = 0%N -> written data = [])
     /\ (downloads_announced media = 0%N -> written media = []))
  /\ reported_downloaded (lines (outputs (download_from_pcloud h s)))
     = N.of_nat (length (written (inner (outputs (download_from_pcloud h s))))).
Proof.
  intros H. split; [exact (download_from_pcloud_output h s H)|].
  change (reported_downloaded (lines (outputs (download_from_pcloud h s)))
          = files_written (outputs (download_from_pcloud h s))).
  unfold download_from_pcloud in *.
  apply cbind_returned in H. destruct H as [[session base_url] [Hs [H ->]]].
  destruct (get_webdav_session_reports h s) as [Hr Hw].
  rewrite lines_app, reported_downloaded_app, files_written_app, Hr, Hw.
  apply cbind_returned in H. destruct H as [made [Hm [H ->]]].
  destruct (mkdir_exist_ok h _ _) as [ok s1] eqn:Em.
  cbn [outcome_of final outputs fst snd] in *. injection Hm as <-.
  rewrite lines_app, reported_downloaded_app, files_written_app.
  destruct ok; [|discriminate H].
  apply cbind_returned in H. destruct H as [[] [Hl [_ ->]]].
  rewrite lines_app, reported_downloaded_app, files_written_app.
  pose proof (cfor_each_agree
                (download_tree h session base_url
                   (project_root h ++ ["assets"])%list)
                (fun o => reported_downloaded (lines o)) files_written
                eq_refl
                (fun a b => eq_trans (f_equal reported_downloaded (lines_app a b))
                                     (reported_downloaded_app _ _))
                files_written_app
                (fun x acc s0 acc' =>
                   download_tree_reports h session base_url _ x acc acc' s0)
                _ _ _ _ Hl) as Hagree.
  cbv beta in Hagree. rewrite Hagree. reflexivity.
Qed.

Lemma download_from_pcloud_reports_writes_witness :
  let h := example_host None in
  let r := download_from_pcloud h remote_root in
  (exists before data media,
     outputs r
     = (before
        ++ tree_output (project_root h ++ ["assets"]) "data" data
        ++ tree_output (project_root h ++ ["assets"]) "media" media
        ++ [Line Download_completed])%list
     /\ written (inner before) = []
     /\ (downloads_announced data = 0%N -> written data = [])
     /\ (downloads_announced media = 0%N -> written media = []))
  /\ reported_downloaded (lines (outputs r))
     = N.of_nat (length (written (inner (outputs r)))).
Proof.
  apply (download_from_pcloud_reports_writes (example_host None) remote_root).
  reflexivity.
Defined.

(** The download of the examples: two files under [data], nothing under
    [media]. *)
Example download_from_pcloud_scenario :
  lines (outputs (download_from_pcloud (example_host None) remote_root))
  = [Downloading_tree "/thetawave/data" ["project"; "assets"; "data"];
     Downloaded 2 2 "data";
     Downloading_tree "/thetawave/media" ["project"; "assets"; "media"];
     No_files_found "/thetawave/media";
     Download_completed].
Proof. vm_compute. reflexivity. Qed.
